(** * Simviator: aviation pronunciation engine and flight guidance characters

    A shallow embedding of
      - [services/simviator/aviation_pronunciation.py]
        (class [AviationPronunciationEngine]),
      - [services/simviator/flight_guidance_character.py]
        (class [FlightGuidanceCharacterSystem]) and
      - the simulated flight and the commentary engine of
        [services/simviator/main.py],
    followed by the properties established about them.

    Modelling conventions.
      - A Python [int] is a [Z]; [//] and [%] are [Z.div] and [Z.modulo]
        (both floor towards minus infinity, as Python does).
      - A Python [str] is a [string]: a sequence of code points below 256.
      - A Python exception is a value [Raise e] of the [result] type.
      - A [datetime] is a number of microseconds ([Z]); a [timedelta] is the
        difference of two of them; [total_seconds()] is a rational.
      - A [float] that holds a probability or a number of seconds is a
        rational ([Q]).
      - [datetime.now()] and the [random] module are oracles of the
        environment, read in order (see [Env]). *)

From Stdlib Require Import ZArith List String Ascii Bool Lia QArith.
Import ListNotations.

Local Open Scope string_scope.
Local Open Scope Z_scope.

(** ** Exceptions and results *)

Inductive exn : Type :=
| KeyError (key : string)
| ValueError
| IndexError.

Inductive result (A : Type) : Type :=
| Ok (a : A)
| Raise (e : exn).

Arguments Ok {A} a.
Arguments Raise {A} e.

Definition rbind {A B} (r : result A) (f : A -> result B) : result B :=
  match r with
  | Ok a => f a
  | Raise e => Raise e
  end.

Declare Scope result_scope.
Delimit Scope result_scope with result.
Notation "'let?' x ':=' r 'in' k" := (rbind r (fun x => k))
  (at level 10, x name, r at level 100, k at level 200) : result_scope.
Local Open Scope result_scope.

(** [[f(x) for x in xs]] where [f] may raise: the first exception wins. *)
Fixpoint comprehension {A B} (f : A -> result B) (xs : list A) : result (list B) :=
  match xs with
  | [] => Ok []
  | x :: xs' =>
      let? y := f x in
      let? ys := comprehension f xs' in
      Ok (y :: ys)
  end.

(** [[x for x in xs if p(x)]] where [p] may raise. *)
Fixpoint comprehension_if {A} (p : A -> result bool) (xs : list A) : result (list A) :=
  match xs with
  | [] => Ok []
  | x :: xs' =>
      let? keep := p x in
      let? ys := comprehension_if p xs' in
      Ok (if keep then x :: ys else ys)
  end.

(** ** Python string primitives *)

Module Py.

Fixpoint chars (s : string) : list string :=
  match s with
  | EmptyString => []
  | String c s' => String c EmptyString :: chars s'
  end.

(** [sep.join(parts)] *)
Definition join (sep : string) (parts : list string) : string :=
  String.concat sep parts.

Definition len (s : string) : Z := Z.of_nat (String.length s).

(** [s.replace(old, new)] for a non-empty [old]: occurrences are replaced
    from left to right without overlap.  [skip] counts the characters of
    an occurrence that is being jumped over. *)
Fixpoint replace_from (old new : string) (skip : nat) (s : string) : string :=
  match s with
  | EmptyString => EmptyString
  | String c s' =>
      match skip with
      | S k => replace_from old new k s'
      | O =>
          if String.prefix old s
          then new ++ replace_from old new (String.length old - 1) s'
          else String c (replace_from old new O s')
      end
  end.

Definition replace (old new s : string) : string :=
  replace_from old new O s.

(** [str.isspace] on one code point below 256. *)
Definition isspace (c : ascii) : bool :=
  let n := nat_of_ascii c in
  ((9 <=? n) && (n <=? 13) || (28 <=? n) && (n <=? 32)
   || (n =? 133) || (n =? 160))%nat.

Fixpoint lstrip (s : string) : string :=
  match s with
  | EmptyString => EmptyString
  | String c s' => if isspace c then lstrip s' else s
  end.

Fixpoint rstrip (s : string) : string :=
  match s with
  | EmptyString => EmptyString
  | String c s' =>
      match rstrip s' with
      | EmptyString => if isspace c then EmptyString else String c EmptyString
      | r => String c r
      end
  end.

Definition strip (s : string) : string := rstrip (lstrip s).

(** [c in s] for a single character [c]. *)
Fixpoint contains (c : ascii) (s : string) : bool :=
  match s with
  | EmptyString => false
  | String d s' => Ascii.eqb c d || contains c s'
  end.

(** [s.split(c)] for a single-character separator. *)
Fixpoint split (c : ascii) (s : string) : list string :=
  match s with
  | EmptyString => [EmptyString]
  | String d s' =>
      if Ascii.eqb c d then EmptyString :: split c s'
      else match split c s' with
           | [] => [String d EmptyString]
           | p :: ps => String d p :: ps
           end
  end.

Fixpoint zeros (n : nat) : string :=
  match n with
  | O => EmptyString
  | S n' => String "0" (zeros n')
  end.

(** [s.zfill(width)]: the padding goes after a leading sign. *)
Definition zfill (width : nat) (s : string) : string :=
  if (width <=? String.length s)%nat then s
  else
    let fill := zeros (width - String.length s) in
    match s with
    | String c s' =>
        if Ascii.eqb c "+" || Ascii.eqb c "-" then String c (fill ++ s')
        else fill ++ s
    | EmptyString => fill
    end.

Definition is_decimal_digit (c : ascii) : bool :=
  let n := nat_of_ascii c in ((48 <=? n) && (n <=? 57))%nat.

(** [str.isdigit] on one code point below 256: the ten decimal digits and
    the superscripts one, two and three. *)
Definition isdigit_char (c : ascii) : bool :=
  let n := nat_of_ascii c in
  (is_decimal_digit c || (n =? 178) || (n =? 179) || (n =? 185))%nat.

Fixpoint all_chars (p : ascii -> bool) (s : string) : bool :=
  match s with
  | EmptyString => true
  | String c s' => p c && all_chars p s'
  end.

(** [s.isdigit()]: false on the empty string. *)
Definition isdigit (s : string) : bool :=
  match s with
  | EmptyString => false
  | _ => all_chars isdigit_char s
  end.

(** *** [str(n)] for an integer *)

Definition digit_char (d : Z) : ascii := ascii_of_nat (48 + Z.to_nat d).

Fixpoint digits_of (fuel : nat) (n : Z) (acc : string) : string :=
  let acc' := String (digit_char (n mod 10)) acc in
  match fuel with
  | O => acc'
  | S fuel' => if n <? 10 then acc' else digits_of fuel' (n / 10) acc'
  end.

(** Decimal digits of [n >= 0]; [Z.log2 n] further rounds are always
    enough (see [str_nat_value]). *)
Definition str_nat (n : Z) : string :=
  digits_of (Z.to_nat (Z.log2 n)) n EmptyString.

Definition str (n : Z) : string :=
  if n <? 0 then String "-" (str_nat (- n)) else str_nat n.

(** *** [int(s)] for a string *)

Definition digit_value (c : ascii) : Z := Z.of_nat (nat_of_ascii c) - 48.

(** Digits with single underscores between them; [prev] tells whether the
    previous character was a digit. *)
Fixpoint parse_digits (prev : bool) (acc : Z) (s : string) : option Z :=
  match s with
  | EmptyString => if prev then Some acc else None
  | String c s' =>
      if is_decimal_digit c then parse_digits true (10 * acc + digit_value c) s'
      else if Ascii.eqb c "_" then
             if prev then parse_digits false acc s' else None
           else None
  end.

Definition int (s : string) : result Z :=
  let body (sign : Z) (t : string) :=
    match parse_digits false 0 t with
    | Some v => Ok (sign * v)
    | None => Raise ValueError
    end in
  match strip s with
  | String c t =>
      if Ascii.eqb c "-" then body (-1) t
      else if Ascii.eqb c "+" then body 1 t
      else body 1 (String c t)
  | EmptyString => Raise ValueError
  end.

(** *** Case *)

(** [s.upper()] on ASCII strings: the letters [a] to [z] go to [A] to [Z].
    Code points above 127 are outside this model of [upper] and are left
    as they are; the properties that use it are stated for ASCII input. *)
Definition upper_char (c : ascii) : ascii :=
  let n := nat_of_ascii c in
  if ((97 <=? n) && (n <=? 122))%nat then ascii_of_nat (n - 32) else c.

Fixpoint upper (s : string) : string :=
  match s with
  | EmptyString => EmptyString
  | String c s' => String (upper_char c) (upper s')
  end.

Definition is_ascii (c : ascii) : bool := (nat_of_ascii c <? 128)%nat.

(** [s.lower()]: on code points below 256 the letters [A] to [Z] and the
    accented capitals 192 to 222 (the multiplication sign 215 apart) move
    up by 32; every other character stays. *)
Definition lower_char (c : ascii) : ascii :=
  let n := nat_of_ascii c in
  if ((65 <=? n) && (n <=? 90)
      || (192 <=? n) && (n <=? 222) && negb (n =? 215))%nat
  then ascii_of_nat (n + 32) else c.

Fixpoint lower (s : string) : string :=
  match s with
  | EmptyString => EmptyString
  | String c s' => String (lower_char c) (lower s')
  end.

(** *** Classes of characters *)

(** [str.isalpha] on one code point below 256: the letters of the Latin
    alphabet, the ordinal indicators, the micro sign and the accented
    letters. *)
Definition isalpha_char (c : ascii) : bool :=
  let n := nat_of_ascii c in
  ((65 <=? n) && (n <=? 90) || (97 <=? n) && (n <=? 122)
   || (n =? 170) || (n =? 181) || (n =? 186)
   || (192 <=? n) && (n <=? 214) || (216 <=? n) && (n <=? 246)
   || (248 <=? n) && (n <=? 255))%nat.

(** [str.isalnum] on one code point below 256: letters, digits and the
    three vulgar fractions. *)
Definition isalnum_char (c : ascii) : bool :=
  let n := nat_of_ascii c in
  (isalpha_char c || isdigit_char c || (188 <=? n) && (n <=? 190))%nat.

(** [s.isalpha()] and [s.isalnum()]: false on the empty string. *)
Definition isalpha (s : string) : bool :=
  match s with
  | EmptyString => false
  | _ => all_chars isalpha_char s
  end.

Definition isalnum (s : string) : bool :=
  match s with
  | EmptyString => false
  | _ => all_chars isalnum_char s
  end.

End Py.

(** ** aviation_pronunciation.py *)

(** The module-level table [AVIATION_NUMBERS]. *)
Definition AVIATION_NUMBERS : list (string * string) :=
  [("0", "Zero"); ("1", "One"); ("2", "Two"); ("3", "Three"); ("4", "Four");
   ("5", "Five"); ("6", "Six"); ("7", "Seven"); ("8", "Eight"); ("9", "Niner")].

Fixpoint dict_get {V} (d : list (string * V)) (k : string) : option V :=
  match d with
  | [] => None
  | (k', v) :: d' => if String.eqb k k' then Some v else dict_get d' k
  end.

(** [d[k]]: a missing key raises [KeyError(k)]. *)
Definition getitem {V} (d : list (string * V)) (k : string) : result V :=
  match dict_get d k with
  | Some v => Ok v
  | None => Raise (KeyError k)
  end.

(** [[AVIATION_NUMBERS[d] for d in s]] *)
Definition digit_words (s : string) : result (list string) :=
  comprehension (getitem AVIATION_NUMBERS) (Py.chars s).

Definition _pronounce_flight_level_number (fl_number : Z) : result string :=
  if fl_number <? 10 then
    let? w := getitem AVIATION_NUMBERS (Py.str fl_number) in
    Ok ("Zero " ++ w)
  else if fl_number <? 100 then
    let tens := fl_number / 10 in
    let ones := fl_number mod 10 in
    if ones =? 0 then
      let? t := getitem AVIATION_NUMBERS (Py.str tens) in
      Ok (t ++ " Zero")
    else
      let? t := getitem AVIATION_NUMBERS (Py.str tens) in
      let? o := getitem AVIATION_NUMBERS (Py.str ones) in
      Ok (t ++ " " ++ o)
  else
    let? digits := digit_words (Py.str fl_number) in
    Ok (Py.join " " digits).

(** The remainder below one hundred, spoken when it is positive. *)
Definition remainder_part (remainder : Z) : result (list string) :=
  if 0 <? remainder then
    if remainder <? 10 then
      let? w := getitem AVIATION_NUMBERS (Py.str remainder) in
      Ok [w]
    else
      let? remainder_digits := digit_words (Py.str remainder) in
      Ok [Py.join " " remainder_digits]
  else Ok [].

Definition _pronounce_altitude_feet (altitude : Z) : result string :=
  if altitude =? 0 then Ok "Zero feet"
  else if 1000 <=? altitude then
    let thousands := altitude / 1000 in
    let hundreds := (altitude mod 1000) / 100 in
    let remainder := altitude mod 100 in
    let? p_thousands :=
      if thousands =? 1 then Ok ["One Thousand"]
      else
        let? thousands_digits := digit_words (Py.str thousands) in
        Ok [Py.join " " thousands_digits ++ " Thousand"] in
    let? p_hundreds :=
      if 0 <? hundreds then
        let? h := getitem AVIATION_NUMBERS (Py.str hundreds) in
        Ok [h ++ " Hundred"]
      else Ok [] in
    let? p_remainder := remainder_part remainder in
    Ok (Py.join " " (p_thousands ++ p_hundreds ++ p_remainder)%list ++ " feet")
  else if 100 <=? altitude then
    let hundreds := altitude / 100 in
    let remainder := altitude mod 100 in
    let? h := getitem AVIATION_NUMBERS (Py.str hundreds) in
    let? p_remainder := remainder_part remainder in
    Ok (Py.join " " ((h ++ " Hundred") :: p_remainder) ++ " feet")
  else
    if altitude <? 10 then
      let? w := getitem AVIATION_NUMBERS (Py.str altitude) in
      Ok (w ++ " feet")
    else
      let? digits := digit_words (Py.str altitude) in
      Ok (Py.join " " digits ++ " feet").

(** An argument of type [Union[int, str]]. *)
Inductive int_or_str : Type :=
| PyInt (n : Z)
| PyStr (s : string).

Definition pronounce_altitude_int (altitude : Z) : result string :=
  if (18000 <=? altitude) && (altitude mod 100 =? 0) then
    let flight_level := altitude / 100 in
    if flight_level <? 100 then
      let? n := _pronounce_flight_level_number flight_level in
      Ok ("Flight Level " ++ n)
    else
      let? digits := digit_words (Py.str flight_level) in
      Ok ("Flight Level " ++ Py.join " " digits)
  else _pronounce_altitude_feet altitude.

Definition pronounce_altitude (altitude : int_or_str) : result string :=
  match altitude with
  | PyStr s =>
      match Py.int (Py.strip (Py.replace "ft" "" (Py.replace "," "" s))) with
      | Ok n => pronounce_altitude_int n
      | Raise ValueError => Ok s
      | Raise e => Raise e
      end
  | PyInt n => pronounce_altitude_int n
  end.

Definition pronounce_speed_int (speed : Z) (unit : string) : result string :=
  if speed =? 0 then Ok ("Zero " ++ unit)
  else if speed <? 100 then
    if speed <? 10 then
      let? w := getitem AVIATION_NUMBERS (Py.str speed) in
      Ok (w ++ " " ++ unit)
    else
      let? digits := digit_words (Py.str speed) in
      Ok (Py.join " " digits ++ " " ++ unit)
  else
    let? digits := digit_words (Py.str speed) in
    Ok (Py.join " " digits ++ " " ++ unit).

Definition pronounce_speed (speed : int_or_str) (unit : string) : result string :=
  match speed with
  | PyStr s =>
      match Py.int (Py.strip (Py.replace "knots" "" (Py.replace "kts" "" s))) with
      | Ok n => pronounce_speed_int n unit
      | Raise ValueError => Ok s
      | Raise e => Raise e
      end
  | PyInt n => pronounce_speed_int n unit
  end.

Definition pronounce_time (time_str : string) : result string :=
  let clean_time :=
    Py.strip (Py.replace "GMT" "" (Py.replace "UTC" "" (Py.replace "Z" "" time_str))) in
  let speak (time_digits : string) : result string :=
    let? digits := digit_words time_digits in
    match digits with
    | [d0; d1; d2; d3] => Ok (d0 ++ " " ++ d1 ++ " " ++ d2 ++ " " ++ d3 ++ " hours")
    | _ => Ok (Py.join " " digits ++ " hours")
    end in
  if Py.contains ":" clean_time then
    match Py.split ":" clean_time with
    | [p0; p1] => speak (Py.zfill 2 p0 ++ Py.zfill 2 p1)
    | _ => Ok time_str
    end
  else if (Py.len clean_time =? 4) && Py.isdigit clean_time then
    speak clean_time
  else if (Py.len clean_time =? 3) && Py.isdigit clean_time then
    speak ("0" ++ clean_time)
  else Ok time_str.

(** [f"{n:03d}"]: zero padding to width 3, after the sign. *)
Definition format_03d (n : Z) : string := Py.zfill 3 (Py.str n).

Definition pronounce_heading_int (heading : Z) : result string :=
  let heading := heading mod 360 in
  let heading_str := format_03d heading in
  let? digits := digit_words heading_str in
  Ok (Py.join " " digits).

(** The degree sign, code point 176. *)
Definition degree_sign : string := String (ascii_of_nat 176) EmptyString.

Definition pronounce_heading (heading : int_or_str) : result string :=
  match heading with
  | PyStr s =>
      match Py.int (Py.strip (Py.replace degree_sign "" s)) with
      | Ok n => pronounce_heading_int n
      | Raise ValueError => Ok s
      | Raise e => Raise e
      end
  | PyInt n => pronounce_heading_int n
  end.

Definition _pronounce_number_simple (number : Z) : result string :=
  if number <? 10 then getitem AVIATION_NUMBERS (Py.str number)
  else if number <? 100 then
    let tens := number / 10 in
    let ones := number mod 10 in
    if ones =? 0 then
      let? t := getitem AVIATION_NUMBERS (Py.str tens) in
      Ok (t ++ " zero")
    else
      let? t := getitem AVIATION_NUMBERS (Py.str tens) in
      let? o := getitem AVIATION_NUMBERS (Py.str ones) in
      Ok (t ++ " " ++ o)
  else
    let? digits := digit_words (Py.str number) in
    Ok (Py.join " " digits).

(** The module-level table [ICAO_PHONETIC_ALPHABET]. *)
Definition ICAO_PHONETIC_ALPHABET : list (string * string) :=
  [("A", "Alpha"); ("B", "Bravo"); ("C", "Charlie"); ("D", "Delta");
   ("E", "Echo"); ("F", "Foxtrot"); ("G", "Golf"); ("H", "Hotel");
   ("I", "India"); ("J", "Juliet"); ("K", "Kilo"); ("L", "Lima");
   ("M", "Mike"); ("N", "November"); ("O", "Oscar"); ("P", "Papa");
   ("Q", "Quebec"); ("R", "Romeo"); ("S", "Sierra"); ("T", "Tango");
   ("U", "Uniform"); ("V", "Victor"); ("W", "Whiskey"); ("X", "X-ray");
   ("Y", "Yankee"); ("Z", "Zulu")].

(** What [_load_airport_pronunciations] returns. *)
Definition airport_pronunciations : list (string * string) :=
  [("EIDW", "Echo India Delta Whiskey"); ("EICK", "Echo India Charlie Kilo");
   ("EINN", "Echo India November November"); ("EISG", "Echo India Sierra Golf");
   ("EIKN", "Echo India Kilo November");
   ("EGLL", "Echo Golf Lima Lima"); ("EGKK", "Echo Golf Kilo Kilo");
   ("EGSS", "Echo Golf Sierra Sierra"); ("EGGW", "Echo Golf Golf Whiskey");
   ("EGLC", "Echo Golf Lima Charlie"); ("EGPH", "Echo Golf Papa Hotel");
   ("EGPF", "Echo Golf Papa Foxtrot"); ("EGCC", "Echo Golf Charlie Charlie");
   ("EGBB", "Echo Golf Bravo Bravo"); ("EGGP", "Echo Golf Golf Papa");
   ("EGNX", "Echo Golf November X-ray"); ("EGNT", "Echo Golf November Tango");
   ("EGTE", "Echo Golf Tango Echo"); ("EGFF", "Echo Golf Foxtrot Foxtrot");
   ("KJFK", "Kilo Juliet Foxtrot Kilo"); ("KLAX", "Kilo Lima Alpha X-ray");
   ("KORD", "Kilo Oscar Romeo Delta"); ("LFPG", "Lima Foxtrot Papa Golf");
   ("EDDF", "Echo Delta Delta Foxtrot"); ("EHAM", "Echo Hotel Alpha Mike")].

(** One turn of the loop of [pronounce_icao_code]: the part spoken for
    one character. *)
Definition spell_character (char : string) : result string :=
  match dict_get ICAO_PHONETIC_ALPHABET char with
  | Some word => Ok word
  | None =>
      if Py.isdigit char then getitem AVIATION_NUMBERS char
      else Ok char
  end.

Definition pronounce_icao_code (icao_code : string) : result string :=
  if String.eqb icao_code "" then Ok ""
  else
    let icao_upper := Py.upper icao_code in
    match dict_get airport_pronunciations icao_upper with
    | Some pronunciation => Ok pronunciation
    | None =>
        let? pronunciation_parts := comprehension spell_character (Py.chars icao_upper) in
        Ok (Py.join " " pronunciation_parts)
    end.

(** ** flight_guidance_character.py: data *)

Inductive GuidancePersonality : Type :=
| BORED_CONTROLLER
| HARRIED_CONTROLLER
| VETERAN_PILOT
| NERVOUS_STUDENT
| ENTHUSIAST_SPOTTER
| SAFETY_OFFICER.

Record GuidanceCharacter : Type := {
  name : string;
  personality : GuidancePersonality;
  background : string;
  speech_patterns : list string;
  expertise_areas : list string;
  response_likelihood : Q;
  professional_level : Z;
  current_mood : string;
  tiredness_level : Q;
  last_spoke : option Z;
  spoke_count_session : Z
}.

(** One entry of [conversation_flow]. *)
Record FlowEntry : Type := {
  timestamp : Z;
  character : string;
  message : string;
  situation : string
}.

Record GuidanceContext : Type := {
  aircraft_callsign : string;
  flight_phase : string;
  complexity_level : Z;
  traffic_density : Z;
  weather_conditions : string;
  emergency_situation : bool;
  active_characters : list string;
  conversation_flow : list FlowEntry;
  dominant_character : option string
}.

(** The keys of [flight_data] that the guidance system reads; [None] is
    an absent key. *)
Record FlightData : Type := {
  fd_callsign : option string;
  fd_phase : option string;
  fd_traffic_count : option Z;
  fd_weather : option string;
  fd_emergency : option bool;
  fd_weather_severity : option Z;
  fd_altitude : option Z;
  fd_aircraft_type : option string
}.

(** [d.get(key, default)] *)
Definition get {A} (field : option A) (default : A) : A :=
  match field with
  | Some v => v
  | None => default
  end.

Record SituationAnalysis : Type := {
  situation_type : string;
  urgency_level : Z;
  requires_technical_guidance : bool;
  traffic_concerns : list string;
  weather_concerns : list string;
  educational_opportunities : list string;
  character_preferences : list string
}.

(** The attributes of [self].  [characters] is a dict; its insertion order
    is the order of the list and its keys are pairwise different. *)
Record FlightGuidanceCharacterSystem : Type := {
  characters : list (string * GuidanceCharacter);
  guidance_context : GuidanceContext;
  last_guidance_time : Z;
  guidance_cooldown_seconds : Q;
  max_active_characters : Z;
  character_rotation_minutes : Z
}.

(** ** The environment: clock, random source and subscribers *)

(** [clock k] is what the [k]-th call of [datetime.now()] returns, in
    microseconds; [entropy k] is the raw outcome of the [k]-th draw from
    the [random] module. *)
Record Env : Type := {
  clock : nat -> Z;
  entropy : nat -> Z
}.

(** What [_output_guidance] hands to every registered callback, stamped
    with the time it stores in [last_guidance_time]. *)
Record Emission : Type := {
  em_character : string;
  em_message : string;
  em_time : Z
}.

Record World : Type := {
  self : FlightGuidanceCharacterSystem;
  ticks : nat;
  draws : nat;
  sent : list Emission
}.

Definition M (A : Type) : Type := Env -> World -> result A * World.

Definition ret {A} (a : A) : M A := fun _ w => (Ok a, w).

Definition raise {A} (e : exn) : M A := fun _ w => (Raise e, w).

Definition bind {A B} (c : M A) (f : A -> M B) : M B :=
  fun env w =>
    match c env w with
    | (Ok a, w') => f a env w'
    | (Raise e, w') => (Raise e, w')
    end.

Declare Scope guidance_scope.
Delimit Scope guidance_scope with guidance.
Notation "x <- c ;; k" := (bind c (fun x => k))
  (at level 61, c at next level, right associativity) : guidance_scope.
Notation "c ;; k" := (bind c (fun _ => k))
  (at level 61, right associativity) : guidance_scope.
Local Open Scope guidance_scope.

Definition lift {A} (r : result A) : M A := fun _ w => (r, w).

Definition get_self : M FlightGuidanceCharacterSystem :=
  fun _ w => (Ok (self w), w).

Definition modify_self (f : FlightGuidanceCharacterSystem -> FlightGuidanceCharacterSystem)
  : M unit :=
  fun _ w => (Ok tt, {| self := f (self w); ticks := ticks w; draws := draws w;
                        sent := sent w |}).

(** [datetime.now()] *)
Definition datetime_now : M Z :=
  fun env w => (Ok (clock env (ticks w)),
                {| self := self w; ticks := S (ticks w); draws := draws w;
                   sent := sent w |}).

Definition draw : M Z :=
  fun env w => (Ok (entropy env (draws w)),
                {| self := self w; ticks := ticks w; draws := S (draws w);
                   sent := sent w |}).

(** [random.random()]: a multiple of 2^-53 in [0, 1). *)
Definition random_random : M Q :=
  r <- draw ;;
  ret (Qmake (r mod 2 ^ 53) (2 ^ 53)%positive).

(** [random.choice(seq)]: [IndexError] on an empty sequence. *)
Definition random_choice {A} (seq : list A) : M A :=
  match seq with
  | [] => raise IndexError
  | x :: _ =>
      r <- draw ;;
      ret (nth (Z.to_nat (r mod Z.of_nat (List.length seq))) seq x)
  end.

(** Every registered callback receives [(character_name, guidance)]; a
    callback that raises is logged and skipped. *)
Definition call_guidance_callbacks (e : Emission) : M unit :=
  fun _ w => (Ok tt, {| self := self w; ticks := ticks w; draws := draws w;
                        sent := (sent w ++ [e])%list |}).

(** [await asyncio.sleep(seconds)]: the time that passes shows in the next
    reading of the clock. *)
Definition asyncio_sleep (seconds : Q) : M unit := ret tt.

(** [(t1 - t0).total_seconds()] for a difference in microseconds. *)
Definition total_seconds (delta : Z) : Q := Qmake delta 1000000%positive.

Definition Qltb (a b : Q) : bool := negb (Qle_bool b a).

(** Python's [min(a, b)] on floats: [b] only when it is strictly smaller. *)
Definition Qmin2 (a b : Q) : Q := if Qltb b a then b else a.

(** ** flight_guidance_character.py: the cast *)

Definition new_character (nm : string) (p : GuidancePersonality) (bg : string)
    (patterns areas : list string) (likelihood : Q) (level : Z) : GuidanceCharacter :=
  {| name := nm; personality := p; background := bg;
     speech_patterns := patterns; expertise_areas := areas;
     response_likelihood := likelihood; professional_level := level;
     current_mood := "neutral"; tiredness_level := 0;
     last_spoke := None; spoke_count_session := 0 |}.

Definition _initialize_characters : list (string * GuidanceCharacter) :=
  [ ("dublin_control",
     new_character "Dublin Control" BORED_CONTROLLER
       "20-year veteran controller at Dublin, seen everything twice"
       ["Right then, {callsign}..."; "Copy that, {callsign}, been there before...";
        "Ah yes, {callsign}, another day another dollar...";
        "Sure thing, {callsign}, nothing new under the sun...";
        "Roger, {callsign}, same old same old...";
        "*sigh* Alright {callsign}, let's sort this out...";
        "Been doing this since before you were flying, {callsign}..."]
       ["traffic_management"; "conflict_resolution"; "airspace_procedures"]
       0.8 9);
    ("approach_control",
     new_character "Approach Control" HARRIED_CONTROLLER
       "Busy approach controller, multiple aircraft, efficient communication"
       ["Quick one, {callsign} -"; "{callsign}, expedite -"; "Rapid fire, {callsign} -";
        "Keep it moving, {callsign} -"; "No time to chat, {callsign} -";
        "{callsign}, immediately -"; "Speed it up, {callsign} -"]
       ["approach_procedures"; "sequencing"; "emergency_handling"]
       0.6 8);
    ("captain_murphy",
     new_character "Captain Murphy" VETERAN_PILOT
       "Retired Aer Lingus captain, 35 years commercial aviation"
       ["In my day, we'd handle that by..."; "Reminds me of a flight back in '87...";
        "Pro tip - watch out for..."; "I've seen this before, best to...";
        "Old pilot trick - when you see..."; "After 10,000 hours, you learn that...";
        "Back when I flew the 737..."]
       ["commercial_procedures"; "weather_flying"; "emergency_procedures"]
       0.4 10);
    ("sarah_spotter",
     new_character "Sarah (Aviation Enthusiast)" ENTHUSIAST_SPOTTER
       "Aircraft spotter and aviation YouTuber"
       ["Oh wow, look at that!"; "Did you know that aircraft type...";
        "That's a rare sight -"; "Perfect example of..."; "I love seeing...";
        "Fun fact about that..."; "My subscribers would love this..."]
       ["aircraft_recognition"; "aviation_trivia"; "spotting_locations"]
       0.3 6) ].

Definition new_context : GuidanceContext :=
  {| aircraft_callsign := "unknown"; flight_phase := "unknown";
     complexity_level := 1; traffic_density := 0;
     weather_conditions := "clear"; emergency_situation := false;
     active_characters := []; conversation_flow := [];
     dominant_character := None |}.

(** [FlightGuidanceCharacterSystem()]: the constructor reads the clock once. *)
Definition __init__ (env : Env) : World :=
  {| self := {| characters := _initialize_characters;
                guidance_context := new_context;
                last_guidance_time := clock env O;
                guidance_cooldown_seconds := 3;
                max_active_characters := 2;
                character_rotation_minutes := 15 |};
     ticks := 1; draws := 0; sent := [] |}.

(** ** Assignments to attributes *)

Definition set_guidance_context (ctx : GuidanceContext)
    (s : FlightGuidanceCharacterSystem) : FlightGuidanceCharacterSystem :=
  {| characters := characters s; guidance_context := ctx;
     last_guidance_time := last_guidance_time s;
     guidance_cooldown_seconds := guidance_cooldown_seconds s;
     max_active_characters := max_active_characters s;
     character_rotation_minutes := character_rotation_minutes s |}.

Definition set_last_guidance_time (t : Z)
    (s : FlightGuidanceCharacterSystem) : FlightGuidanceCharacterSystem :=
  {| characters := characters s; guidance_context := guidance_context s;
     last_guidance_time := t;
     guidance_cooldown_seconds := guidance_cooldown_seconds s;
     max_active_characters := max_active_characters s;
     character_rotation_minutes := character_rotation_minutes s |}.

Definition set_characters (cs : list (string * GuidanceCharacter))
    (s : FlightGuidanceCharacterSystem) : FlightGuidanceCharacterSystem :=
  {| characters := cs; guidance_context := guidance_context s;
     last_guidance_time := last_guidance_time s;
     guidance_cooldown_seconds := guidance_cooldown_seconds s;
     max_active_characters := max_active_characters s;
     character_rotation_minutes := character_rotation_minutes s |}.

(** [character.last_spoke = t; character.spoke_count_session += 1] *)
Definition has_spoken (t : Z) (c : GuidanceCharacter) : GuidanceCharacter :=
  {| name := name c; personality := personality c; background := background c;
     speech_patterns := speech_patterns c; expertise_areas := expertise_areas c;
     response_likelihood := response_likelihood c;
     professional_level := professional_level c;
     current_mood := current_mood c; tiredness_level := tiredness_level c;
     last_spoke := Some t; spoke_count_session := spoke_count_session c + 1 |}.

(** The object stored under [key] is mutated in place. *)
Fixpoint mutate (key : string) (f : GuidanceCharacter -> GuidanceCharacter)
    (d : list (string * GuidanceCharacter)) : list (string * GuidanceCharacter) :=
  match d with
  | [] => []
  | (k, c) :: d' =>
      if String.eqb key k then (k, f c) :: d' else (k, c) :: mutate key f d'
  end.

(** [conversation_flow.append(entry)] *)
Definition append_flow (entry : FlowEntry) (ctx : GuidanceContext) : GuidanceContext :=
  {| aircraft_callsign := aircraft_callsign ctx; flight_phase := flight_phase ctx;
     complexity_level := complexity_level ctx; traffic_density := traffic_density ctx;
     weather_conditions := weather_conditions ctx;
     emergency_situation := emergency_situation ctx;
     active_characters := active_characters ctx;
     conversation_flow := (conversation_flow ctx ++ [entry])%list;
     dominant_character := dominant_character ctx |}.

(** ** flight_guidance_character.py: the methods *)

Definition update_context (flight_data : FlightData) (ctx : GuidanceContext)
  : GuidanceContext :=
  let traffic := get (fd_traffic_count flight_data) 0 in
  let emergency := get (fd_emergency flight_data) false in
  let complexity := 1 in
  let complexity := complexity + Z.min (traffic / 2) 3 in
  let complexity := if emergency then complexity + 4 else complexity in
  let complexity :=
    if 5 <? get (fd_weather_severity flight_data) 0 then complexity + 2
    else complexity in
  {| aircraft_callsign := get (fd_callsign flight_data) "unknown aircraft";
     flight_phase := get (fd_phase flight_data) "unknown";
     complexity_level := Z.min complexity 10;
     traffic_density := traffic;
     weather_conditions := get (fd_weather flight_data) "clear";
     emergency_situation := emergency;
     active_characters := active_characters ctx;
     conversation_flow := conversation_flow ctx;
     dominant_character := dominant_character ctx |}.

Definition _update_guidance_context (flight_data : FlightData) : M unit :=
  modify_self (fun s => set_guidance_context
                          (update_context flight_data (guidance_context s)) s).

Definition mem (x : string) (l : list string) : bool :=
  existsb (String.eqb x) l.

Definition _analyze_situation (ctx : GuidanceContext) (flight_data : FlightData)
  : SituationAnalysis :=
  let busy := 3 <? traffic_density ctx in
  let phase := get (fd_phase flight_data) "" in
  let aircraft_type := get (fd_aircraft_type flight_data) "" in
  let rare := negb (String.eqb aircraft_type "")
              && negb (mem aircraft_type ["B737"; "A320"; "B777"]) in
  {| situation_type := if busy then "traffic_advisory" else "routine";
     urgency_level := if busy then Z.max 3 1 else 1;
     requires_technical_guidance := busy;
     traffic_concerns := if busy then ["Multiple aircraft in vicinity"] else [];
     weather_concerns := [];
     educational_opportunities :=
       ((if mem phase ["takeoff"; "landing"] then ["critical_phase_procedures"]
         else if String.eqb phase "cruise" then ["navigation_efficiency"]
         else [])
        ++ (if 30000 <? get (fd_altitude flight_data) 0
            then ["high_altitude_operations"] else [])
        ++ (if rare then ["aircraft_recognition"] else []))%list;
     character_preferences :=
       ((if busy then ["dublin_control"; "approach_control"] else [])
        ++ (if mem phase ["takeoff"; "landing"]
            then ["captain_murphy"; "approach_control"]
            else if String.eqb phase "cruise"
                 then ["captain_murphy"; "sarah_spotter"]
                 else [])
        ++ (if rare then ["sarah_spotter"] else []))%list |}.

Definition _should_provide_guidance : M bool :=
  now <- datetime_now ;;
  s <- get_self ;;
  let elapsed := total_seconds (now - last_guidance_time s) in
  if Qltb elapsed (guidance_cooldown_seconds s) then ret false
  else
    let base_cooldown := guidance_cooldown_seconds s in
    let complexity_factor := Z.max 1 (11 - complexity_level (guidance_context s)) in
    let effective_cooldown := (base_cooldown * inject_Z complexity_factor)%Q in
    if Qltb elapsed effective_cooldown then ret false
    else if emergency_situation (guidance_context s) then ret true
    else
      let base_probability := 0.3%Q in
      let complexity_bonus :=
        (inject_Z (complexity_level (guidance_context s)) * 0.05)%Q in
      let final_probability := Qmin2 (base_probability + complexity_bonus)%Q 0.8%Q in
      r <- random_random ;;
      ret (Qltb r final_probability).

(** The loop that builds [available_characters]. *)
Fixpoint available_characters (now : Z) (items : list (string * GuidanceCharacter))
  : M (list string) :=
  match items with
  | [] => ret []
  | (char_name, character) :: items' =>
      let resting :=
        match last_spoke character with
        | Some t =>
            let minutes_since_spoke := (total_seconds (now - t) / 60)%Q in
            Qltb minutes_since_spoke 5
        | None => false
        end in
      if resting then available_characters now items'
      else
        r <- random_random ;;
        if Qltb (response_likelihood character) r
        then available_characters now items'
        else
          rest <- available_characters now items' ;;
          ret (char_name :: rest)
  end.

(** The end of [_select_responding_characters], from the comment
    "Normal selection - usually just one character" on. *)
Definition normal_selection (situation_analysis : SituationAnalysis)
    (preferred_characters : list string) : M (list string) :=
  first <- random_choice preferred_characters ;;
  if String.eqb (situation_type situation_analysis) "routine"
     && (1 <? Z.of_nat (List.length preferred_characters))
  then
    r <- random_random ;;
    if Qltb r 0.2 then
      second_char <-
        random_choice
          (filter (fun c => negb (String.eqb c first)) preferred_characters) ;;
      ret [first; second_char]
    else ret [first]
  else ret [first].

(** The candidates after the preferences of the situation are applied. *)
Definition prefer (available preferences : list string) : list string :=
  match filter (fun char_name => mem char_name available) preferences with
  | [] => available
  | preferred => preferred
  end.

Definition _select_responding_characters (situation_analysis : SituationAnalysis)
  : M (list string) :=
  now <- datetime_now ;;
  s <- get_self ;;
  available <- available_characters now (characters s) ;;
  match available with
  | [] => ret []
  | _ =>
      let preferred_characters :=
        prefer available (character_preferences situation_analysis) in
      let urgency := urgency_level situation_analysis in
      if 7 <=? urgency then
        professional_chars <-
          lift (comprehension_if
                  (fun c => let? ch := getitem (characters s) c in
                            Ok (8 <=? professional_level ch))
                  preferred_characters) ;;
        match professional_chars with
        | [] => normal_selection situation_analysis preferred_characters
        | _ => c <- random_choice professional_chars ;; ret [c]
        end
      else normal_selection situation_analysis preferred_characters
  end.

(** The [templates] dict of [_generate_template_guidance]; a personality
    without an entry falls back on the bored controller's. *)
Definition templates (callsign : string) (p : GuidancePersonality) : list string :=
  let bored :=
    ["Right then " ++ callsign ++ ", traffic observed, suggest maintaining current altitude.";
     callsign ++ ", been watching that traffic, no immediate concerns.";
     "Copy " ++ callsign ++ ", standard procedures apply here.";
     "*sigh* " ++ callsign ++ ", nothing I haven't seen before."] in
  match p with
  | BORED_CONTROLLER => bored
  | HARRIED_CONTROLLER =>
      [callsign ++ ", traffic advisory, maintain separation.";
       "Quick one " ++ callsign ++ " - traffic twelve o'clock, monitor.";
       callsign ++ ", expedite climb if able.";
       "Keep it moving " ++ callsign ++ ", busy airspace today."]
  | VETERAN_PILOT =>
      ["In my experience " ++ callsign ++ ", watch that traffic pattern.";
       callsign ++ ", old pilot trick - keep your head on a swivel.";
       "Reminds me of a flight I had " ++ callsign ++ ", stay alert.";
       "Pro tip " ++ callsign ++ " - this altitude works well for this route."]
  | ENTHUSIAST_SPOTTER =>
      ["Oh wow " ++ callsign ++ ", great view of that traffic!";
       callsign ++ ", perfect example of traffic management!";
       "Look at that " ++ callsign ++ ", textbook flying!";
       "Fun fact " ++ callsign ++ " - this is a busy corridor!"]
  | NERVOUS_STUDENT | SAFETY_OFFICER => bored
  end.

Definition _generate_template_guidance (character : GuidanceCharacter)
    (situation_analysis : SituationAnalysis) (flight_data : FlightData) : M string :=
  s <- get_self ;;
  let callsign := aircraft_callsign (guidance_context s) in
  guidance <- random_choice (templates callsign (personality character)) ;;
  match personality character with
  | BORED_CONTROLLER =>
      r <- random_random ;;
      if Qltb r 0.3 then
        sigh <- random_choice ["*sigh*"; "Right then,"; "Ah,"; "Well,"] ;;
        ret (sigh ++ " " ++ guidance)
      else ret guidance
  | HARRIED_CONTROLLER =>
      ret (Py.replace " very" "" (Py.replace " really" "" (Py.replace "please" "" guidance)))
  | _ => ret guidance
  end.

Definition _generate_character_guidance (character_name : string)
    (situation_analysis : SituationAnalysis) (flight_data : FlightData) : M string :=
  s <- get_self ;;
  character <- lift (getitem (characters s) character_name) ;;
  _generate_template_guidance character situation_analysis flight_data.

Definition _output_guidance (character_name guidance : string) : M unit :=
  t <- datetime_now ;;
  call_guidance_callbacks
    {| em_character := character_name; em_message := guidance; em_time := t |} ;;
  modify_self (set_last_guidance_time t).

(** Truth value of a [str]. *)
Definition truthy (s : string) : bool := negb (String.eqb s "").

(** The body of the loop of [process_flight_situation], run for each
    responding character in turn. *)
Fixpoint speak_in_turn (total : nat) (situation_analysis : SituationAnalysis)
    (flight_data : FlightData) (responding : list string) : M unit :=
  match responding with
  | [] => ret tt
  | character_name :: others =>
      guidance <- _generate_character_guidance character_name situation_analysis
                    flight_data ;;
      (if truthy guidance then
         _output_guidance character_name guidance ;;
         s <- get_self ;;
         _ <- lift (getitem (characters s) character_name) ;;
         spoke <- datetime_now ;;
         modify_self (fun s => set_characters
                                 (mutate character_name (has_spoken spoke) (characters s)) s) ;;
         stamp <- datetime_now ;;
         modify_self (fun s => set_guidance_context
                                 (append_flow
                                    {| timestamp := stamp; character := character_name;
                                       message := guidance;
                                       situation := situation_type situation_analysis |}
                                    (guidance_context s)) s) ;;
         (if (1 <? total)%nat then asyncio_sleep 2 else ret tt)
       else ret tt) ;;
      speak_in_turn total situation_analysis flight_data others
  end.

Definition process_flight_situation (flight_data : FlightData) : M unit :=
  _update_guidance_context flight_data ;;
  go <- _should_provide_guidance ;;
  if negb go then ret tt
  else
    s <- get_self ;;
    let situation_analysis := _analyze_situation (guidance_context s) flight_data in
    responding_characters <- _select_responding_characters situation_analysis ;;
    speak_in_turn (List.length responding_characters) situation_analysis flight_data
      responding_characters.

Definition emergency_templates (callsign : string) : list (string * list string) :=
  [ ("dublin_control",
     [callsign ++ ", understand emergency. State intentions, assistance available.";
      callsign ++ ", roger emergency. Clearing airspace, priority handling.";
      callsign ++ ", emergency services alerted. Proceed as required."]);
    ("approach_control",
     [callsign ++ ", emergency acknowledged. Immediate vectors available.";
      callsign ++ ", priority approach cleared. Emergency equipment standing by.";
      callsign ++ ", understand emergency. Runway available, cleared immediate."]);
    ("captain_murphy",
     [callsign ++ ", stay calm. Run your emergency checklist first.";
      callsign ++ ", been through this before. Follow procedures, you'll be fine.";
      callsign ++ ", emergency training kicks in now. Trust your procedures."]) ].

Definition _generate_emergency_guidance (character_name : string) : M string :=
  s <- get_self ;;
  _ <- lift (getitem (characters s) character_name) ;;
  let callsign := aircraft_callsign (guidance_context s) in
  fallback <- lift (getitem (emergency_templates callsign) "dublin_control") ;;
  random_choice (get (dict_get (emergency_templates callsign) character_name) fallback).

(** [emergency_situation = True; complexity_level = 10] *)
Definition declare_emergency (ctx : GuidanceContext) : GuidanceContext :=
  {| aircraft_callsign := aircraft_callsign ctx; flight_phase := flight_phase ctx;
     complexity_level := 10; traffic_density := traffic_density ctx;
     weather_conditions := weather_conditions ctx;
     emergency_situation := true;
     active_characters := active_characters ctx;
     conversation_flow := conversation_flow ctx;
     dominant_character := dominant_character ctx |}.

Definition handle_emergency_situation : M unit :=
  modify_self (fun s => set_guidance_context (declare_emergency (guidance_context s)) s) ;;
  s <- get_self ;;
  let professional_chars :=
    map fst (filter (fun item => 8 <=? professional_level (snd item)) (characters s)) in
  match professional_chars with
  | [] => ret tt
  | selected_char :: _ =>
      emergency_guidance <- _generate_emergency_guidance selected_char ;;
      if truthy emergency_guidance
      then _output_guidance selected_char emergency_guidance
      else ret tt
  end.

Definition force_character_guidance (character_name : string)
    (situation_override : option string) : M (option string) :=
  s <- get_self ;;
  match dict_get (characters s) character_name with
  | None => ret None
  | Some _ =>
      let mock_situation :=
        {| situation_type :=
             match situation_override with
             | Some t => if truthy t then t else "routine"
             | None => "routine"
             end;
           urgency_level := 3;
           requires_technical_guidance := false;
           traffic_concerns := [];
           weather_concerns := [];
           educational_opportunities := ["general_guidance"];
           character_preferences := [character_name] |} in
      let mock_flight_data :=
        {| fd_callsign := Some (aircraft_callsign (guidance_context s));
           fd_phase := Some (flight_phase (guidance_context s));
           fd_traffic_count := None; fd_weather := None; fd_emergency := None;
           fd_weather_severity := None; fd_altitude := Some 25000;
           fd_aircraft_type := None |} in
      guidance <- _generate_character_guidance character_name mock_situation
                    mock_flight_data ;;
      (if truthy guidance then _output_guidance character_name guidance else ret tt) ;;
      ret (Some guidance)
  end.

(** A session: the calls of [process_flight_situation] made one after the
    other.  An exception that escapes a call is the caller's to handle and
    leaves the system as the call left it. *)
Fixpoint run_cycles (snapshots : list FlightData) (env : Env) (w : World) : World :=
  match snapshots with
  | [] => w
  | flight_data :: later =>
      run_cycles later env (snd (process_flight_situation flight_data env w))
  end.

(** ** aviation_pronunciation.py: wind reports *)

(** [try: body except ValueError: handler]: any other exception goes on. *)
Definition except_ValueError {A} (body : result A) (handler : A) : result A :=
  match body with
  | Ok a => Ok a
  | Raise ValueError => Ok handler
  | Raise e => Raise e
  end.

(** The part of [pronounce_wind] that speaks a speed (the wind speed and
    the gusts are parsed by the same lines): the [try] holds the call of
    [int] only, the [else] branch calls [pronounce_speed]. *)
Definition wind_speed_pronunciation (speed : int_or_str) : result string :=
  match speed with
  | PyStr s =>
      match Py.int (Py.strip (Py.replace "knots" "" (Py.replace "kts" "" s))) with
      | Raise ValueError => Ok s
      | Raise e => Raise e
      | Ok n => pronounce_speed (PyInt n) "knots"
      end
  | PyInt n => pronounce_speed (PyInt n) "knots"
  end.

Definition pronounce_wind (direction speed : int_or_str) (gusts : option int_or_str)
  : result string :=
  let? direction_pronunciation :=
    match direction with
    | PyStr s =>
        if mem (Py.lower s) ["vrb"; "variable"] then Ok "variable"
        else
          except_ValueError
            (let? n := Py.int (Py.strip (Py.replace degree_sign "" s)) in
             pronounce_heading (PyInt n))
            s
    | PyInt n => pronounce_heading (PyInt n)
    end in
  let? speed_pronunciation := wind_speed_pronunciation speed in
  let wind_report :=
    "Wind " ++ direction_pronunciation ++ " at " ++ speed_pronunciation in
  match gusts with
  | Some gusts =>
      let? gusts_pronunciation := wind_speed_pronunciation gusts in
      Ok (wind_report ++ ", gusting " ++ gusts_pronunciation)
  | None => Ok wind_report
  end.

(** ** aviation_pronunciation.py: traffic calls *)

(** [int(round(x))] for a float that is a number: halves go to the even
    neighbour.  The float is the rational it stands for. *)
Definition round_half_even (x : Q) : Z :=
  let n := Qnum x in
  let d := Z.pos (Qden x) in
  let below := n / d in
  let twice := 2 * (n mod d) in
  if twice <? d then below
  else if d <? twice then below + 1
  else if Z.even below then below else below + 1.

Inductive part_type : Type :=
| letter
| digit.

(** The variables of the loop over the characters of a mixed callsign;
    [current_type] is [None] for Python's [None]. *)
Record Segmenter : Type := {
  callsign_parts : list string;
  current_part : string;
  current_type : option part_type
}.

(** [' '.join([AVIATION_NUMBERS[d] for d in current_part])] *)
Definition speak_digits (part : string) : result string :=
  let? digits := digit_words part in
  Ok (Py.join " " digits).

Definition is_letter (t : option part_type) : bool :=
  match t with
  | Some letter => true
  | _ => false
  end.

Definition is_digit (t : option part_type) : bool :=
  match t with
  | Some digit => true
  | _ => false
  end.

(** What is appended for a finished part: letters are spelled, anything
    else is read as digits. *)
Definition speak_part (st : Segmenter) : result string :=
  if is_letter (current_type st) then pronounce_icao_code (current_part st)
  else speak_digits (current_part st).

(** One turn of the loop [for char in callsign.upper()]. *)
Definition segment_char (st : Segmenter) (char : ascii) : result Segmenter :=
  if Ascii.eqb char "-" || Ascii.eqb char " " then
    if truthy (current_part st) then
      let? spoken := speak_part st in
      Ok {| callsign_parts := (callsign_parts st ++ [spoken])%list;
            current_part := "";
            current_type := None |}
    else Ok st
  else if Py.isalpha_char char then
    let? st' :=
      if is_digit (current_type st) && truthy (current_part st) then
        let? spoken := speak_digits (current_part st) in
        Ok {| callsign_parts := (callsign_parts st ++ [spoken])%list;
              current_part := "";
              current_type := current_type st |}
      else Ok st in
    Ok {| callsign_parts := callsign_parts st';
          current_part := current_part st' ++ String char "";
          current_type := Some letter |}
  else if Py.isdigit_char char then
    let? st' :=
      if is_letter (current_type st) && truthy (current_part st) then
        let? spoken := pronounce_icao_code (current_part st) in
        Ok {| callsign_parts := (callsign_parts st ++ [spoken])%list;
              current_part := "";
              current_type := current_type st |}
      else Ok st in
    Ok {| callsign_parts := callsign_parts st';
          current_part := current_part st' ++ String char "";
          current_type := Some digit |}
  else Ok st.

Fixpoint segment (st : Segmenter) (s : string) : result Segmenter :=
  match s with
  | EmptyString => Ok st
  | String char s' =>
      let? st' := segment_char st char in
      segment st' s'
  end.

(** The branch of [format_traffic_call] for a callsign of letters and
    digits. *)
Definition pronounce_mixed_callsign (callsign : string) : result string :=
  let? st := segment {| callsign_parts := []; current_part := "";
                        current_type := None |} (Py.upper callsign) in
  let? parts :=
    if truthy (current_part st) then
      let? spoken := speak_part st in
      Ok (callsign_parts st ++ [spoken])%list
    else Ok (callsign_parts st) in
  Ok (Py.join " " parts).

Definition format_traffic_call (callsign aircraft_type : string) (distance : Q)
    (bearing altitude_diff : Z) : result string :=
  let? callsign_pronunciation :=
    if Py.isalpha callsign then pronounce_icao_code callsign
    else if Py.isalnum (Py.replace " " "" (Py.replace "-" "" callsign))
         then pronounce_mixed_callsign callsign
         else Ok callsign in
  let? distance_pronunciation :=
    if Qle_bool 1 distance then
      let distance_int := round_half_even distance in
      if distance_int <? 10 then getitem AVIATION_NUMBERS (Py.str distance_int)
      else
        let? distance_digits := digit_words (Py.str distance_int) in
        Ok (Py.join " " distance_digits)
    else Ok "Less than one" in
  let? bearing_pronunciation := pronounce_heading (PyInt bearing) in
  let? altitude_phrase :=
    if 500 <? altitude_diff then
      let? n := _pronounce_number_simple altitude_diff in
      Ok (n ++ " feet above")
    else if altitude_diff <? -500 then
      let? n := _pronounce_number_simple (Z.abs altitude_diff) in
      Ok (n ++ " feet below")
    else Ok "at similar altitude" in
  Ok ("Traffic, " ++ callsign_pronunciation ++ ", " ++ aircraft_type ++ ", "
      ++ distance_pronunciation ++ " nautical miles, "
      ++ bearing_pronunciation ++ " o'clock, " ++ altitude_phrase).

(** ** flight_guidance_character.py: the status query *)

(** [personality.value] *)
Definition personality_value (p : GuidancePersonality) : string :=
  match p with
  | BORED_CONTROLLER => "bored_controller"
  | HARRIED_CONTROLLER => "harried_controller"
  | VETERAN_PILOT => "veteran_pilot"
  | NERVOUS_STUDENT => "nervous_student"
  | ENTHUSIAST_SPOTTER => "enthusiast_spotter"
  | SAFETY_OFFICER => "safety_officer"
  end.

(** One value of [status['character_details']].  [detail_last_spoke] holds
    the time whose ISO text the code stores. *)
Record CharacterDetail : Type := {
  detail_personality : string;
  detail_professional_level : Z;
  detail_response_likelihood : Q;
  detail_session_messages : Z;
  detail_last_spoke : option Z;
  detail_current_mood : string;
  detail_expertise_areas : list string
}.

Record CharacterStatus : Type := {
  total_characters : Z;
  status_active_characters : list string;
  character_details : list (string * CharacterDetail);
  recent_activity : Z;
  system_status : string
}.

(** [is_active]: the character spoke less than 30 minutes ago. *)
Definition is_active (now : Z) (c : GuidanceCharacter) : bool :=
  match last_spoke c with
  | Some t => Qltb (total_seconds (now - t) / 60) 30
  | None => false
  end.

Definition detail_of (c : GuidanceCharacter) : CharacterDetail :=
  {| detail_personality := personality_value (personality c);
     detail_professional_level := professional_level c;
     detail_response_likelihood := response_likelihood c;
     detail_session_messages := spoke_count_session c;
     detail_last_spoke := last_spoke c;
     detail_current_mood := current_mood c;
     detail_expertise_areas := expertise_areas c |}.

Definition get_character_status : M CharacterStatus :=
  s <- get_self ;;
  now <- datetime_now ;;
  ret {| total_characters := Z.of_nat (List.length (characters s));
         status_active_characters :=
           map fst (filter (fun item => is_active now (snd item)) (characters s));
         character_details :=
           map (fun item => (fst item, detail_of (snd item))) (characters s);
         recent_activity :=
           Z.of_nat (List.length (conversation_flow (guidance_context s)));
         system_status := "operational" |}.

(** ** main.py: the simulated flight and the commentary engine *)

(** [l[i]] on a list: a negative index counts from the end. *)
Definition list_getitem {A} (l : list A) (i : Z) : result A :=
  let n := Z.of_nat (List.length l) in
  let j := if i <? 0 then n + i else i in
  if (0 <=? j) && (j <? n) then
    match nth_error l (Z.to_nat j) with
    | Some x => Ok x
    | None => Raise IndexError
    end
  else Raise IndexError.

Definition flight_phases : list string :=
  ["ground"; "taxi"; "takeoff"; "climb"; "cruise"; "descent"; "approach"; "landing"].

Definition phase_durations : list (string * Z) :=
  [("ground", 30); ("taxi", 60); ("takeoff", 10); ("climb", 120);
   ("cruise", 300); ("descent", 120); ("approach", 60); ("landing", 10)].

(** The local variables of [_simulate_flight_loop] that live across
    iterations. *)
Record Flight : Type := {
  current_phase_idx : Z;
  altitude : Z;
  speed : Z;
  phase_start_time : Z
}.

(** The state before the first iteration; [now] is the reading of the
    clock that [phase_start_time] gets. *)
Definition takeoff_roll (now : Z) : Flight :=
  {| current_phase_idx := 0; altitude := 0; speed := 0; phase_start_time := now |}.

(** "Update flight parameters based on phase" *)
Definition update_parameters (current_phase : string) (altitude speed : Z) : Z * Z :=
  if String.eqb current_phase "ground" then (0, 0)
  else if String.eqb current_phase "taxi" then (0, 15)
  else if String.eqb current_phase "takeoff"
       then (Z.min 1000 (altitude + 100), Z.min 150 (speed + 10))
  else if String.eqb current_phase "climb"
       then (Z.min 35000 (altitude + 200), Z.min 400 (speed + 5))
  else if String.eqb current_phase "cruise" then (35000, 450)
  else if String.eqb current_phase "descent"
       then (Z.max 3000 (altitude - 200), Z.max 250 (speed - 5))
  else if String.eqb current_phase "approach"
       then (Z.max 1000 (altitude - 100), Z.max 150 (speed - 10))
  else if String.eqb current_phase "landing"
       then (Z.max 0 (altitude - 100), Z.max 0 (speed - 15))
  else (altitude, speed).

(** One iteration of the loop at time [current_time]: the snapshot handed
    to the data callbacks and the state for the next iteration.  Of the
    keys of the snapshot the record keeps those that the guidance system
    reads (the time stamp, the speed, the heading and the position are not
    among them).  An exception is caught by the loop, which then gives no
    snapshot and keeps its variables. *)
Definition simulate_iteration (current_time : Z) (f : Flight)
  : option FlightData * Flight :=
  match list_getitem flight_phases (current_phase_idx f) with
  | Raise _ => (None, f)
  | Ok current_phase =>
      let '(altitude, speed) := update_parameters current_phase (altitude f) (speed f) in
      let flight_data :=
        {| fd_callsign := Some "EI-SIM";
           fd_phase := Some current_phase;
           fd_traffic_count := Some (current_phase_idx f mod 4);
           fd_weather := Some "clear";
           fd_emergency := Some false;
           fd_weather_severity := None;
           fd_altitude := Some altitude;
           fd_aircraft_type := Some "B737" |} in
      let elapsed := total_seconds (current_time - phase_start_time f) in
      let next :=
        if Qle_bool (inject_Z (get (dict_get phase_durations current_phase) 60)) elapsed
        then
          if current_phase_idx f <? Z.of_nat (List.length flight_phases) - 1
          then {| current_phase_idx := current_phase_idx f + 1;
                  altitude := altitude; speed := speed;
                  phase_start_time := current_time |}
          else {| current_phase_idx := 0; altitude := 0; speed := 0;
                  phase_start_time := current_time |}
        else {| current_phase_idx := current_phase_idx f;
                altitude := altitude; speed := speed;
                phase_start_time := phase_start_time f |} in
      (Some flight_data, next)
  end.

(** The iterations made at the given times, one after the other: the
    snapshots in order and the final state. *)
Fixpoint simulate (times : list Z) (f : Flight) : list (option FlightData) * Flight :=
  match times with
  | [] => ([], f)
  | current_time :: later =>
      let '(snapshot, f') := simulate_iteration current_time f in
      let '(snapshots, f'') := simulate later f' in
      (snapshot :: snapshots, f'')
  end.

(** [CommentaryEngine.process_flight_data].  The engine registers
    [_on_guidance_generated] as the guidance callback; it wraps the message
    and hands it on, which the model records as the emission.  Its own
    reading of the clock is left out: the guidance system then sees a
    subsequence of the readings, which is again a clock of [Env]. *)
Definition process_flight_data (guidance_enabled : bool) (flight_data : FlightData)
  : M unit :=
  if negb guidance_enabled then ret tt
  else process_flight_situation flight_data.

(** * Vocabulary of the properties *)

Definition number_words : list string := map snd AVIATION_NUMBERS.

(** The digits that [Py.str] writes read back as the number, so the rounds
    that [Py.str_nat] allows are enough. *)
Fixpoint value_of (acc : Z) (s : string) : Z :=
  match s with
  | EmptyString => acc
  | String c s' => value_of (10 * acc + Py.digit_value c) s'
  end.

(** A string that opens with one of the ten digit words. *)
Definition starts_with_word (s : string) : Prop :=
  exists w rest, In w number_words /\ s = w ++ rest.

(** A character rests while fewer than five minutes (300 000 000
    microseconds) have passed since it spoke. *)
Definition five_minutes : Z := 300000000.

(** Seconds since [last_guidance_time] at the next reading of the clock. *)
Definition elapsed_seconds (env : Env) (w : World) : Q :=
  total_seconds (clock env (ticks w) - last_guidance_time (self w)).

Definition effective_cooldown (s : FlightGuidanceCharacterSystem) : Q :=
  guidance_cooldown_seconds s
  * inject_Z (Z.max 1 (11 - complexity_level (guidance_context s))).

Definition final_probability (s : FlightGuidanceCharacterSystem) : Q :=
  Qmin2 (0.3 + inject_Z (complexity_level (guidance_context s)) * 0.05) 0.8.

(** The value of the next [random.random()]. *)
Definition next_random (env : Env) (w : World) : Q :=
  Qmake (entropy env (draws w) mod 2 ^ 53) (2 ^ 53)%positive.

(** Ten minutes pass between two readings of the clock; every draw is the
    lowest one. *)
Definition env_lucky : Env :=
  {| clock := fun k => 600000000 * Z.of_nat k; entropy := fun _ => 0 |}.

(** The same clock; every draw is the highest one. *)
Definition env_unlucky : Env :=
  {| clock := fun k => 600000000 * Z.of_nat k; entropy := fun _ => 2 ^ 53 - 1 |}.

(** A step that only draws from the random source. *)
Definition only_draws (w w' : World) : Prop :=
  self w' = self w /\ ticks w' = ticks w /\ sent w' = sent w.

(** A character may be picked at time [now]: it never spoke, or it spoke
    at least five minutes earlier. *)
Definition rested (now : Z) (c : GuidanceCharacter) : Prop :=
  forall t, last_spoke c = Some t -> t + five_minutes <= now.

(** The world in which the selector makes its draws: the clock has been
    read once. *)
Definition after_tick (w : World) : World :=
  {| self := self w; ticks := S (ticks w); draws := draws w; sent := sent w |}.

(** The characters that pass the filter of the selector in world [w]. *)
Definition eligible (env : Env) (w : World) : list string :=
  match fst (available_characters (clock env (ticks w)) (characters (self w)) env
               (after_tick w)) with
  | Ok available => available
  | Raise _ => []
  end.

Definition urgent_analysis : SituationAnalysis :=
  {| situation_type := "traffic_advisory"; urgency_level := 9;
     requires_technical_guidance := true; traffic_concerns := [];
     weather_concerns := []; educational_opportunities := [];
     character_preferences := ["sarah_spotter"; "approach_control"] |}.

(** The world after the body of [if guidance:] has run for
    [character_name]: three readings of the clock, one emission, one
    character updated, one entry appended to the history. *)
Definition spoken (env : Env) (character_name guidance situation_name : string)
    (w : World) : World :=
  let t := clock env (ticks w) in
  let spoke := clock env (S (ticks w)) in
  let stamp := clock env (S (S (ticks w))) in
  {| self :=
       set_guidance_context
         (append_flow {| timestamp := stamp; character := character_name;
                         message := guidance; situation := situation_name |}
            (guidance_context (self w)))
         (set_characters
            (mutate character_name (has_spoken spoke) (characters (self w)))
            (set_last_guidance_time t (self w)));
     ticks := S (S (S (ticks w)));
     draws := draws w;
     sent := (sent w ++ [{| em_character := character_name; em_message := guidance;
                            em_time := t |}])%list |}.

(** The loop as a relation between the world before and the world after:
    it stops (at the end of the list or on an exception), or the next
    character stays silent, or the next character speaks. *)
Inductive turns (env : Env) (situation_name : string)
  : list string -> World -> World -> Prop :=
| turns_stop responding w w' :
    only_draws w w' -> turns env situation_name responding w w'
| turns_silent character_name others w w1 w' :
    only_draws w w1 ->
    turns env situation_name others w1 w' ->
    turns env situation_name (character_name :: others) w w'
| turns_speak character_name guidance ch others w w1 w' :
    only_draws w w1 ->
    dict_get (characters (self w)) character_name = Some ch ->
    turns env situation_name others
      (spoken env character_name guidance situation_name w1) w' ->
    turns env situation_name (character_name :: others) w w'.

Inductive subseq {A : Type} : list A -> list A -> Prop :=
| subseq_nil l : subseq [] l
| subseq_skip x l1 l2 : subseq l1 l2 -> subseq l1 (x :: l2)
| subseq_take x l1 l2 : subseq l1 l2 -> subseq (x :: l1) (x :: l2).

Definition heard (e : Emission) : string * string := (em_character e, em_message e).

Definition recorded (f : FlowEntry) : string * string := (character f, message f).

Definition history (w : World) : list FlowEntry :=
  conversation_flow (guidance_context (self w)).

(** From [w] to [w'] the emissions [new] were sent, one history entry was
    appended for each, and nothing else happened to either list. *)
Definition adds (responding : list string) (w w' : World) : Prop :=
  exists new entries,
    sent w' = (sent w ++ new)%list
    /\ history w' = (history w ++ entries)%list
    /\ map heard new = map recorded entries
    /\ subseq (map em_character new) responding.

Definition emergency_cruise : FlightData :=
  {| fd_callsign := Some "EI-XYZ"; fd_phase := Some "cruise";
     fd_traffic_count := None; fd_weather := None; fd_emergency := Some true;
     fd_weather_severity := None; fd_altitude := Some 35000;
     fd_aircraft_type := Some "B737" |}.

Definition cessna_cruise : FlightData :=
  {| fd_callsign := Some "EI-XYZ"; fd_phase := Some "cruise";
     fd_traffic_count := None; fd_weather := None; fd_emergency := None;
     fd_weather_severity := None; fd_altitude := Some 5000;
     fd_aircraft_type := Some "C172" |}.

(** The gate draws low; the three characters before Sarah draw above their
    response likelihood; Sarah and the later draws are low. *)
Definition env_only_sarah : Env :=
  {| clock := fun k => 600000000 * Z.of_nat k;
     entropy := fun k => if ((1 <=? k) && (k <=? 3))%nat then 2 ^ 53 - 1 else 0 |}.

(** The clock never goes back. *)
Definition monotone (clk : nat -> Z) : Prop :=
  forall i j, (i <= j)%nat -> clk i <= clk j.

(** Any two emissions of one character are five minutes apart. *)
Definition spaced (l : list Emission) : Prop :=
  forall l1 e1 l2 e2 l3,
    l = (l1 ++ e1 :: l2 ++ e2 :: l3)%list ->
    em_character e1 = em_character e2 ->
    em_time e1 + five_minutes <= em_time e2.

Record session_invariant (env : Env) (w : World) : Prop := {
  (** the registry is a dict: no key twice *)
  inv_keys : NoDup (map fst (characters (self w)));
  (** [last_spoke] lies in the past *)
  inv_past : forall c ch t,
      In (c, ch) (characters (self w)) -> last_spoke ch = Some t ->
      t <= clock env (ticks w);
  (** whoever was heard has a [last_spoke] that is not earlier *)
  inv_heard : forall e,
      In e (sent w) ->
      exists ch t, In (em_character e, ch) (characters (self w))
                   /\ last_spoke ch = Some t /\ em_time e <= t;
  inv_spaced : spaced (sent w)
}.

(** The next [skip] characters of [s], those of an occurrence that is
    being jumped over, hold no [c]. *)
Fixpoint jumps_no (c : ascii) (skip : nat) (s : string) : Prop :=
  match skip, s with
  | S k, String d s' => Ascii.eqb c d = false /\ jumps_no c k s'
  | _, _ => True
  end.

(** The calls that a user of the system can make. *)
Inductive request : Type :=
| Cycle (flight_data : FlightData)
| Emergency
| ForceSpeak (character_name : string) (situation_override : option string)
| Status.

Definition serve (r : request) (env : Env) (w : World) : World :=
  match r with
  | Cycle flight_data => snd (process_flight_situation flight_data env w)
  | Emergency => snd (handle_emergency_situation env w)
  | ForceSpeak character_name situation_override =>
      snd (force_character_guidance character_name situation_override env w)
  | Status => snd (get_character_status env w)
  end.

(** A session in which the entry points are called in any order. *)
Fixpoint run_session (requests : list request) (env : Env) (w : World) : World :=
  match requests with
  | [] => w
  | r :: later => run_session later env (serve r env w)
  end.

(** What never changes in a character: everything but [last_spoke] and
    [spoke_count_session]. *)
Definition definition_of (c : GuidanceCharacter)
  : string * GuidancePersonality * string * list string * list string * Q * Z
    * string * Q :=
  (name c, personality c, background c, speech_patterns c, expertise_areas c,
   response_likelihood c, professional_level c, current_mood c, tiredness_level c).

Definition definitions (w : World)
  : list (string * (string * GuidancePersonality * string * list string
                    * list string * Q * Z * string * Q)) :=
  map (fun item => (fst item, definition_of (snd item))) (characters (self w)).

(** The number of history entries of a character. *)
Definition entries_of (character_name : string) (flow : list FlowEntry) : nat :=
  List.length (filter (fun f => String.eqb (character f) character_name) flow).

(** A step that leaves the registry, the time of the last guidance, the
    emissions and the history as they were. *)
Definition same_state (w w' : World) : Prop :=
  characters (self w') = characters (self w)
  /\ last_guidance_time (self w') = last_guidance_time (self w)
  /\ sent w' = sent w
  /\ history w' = history w.

(** A step that dispatches one message and does nothing else to the
    registry or the history. *)
Definition output_step (w w' : World) : Prop :=
  exists e,
    sent w' = (sent w ++ [e])%list
    /\ last_guidance_time (self w') = em_time e
    /\ characters (self w') = characters (self w)
    /\ history w' = history w.

(** [last_guidance_time] is the time of the latest emission, or the time of
    construction while nothing has been sent. *)
Definition latest (env : Env) (w : World) : Prop :=
  last_guidance_time (self w)
  = match rev (sent w) with
    | e :: _ => em_time e
    | [] => clock env O
    end.

Record tally (w : World) : Prop := {
  tally_keys : NoDup (map fst (characters (self w)));
  tally_count : forall c ch,
      In (c, ch) (characters (self w)) ->
      spoke_count_session ch = Z.of_nat (entries_of c (history w))
      /\ (last_spoke ch = None <-> entries_of c (history w) = O);
  tally_known : forall f,
      In f (history w) -> In (character f) (map fst (characters (self w)))
}.

Definition total (l : list nat) : nat := fold_right Nat.add O l.

(** The snapshot is busy, or it is not in cruise, or its aircraft type is
    absent or one of the common ones. *)
Definition no_duplicate_preference (flight_data : FlightData) : Prop :=
  3 < get (fd_traffic_count flight_data) 0
  \/ get (fd_phase flight_data) "" <> "cruise"
  \/ In (get (fd_aircraft_type flight_data) "") [""; "B737"; "A320"; "B777"].

(** The loop variables are within the limits of the flight. *)
Definition in_envelope (f : Flight) : Prop :=
  0 <= current_phase_idx f < 8
  /\ 0 <= altitude f <= 35000
  /\ 0 <= speed f <= 450.

(** [flight_data] is a snapshot that the loop builds in phase number [i]. *)
Definition snapshot_of_phase (i : Z) (flight_data : FlightData) : Prop :=
  0 <= i < 8
  /\ fd_phase flight_data = nth_error flight_phases (Z.to_nat i)
  /\ fd_traffic_count flight_data = Some (i mod 4)
  /\ fd_emergency flight_data = Some false
  /\ fd_aircraft_type flight_data = Some "B737"
  /\ fd_weather_severity flight_data = None
  /\ exists a, fd_altitude flight_data = Some a /\ 0 <= a <= 35000.

Definition simulated (snapshot : option FlightData) : Prop :=
  exists flight_data i, snapshot = Some flight_data /\ snapshot_of_phase i flight_data.

(** The phase after [i]: the next one, and the first one after the last. *)
Definition next_phase_idx (i : Z) : Z := if i <? 7 then i + 1 else 0.

Definition phase_of (snapshot : option FlightData) : string :=
  match snapshot with
  | Some flight_data => get (fd_phase flight_data) ""
  | None => ""
  end.

(** [q] may be the phase of the snapshot that follows one in phase [p]. *)
Definition succeeds (p q : string) : Prop :=
  p = q \/ In (p, q) (combine flight_phases (tl flight_phases ++ ["ground"])).

(** Every element of [l] but the last is related to the one after it. *)
Fixpoint chain {A} (R : A -> A -> Prop) (l : list A) : Prop :=
  match l with
  | a :: (b :: _) as rest => R a b /\ chain R rest
  | _ => True
  end.

Definition phase_name (i : Z) : string := nth (Z.to_nat i) flight_phases "".

(** The invariant of the loop over a callsign: a part of letters is ASCII,
    any other part is made of decimal digits. *)
Definition segmenter_ok (st : Segmenter) : Prop :=
  if is_letter (current_type st)
  then Py.all_chars Py.is_ascii (current_part st) = true
  else Py.all_chars Py.is_decimal_digit (current_part st) = true.

(** ** The grouped-feet rendering, in the words of the specification

    "Decompose into thousands/hundreds/remainder: thousands rendered as
    "One Thousand" for exactly 1, else digit-group + "Thousand"; hundreds
    rendered as digit + "Hundred" if nonzero; remainder rendered as a single
    digit word if <10, else digit-by-digit; parts joined by spaces, suffixed
    "feet"."  A part that is zero is not spoken (3500 is "Three Thousand
    Five Hundred feet").  The definitions below are written from these
    words and from arithmetic on the number, not from the code. *)

(** The word of one decimal digit in radiotelephony. *)
Definition digit_word (d : Z) : string :=
  match d with
  | 0 => "Zero" | 1 => "One" | 2 => "Two" | 3 => "Three" | 4 => "Four"
  | 5 => "Five" | 6 => "Six" | 7 => "Seven" | 8 => "Eight" | 9 => "Niner"
  | _ => ""
  end.

(** The decimal digits of [n >= 0], the most significant first; [fuel]
    further divisions by ten are allowed. *)
Fixpoint decimal_digits (fuel : nat) (n : Z) : list Z :=
  match fuel with
  | O => [n mod 10]
  | S fuel' =>
      if n <? 10 then [n] else (decimal_digits fuel' (n / 10) ++ [n mod 10])%list
  end.

(** A number spoken digit by digit. *)
Definition digit_by_digit (n : Z) : string :=
  Py.join " " (map digit_word (decimal_digits (Z.to_nat (Z.log2 n)) n)).

Definition spec_grouped_feet (a : Z) : string :=
  let thousands := a / 1000 in
  let hundreds := (a mod 1000) / 100 in
  let remainder := a mod 100 in
  let thousands_part :=
    if thousands =? 0 then []
    else if thousands =? 1 then ["One Thousand"]
         else [digit_by_digit thousands ++ " Thousand"] in
  let hundreds_part :=
    if hundreds =? 0 then [] else [digit_word hundreds ++ " Hundred"] in
  let remainder_part :=
    if remainder =? 0 then []
    else if remainder <? 10 then [digit_word remainder]
         else [digit_by_digit remainder] in
  Py.join " " (thousands_part ++ hundreds_part ++ remainder_part)%list ++ " feet".

(** * Properties *)

(** ** The pronunciation engine on concrete inputs *)

Example altitude_35000 :
  pronounce_altitude (PyInt 35000) = Ok "Flight Level Three Five Zero".
Proof. reflexivity. Qed.

Example altitude_1500 :
  pronounce_altitude (PyInt 1500) = Ok "One Thousand Five Hundred feet".
Proof. reflexivity. Qed.

Example altitude_18050 :
  pronounce_altitude (PyInt 18050) = Ok "One Eight Thousand Five Zero feet".
Proof. reflexivity. Qed.

Example altitude_str :
  pronounce_altitude (PyStr "1,500 ft") = Ok "One Thousand Five Hundred feet".
Proof. reflexivity. Qed.

Example altitude_unparsable : pronounce_altitude (PyStr "abc") = Ok "abc".
Proof. reflexivity. Qed.

Example speed_250 : pronounce_speed (PyInt 250) "knots" = Ok "Two Five Zero knots".
Proof. reflexivity. Qed.

Example time_1430Z : pronounce_time "1430Z" = Ok "One Four Three Zero hours".
Proof. reflexivity. Qed.

Example time_colon : pronounce_time "2:30" = Ok "Zero Two Three Zero hours".
Proof. reflexivity. Qed.

Example time_unparsable : pronounce_time "half past two" = Ok "half past two".
Proof. reflexivity. Qed.

Example str_examples :
  Py.str 0 = "0" /\ Py.str 7 = "7" /\ Py.str 10 = "10" /\ Py.str 35000 = "35000"
  /\ Py.str (-5) = "-5" /\ Py.str 1234567890123 = "1234567890123".
Proof. repeat split; reflexivity. Qed.

Example replace_examples :
  Py.replace "UTC" "" "14UTC30UTC" = "1430"
  /\ Py.replace "aa" "b" "aaa" = "ba"
  /\ Py.replace "," "" "1,000,000" = "1000000".
Proof. repeat split; reflexivity. Qed.

Example split_examples :
  Py.split ":" "14:30" = ["14"; "30"] /\ Py.split ":" ":" = [""; ""]
  /\ Py.split ":" "1:2:3" = ["1"; "2"; "3"].
Proof. repeat split; reflexivity. Qed.

Example int_examples :
  Py.int " 42 " = Ok 42 /\ Py.int "-7" = Ok (-7) /\ Py.int "1_000" = Ok 1000
  /\ Py.int "1__0" = Raise ValueError /\ Py.int "" = Raise ValueError
  /\ Py.int "12a" = Raise ValueError.
Proof. repeat split; reflexivity. Qed.

(** ** Decimal digits *)

Lemma digit_char_decimal (d : Z) :
  0 <= d < 10 -> Py.is_decimal_digit (Py.digit_char d) = true.
Proof.
  intros H.
  assert (d = 0 \/ d = 1 \/ d = 2 \/ d = 3 \/ d = 4 \/ d = 5 \/ d = 6 \/ d = 7
          \/ d = 8 \/ d = 9) as C by lia.
  repeat (destruct C as [-> | C]; [reflexivity |]). subst; reflexivity.
Qed.

Lemma digits_of_decimal (fuel : nat) :
  forall n acc,
    0 <= n ->
    Py.all_chars Py.is_decimal_digit acc = true ->
    Py.all_chars Py.is_decimal_digit (Py.digits_of fuel n acc) = true.
Proof.
  induction fuel as [| fuel IH]; intros n acc Hn Hacc;
    assert (Py.all_chars Py.is_decimal_digit
              (String (Py.digit_char (n mod 10)) acc) = true) as Hacc'
    by (cbn [Py.all_chars];
        rewrite digit_char_decimal by (apply Z.mod_pos_bound; lia); exact Hacc);
    cbn [Py.digits_of].
  - exact Hacc'.
  - destruct (n <? 10); [exact Hacc' |].
    apply IH; [apply Z.div_pos; lia | exact Hacc'].
Qed.

Lemma digits_of_nonempty (fuel : nat) :
  forall n acc, exists c s, Py.digits_of fuel n acc = String c s.
Proof.
  induction fuel as [| fuel IH]; intros n acc; cbn [Py.digits_of].
  - eauto.
  - destruct (n <? 10); [eauto | apply IH].
Qed.

Lemma str_nonempty (n : Z) : exists c s, Py.str n = String c s.
Proof.
  unfold Py.str. destruct (n <? 0); [eauto |].
  apply digits_of_nonempty.
Qed.

Lemma str_decimal (n : Z) :
  0 <= n -> Py.all_chars Py.is_decimal_digit (Py.str n) = true.
Proof.
  intros Hn. unfold Py.str.
  destruct (Z.ltb_spec n 0); [lia |].
  apply digits_of_decimal; [assumption | reflexivity].
Qed.

Lemma digit_value_char (d : Z) : 0 <= d < 10 -> Py.digit_value (Py.digit_char d) = d.
Proof.
  intros H.
  assert (d = 0 \/ d = 1 \/ d = 2 \/ d = 3 \/ d = 4 \/ d = 5 \/ d = 6 \/ d = 7
          \/ d = 8 \/ d = 9) as C by lia.
  repeat (destruct C as [-> | C]; [reflexivity |]). subst; reflexivity.
Qed.

Lemma digits_of_value (fuel : nat) :
  forall n acc,
    0 <= n < 10 ^ Z.of_nat (S fuel) ->
    value_of 0 (Py.digits_of fuel n acc) = value_of n acc.
Proof.
  induction fuel as [| fuel IH]; intros n acc Hn; cbn [Py.digits_of].
  - change (10 ^ Z.of_nat 1) with 10 in Hn.
    cbn [value_of]. rewrite digit_value_char by (apply Z.mod_pos_bound; lia).
    rewrite Z.mod_small by lia. f_equal.
  - destruct (Z.ltb_spec n 10) as [Hlt | Hge].
    + cbn [value_of]. rewrite digit_value_char by (apply Z.mod_pos_bound; lia).
      rewrite Z.mod_small by lia. f_equal.
    + rewrite IH.
      * cbn [value_of]. rewrite digit_value_char by (apply Z.mod_pos_bound; lia).
        f_equal. pose proof (Z.div_mod n 10). lia.
      * split; [apply Z.div_pos; lia |].
        apply Z.div_lt_upper_bound; [lia |].
        replace (Z.of_nat (S (S fuel))) with (1 + Z.of_nat (S fuel)) in Hn by lia.
        rewrite Z.pow_add_r in Hn by lia. lia.
Qed.

Lemma str_nat_value (n : Z) : 0 <= n -> value_of 0 (Py.str_nat n) = n.
Proof.
  intros Hn. unfold Py.str_nat.
  rewrite digits_of_value; [reflexivity |].
  split; [assumption |].
  rewrite Nat2Z.inj_succ, Z2Nat.id by apply Z.log2_nonneg.
  destruct (Z.eq_dec n 0) as [-> | Hpos]; [reflexivity |].
  pose proof (Z.log2_spec n ltac:(lia)) as [_ Hup].
  eapply Z.lt_le_trans; [exact Hup |].
  apply Z.pow_le_mono_l.
  split; [lia | lia].
Qed.

(** ** Digit words *)

Lemma getitem_number_word (k w : string) :
  getitem AVIATION_NUMBERS k = Ok w -> In w number_words.
Proof.
  unfold getitem, AVIATION_NUMBERS, number_words. cbn [dict_get map snd].
  repeat match goal with
         | |- context [String.eqb k ?d] => destruct (String.eqb k d)
         end;
    intros H; inversion H; subst; cbn [In];
    repeat (first [left; reflexivity | right]).
Qed.

Lemma digit_words_are_words (s : string) :
  forall ws, digit_words s = Ok ws ->
             Forall (fun w => In w number_words) ws
             /\ List.length ws = String.length s.
Proof.
  unfold digit_words.
  induction s as [| c s IH]; intros ws H; cbn [Py.chars comprehension] in H.
  - inversion H; subst. split; [constructor | reflexivity].
  - destruct (getitem AVIATION_NUMBERS (String c "")) as [w | e] eqn:Hw;
      cbn [rbind] in H; [| discriminate].
    destruct (comprehension (getitem AVIATION_NUMBERS) (Py.chars s)) as [ws' | e] eqn:Hws;
      cbn [rbind] in H; [| discriminate].
    inversion H; subst.
    destruct (IH ws' eq_refl) as [Hall Hlen].
    split.
    + constructor; [eapply getitem_number_word; eassumption | assumption].
    + cbn [List.length String.length]. now rewrite Hlen.
Qed.

Lemma decimal_char_word (c : ascii) :
  Py.is_decimal_digit c = true ->
  exists w, getitem AVIATION_NUMBERS (String c "") = Ok w.
Proof.
  intros H.
  destruct c as [b0 b1 b2 b3 b4 b5 b6 b7].
  destruct b0, b1, b2, b3, b4, b5, b6, b7; try discriminate H;
    eexists; reflexivity.
Qed.

Lemma digit_words_of_decimal (s : string) :
  Py.all_chars Py.is_decimal_digit s = true ->
  exists ws, digit_words s = Ok ws.
Proof.
  unfold digit_words.
  induction s as [| c s IH]; intros H; cbn [Py.chars comprehension].
  - eauto.
  - cbn [Py.all_chars] in H. apply andb_prop in H as [Hc Hs].
    destruct (decimal_char_word c Hc) as [w ->].
    destruct (IH Hs) as [ws ->].
    cbn [rbind]. eauto.
Qed.

(** No spoken number begins like a flight level. *)
Lemma word_not_flight_level (w rest : string) :
  In w number_words -> String.prefix "Flight Level" (w ++ rest) = false.
Proof.
  unfold number_words, AVIATION_NUMBERS. cbn [map snd In].
  intros H.
  repeat (destruct H as [<- | H]; [reflexivity |]).
  contradiction.
Qed.

Lemma append_empty_r (s : string) : s ++ "" = s.
Proof. induction s as [| c s IH]; cbn [String.append]; [reflexivity | now rewrite IH]. Qed.

Lemma append_assoc (a b c : string) : (a ++ b) ++ c = a ++ (b ++ c).
Proof. induction a as [| x a IH]; cbn [String.append]; [reflexivity | now rewrite IH]. Qed.

Lemma join_cons_app (sep w : string) (ws : list string) :
  exists rest, Py.join sep (w :: ws) = w ++ rest.
Proof.
  unfold Py.join. destruct ws as [| w' ws]; cbn [String.concat].
  - exists "". symmetry. apply append_empty_r.
  - eauto.
Qed.

Lemma rbind_ok {A B} (r : result A) (f : A -> result B) (b : B) :
  rbind r f = Ok b -> exists a, r = Ok a /\ f a = Ok b.
Proof. destruct r as [a | e]; cbn [rbind]; intros H; [eauto | discriminate]. Qed.

Ltac ok_steps :=
  repeat match goal with
         | H : rbind _ _ = Ok _ |- _ =>
             let a := fresh "a" in
             let Ha := fresh "Ha" in
             apply rbind_ok in H as (a & Ha & H)
         | H : Ok _ = Ok _ |- _ => inversion H; subst; clear H
         end.

Lemma starts_with_word_not_flight_level (s : string) :
  starts_with_word s -> String.prefix "Flight Level" s = false.
Proof. intros (w & rest & Hw & ->). now apply word_not_flight_level. Qed.

Lemma starts_with_word_app (s t : string) :
  starts_with_word s -> starts_with_word (s ++ t).
Proof.
  intros (w & rest & Hw & ->). exists w, (rest ++ t).
  split; [assumption | apply append_assoc].
Qed.

Lemma starts_with_word_join (s : string) (more : list string) :
  starts_with_word s -> starts_with_word (Py.join " " (s :: more)).
Proof.
  intros H. destruct (join_cons_app " " s more) as [rest ->].
  now apply starts_with_word_app.
Qed.

Lemma getitem_starts_with_word (k w : string) :
  getitem AVIATION_NUMBERS k = Ok w -> starts_with_word w.
Proof.
  intros H. exists w, "". split; [eapply getitem_number_word; eassumption |].
  symmetry; apply append_empty_r.
Qed.

Lemma digit_words_start_with_word (n : Z) (ws : list string) :
  digit_words (Py.str n) = Ok ws -> starts_with_word (Py.join " " ws).
Proof.
  intros H. apply digit_words_are_words in H as [Hall Hlen].
  destruct (str_nonempty n) as (c & s & Hs). rewrite Hs in Hlen.
  destruct ws as [| w ws]; [discriminate Hlen |].
  apply starts_with_word_join.
  exists w, "". split; [now inversion Hall | symmetry; apply append_empty_r].
Qed.

Lemma feet_starts_with_word (altitude : Z) (s : string) :
  _pronounce_altitude_feet altitude = Ok s -> starts_with_word s.
Proof.
  unfold _pronounce_altitude_feet.
  destruct (altitude =? 0).
  { intros H; inversion H. exists "Zero", " feet". split; [cbn; tauto | reflexivity]. }
  destruct (1000 <=? altitude).
  { intros H. apply rbind_ok in H as (p_th & Hth & H). ok_steps.
    apply starts_with_word_app.
    destruct (altitude / 1000 =? 1).
    - inversion Hth; subst. cbn [List.app].
      apply starts_with_word_join.
      exists "One", " Thousand". split; [cbn; tauto | reflexivity].
    - ok_steps. cbn [List.app].
      apply starts_with_word_join, starts_with_word_app.
      eapply digit_words_start_with_word; eassumption. }
  destruct (100 <=? altitude).
  { intros H. ok_steps.
    apply starts_with_word_app, starts_with_word_join, starts_with_word_app.
    eapply getitem_starts_with_word; eassumption. }
  destruct (altitude <? 10); intros H; ok_steps; apply starts_with_word_app.
  - eapply getitem_starts_with_word; eassumption.
  - eapply digit_words_start_with_word; eassumption.
Qed.

(** ** C9: flight levels and grouped feet *)

Lemma digit_cases (d : Z) :
  0 <= d < 10 ->
  d = 0 \/ d = 1 \/ d = 2 \/ d = 3 \/ d = 4 \/ d = 5 \/ d = 6 \/ d = 7 \/ d = 8 \/ d = 9.
Proof. lia. Qed.

Lemma getitem_digit_char (d : Z) :
  0 <= d < 10 ->
  getitem AVIATION_NUMBERS (String (Py.digit_char d) "") = Ok (digit_word d).
Proof.
  intros H.
  destruct (digit_cases d H)
    as [-> | [-> | [-> | [-> | [-> | [-> | [-> | [-> | [-> | ->]]]]]]]]];
    reflexivity.
Qed.

Lemma getitem_digit_word (d : Z) :
  0 <= d < 10 -> getitem AVIATION_NUMBERS (Py.str d) = Ok (digit_word d).
Proof.
  intros H.
  destruct (digit_cases d H)
    as [-> | [-> | [-> | [-> | [-> | [-> | [-> | [-> | [-> | ->]]]]]]]]];
    reflexivity.
Qed.

(** The digits that [Py.str] writes are the decimal digits of the number,
    and the table gives each its word. *)
Lemma digits_of_spoken (fuel : nat) :
  forall n acc rest,
    0 <= n ->
    comprehension (getitem AVIATION_NUMBERS) (Py.chars acc) = Ok rest ->
    comprehension (getitem AVIATION_NUMBERS) (Py.chars (Py.digits_of fuel n acc))
    = Ok (map digit_word (decimal_digits fuel n) ++ rest)%list.
Proof.
  induction fuel as [| fuel IH]; intros n acc rest Hn Hacc;
    assert (comprehension (getitem AVIATION_NUMBERS)
              (Py.chars (String (Py.digit_char (n mod 10)) acc))
            = Ok (digit_word (n mod 10) :: rest)) as Hacc'
    by (cbn [Py.chars comprehension];
        rewrite getitem_digit_char by (apply Z.mod_pos_bound; lia);
        cbn [rbind]; rewrite Hacc; reflexivity);
    cbn [Py.digits_of decimal_digits].
  - exact Hacc'.
  - destruct (Z.ltb_spec n 10) as [Hlt | Hge].
    + rewrite Hacc'. now rewrite Z.mod_small by lia.
    + rewrite (IH (n / 10) _ _ (Z.div_pos n 10 Hn ltac:(lia)) Hacc').
      now rewrite map_app, <- app_assoc.
Qed.

Lemma digit_words_digit_by_digit (n : Z) :
  0 <= n ->
  digit_words (Py.str n)
  = Ok (map digit_word (decimal_digits (Z.to_nat (Z.log2 n)) n)).
Proof.
  intros Hn. unfold digit_words, Py.str, Py.str_nat.
  destruct (Z.ltb_spec n 0) as [Hneg | _]; [lia |].
  rewrite (digits_of_spoken _ n "" [] Hn eq_refl). now rewrite app_nil_r.
Qed.

Lemma remainder_part_spoken (remainder : Z) :
  0 <= remainder < 100 ->
  remainder_part remainder
  = Ok (if remainder =? 0 then []
        else if remainder <? 10 then [digit_word remainder]
             else [digit_by_digit remainder]).
Proof.
  intros H. unfold remainder_part.
  destruct (Z.ltb_spec 0 remainder) as [Hpos | Hzero].
  - destruct (Z.eqb_spec remainder 0) as [-> | _]; [lia |].
    destruct (Z.ltb_spec remainder 10) as [Hlt | Hge].
    + rewrite getitem_digit_word by lia. reflexivity.
    + rewrite digit_words_digit_by_digit by lia. reflexivity.
  - replace remainder with 0 by lia. reflexivity.
Qed.

(** On a positive altitude the code's rendering in feet is the rendering
    that the specification describes. *)
Lemma feet_is_grouped (a : Z) :
  0 < a -> _pronounce_altitude_feet a = Ok (spec_grouped_feet a).
Proof.
  intros Hpos. unfold _pronounce_altitude_feet, spec_grouped_feet.
  destruct (Z.eqb_spec a 0) as [-> | _]; [lia |].
  pose proof (Z.mod_pos_bound a 100 ltac:(lia)) as Hrem.
  pose proof (Z.mod_pos_bound a 1000 ltac:(lia)) as Hmod.
  rewrite (remainder_part_spoken (a mod 100) Hrem).
  destruct (Z.leb_spec 1000 a) as [Hbig | Hsmall].
  - assert (1 <= a / 1000) as Hth by (apply Z.div_le_lower_bound; lia).
    assert (0 <= a mod 1000 / 100 < 10) as Hh.
    { split; [apply Z.div_pos; lia | apply Z.div_lt_upper_bound; lia]. }
    destruct (Z.eqb_spec (a / 1000) 0) as [H0 | _]; [lia |].
    assert ((if 0 <? a mod 1000 / 100
             then let? h := getitem AVIATION_NUMBERS (Py.str (a mod 1000 / 100)) in
                  Ok [h ++ " Hundred"]
             else Ok [])
            = Ok (if a mod 1000 / 100 =? 0 then []
                  else [digit_word (a mod 1000 / 100) ++ " Hundred"])) as ->.
    { destruct (Z.ltb_spec 0 (a mod 1000 / 100)) as [Hnz | Hz].
      - destruct (Z.eqb_spec (a mod 1000 / 100) 0) as [E | _]; [lia |].
        now rewrite getitem_digit_word by lia.
      - now replace (a mod 1000 / 100) with 0 by lia. }
    destruct (Z.eqb_spec (a / 1000) 1) as [_ | _]; [reflexivity |].
    rewrite digit_words_digit_by_digit by lia. reflexivity.
  - assert (a / 1000 = 0) as -> by (apply Z.div_small; lia).
    rewrite (Z.mod_small a 1000) by lia.
    change (0 =? 0) with true. cbv iota. cbn [List.app].
    destruct (Z.leb_spec 100 a) as [Hmid | Hlow].
    + assert (1 <= a / 100 < 10) as Hh.
      { split; [apply Z.div_le_lower_bound; lia | apply Z.div_lt_upper_bound; lia]. }
      destruct (Z.eqb_spec (a / 100) 0) as [E | _]; [lia |].
      rewrite getitem_digit_word by lia. reflexivity.
    + assert (a / 100 = 0) as -> by (apply Z.div_small; lia).
      rewrite (Z.mod_small a 100) by lia.
      change (0 =? 0) with true. cbv iota. cbn [List.app].
      destruct (Z.eqb_spec a 0) as [E | _]; [lia |].
      destruct (Z.ltb_spec a 10) as [Hlt | Hge].
      * rewrite getitem_digit_word by lia. reflexivity.
      * rewrite digit_words_digit_by_digit by lia. reflexivity.
Qed.

(** C9.  For every integer altitude [a], [pronounce_altitude(a)] returns a
    string that begins with "Flight Level" exactly when [a >= 18000] and
    [a mod 100 = 0].  Every other altitude above zero is spoken as the
    specification's grouped feet (thousands, hundreds and remainder, the
    parts that are not zero, then "feet"), zero is "Zero feet", and
    [pronounce_altitude(3500)] is "Three Thousand Five Hundred feet".  A
    negative altitude, which is one of the other altitudes too, has no
    rendering: the call raises [KeyError] with [str(a)] as the key, as
    [pronounce_altitude(-5)] does. *)
Theorem pronounce_altitude_flight_level (a : Z) :
  ((exists s, pronounce_altitude (PyInt a) = Ok s
              /\ String.prefix "Flight Level" s = true)
   <-> (18000 <= a /\ a mod 100 = 0))
  /\ (0 < a -> ~ (18000 <= a /\ a mod 100 = 0) ->
      pronounce_altitude (PyInt a) = Ok (spec_grouped_feet a))
  /\ pronounce_altitude (PyInt 0) = Ok "Zero feet"
  /\ pronounce_altitude (PyInt 3500) = Ok "Three Thousand Five Hundred feet"
  /\ (a < 0 -> pronounce_altitude (PyInt a) = Raise (KeyError (Py.str a)))
  /\ pronounce_altitude (PyInt (-5)) = Raise (KeyError "-5").
Proof.
  cbn [pronounce_altitude]. unfold pronounce_altitude_int.
  split; [| split; [| split; [reflexivity | split; [reflexivity | split;
                                                     [| reflexivity]]]]].
  - split.
    + intros (s & Hs & Hp).
      destruct (Z.leb_spec 18000 a) as [Hge | Hlt];
        destruct (Z.eqb_spec (a mod 100) 0) as [Hmod | Hmod];
        cbn [andb] in Hs; try (split; assumption);
        apply feet_starts_with_word, starts_with_word_not_flight_level in Hs;
        congruence.
    + intros [Hge Hmod].
      destruct (Z.leb_spec 18000 a) as [_ | Hlt]; [| lia].
      destruct (Z.eqb_spec (a mod 100) 0) as [_ | Hne]; [| contradiction].
      cbn [andb].
      assert (180 <= a / 100) as Hfl by (apply Z.div_le_lower_bound; lia).
      destruct (Z.ltb_spec (a / 100) 100) as [Hsmall | Hbig].
      * exfalso. lia.
      * destruct (digit_words_of_decimal (Py.str (a / 100))) as [ws ->];
          [apply str_decimal; lia |].
        cbn [rbind]. eexists; split; [reflexivity | reflexivity].
  - intros Hpos Hnot.
    destruct (Z.leb_spec 18000 a) as [Hge | Hlt];
      destruct (Z.eqb_spec (a mod 100) 0) as [Hmod | Hmod];
      cbn [andb]; try (now apply feet_is_grouped).
    exfalso; apply Hnot; split; assumption.
  - intros Hneg.
    destruct (Z.leb_spec 18000 a) as [Hge | _]; [lia |]. cbn [andb].
    unfold _pronounce_altitude_feet.
    destruct (Z.eqb_spec a 0) as [E | _]; [lia |].
    destruct (Z.leb_spec 1000 a) as [Hge | _]; [lia |].
    destruct (Z.leb_spec 100 a) as [Hge | _]; [lia |].
    destruct (Z.ltb_spec a 10) as [_ | Hge]; [| lia].
    unfold getitem, Py.str.
    destruct (Z.ltb_spec a 0) as [_ | Hge]; [| lia].
    reflexivity.
Qed.

(** ** C8: inputs on which the transcription functions raise *)

(** C8.  The transcription functions are not total: a negative altitude or
    speed reaches [AVIATION_NUMBERS[str(n)]] with a key that carries a minus
    sign, and a time with a colon is spoken without a check that its two
    halves are digits; each of these calls raises [KeyError] instead of
    returning its input. *)
Theorem transcription_raises_KeyError :
  pronounce_altitude (PyInt (-5)) = Raise (KeyError "-5")
  /\ pronounce_altitude (PyStr "-500 ft") = Raise (KeyError "-500")
  /\ pronounce_speed (PyInt (-5)) "knots" = Raise (KeyError "-5")
  /\ pronounce_time "ab:cd" = Raise (KeyError "a")
  /\ pronounce_time "12:3x" = Raise (KeyError "x").
Proof. repeat split; reflexivity. Qed.

(** ** Comparisons on rationals *)

Lemma Qltb_lt (a b : Q) : Qltb a b = true <-> (a < b)%Q.
Proof.
  unfold Qltb. rewrite negb_true_iff.
  split; intros H.
  - apply Qnot_le_lt. intros Hle. apply Qle_bool_iff in Hle. congruence.
  - destruct (Qle_bool b a) eqn:E; [| reflexivity].
    apply Qle_bool_iff in E. exfalso. exact (Qlt_not_le _ _ H E).
Qed.

Lemma Qltb_ge (a b : Q) : Qltb a b = false <-> (b <= a)%Q.
Proof.
  unfold Qltb. rewrite negb_false_iff. apply Qle_bool_iff.
Qed.

Lemma resting_iff (now t : Z) :
  Qltb (total_seconds (now - t) / 60) 5 = true <-> now - t < five_minutes.
Proof.
  rewrite Qltb_lt. unfold total_seconds, five_minutes, Qlt, Qdiv, Qmult, Qinv.
  cbn [Qnum Qden]. lia.
Qed.

Lemma rested_iff (now t : Z) :
  Qltb (total_seconds (now - t) / 60) 5 = false <-> t + five_minutes <= now.
Proof.
  destruct (Qltb (total_seconds (now - t) / 60) 5) eqn:E.
  - apply resting_iff in E. split; [discriminate | lia].
  - split; [intros _ | reflexivity].
    destruct (Z.lt_ge_cases (now - t) five_minutes) as [Hlt | Hge]; [| lia].
    apply resting_iff in Hlt. congruence.
Qed.

(** ** C3: the complexity of a snapshot *)

(** C3.  The complexity that the context update of a cycle stores is
    [min(10, 1 + min(traffic_density // 2, 3) + (4 if emergency else 0)
    + (2 if weather_severity > 5 else 0))], where [traffic_density] is the
    snapshot's [traffic_count] (0 when the key is absent). *)
Theorem complexity_formula (flight_data : FlightData) (env : Env) (w : World) :
  let ctx := guidance_context (self (snd (_update_guidance_context flight_data env w))) in
  traffic_density ctx = get (fd_traffic_count flight_data) 0
  /\ emergency_situation ctx = get (fd_emergency flight_data) false
  /\ complexity_level ctx =
       Z.min 10 (1 + Z.min (traffic_density ctx / 2) 3
                 + (if emergency_situation ctx then 4 else 0)
                 + (if 5 <? get (fd_weather_severity flight_data) 0 then 2 else 0)).
Proof.
  cbn. repeat split.
  destruct (get (fd_emergency flight_data) false);
    destruct (5 <? get (fd_weather_severity flight_data) 0); lia.
Qed.

Lemma complexity_in_range (flight_data : FlightData) (ctx : GuidanceContext) :
  complexity_level (update_context flight_data ctx) <= 10.
Proof. cbn. lia. Qed.

(** ** C2: the gate *)

Lemma base_le_effective_cooldown (s : FlightGuidanceCharacterSystem) :
  (0 <= guidance_cooldown_seconds s)%Q ->
  (guidance_cooldown_seconds s <= effective_cooldown s)%Q.
Proof.
  intros H. unfold effective_cooldown.
  set (f := Z.max 1 (11 - complexity_level (guidance_context s))).
  assert (1 <= inject_Z f)%Q as Hf.
  { change 1%Q with (inject_Z 1). rewrite <- Zle_Qle. subst f. lia. }
  rewrite <- (Qmult_1_l (guidance_cooldown_seconds s)) at 1.
  rewrite (Qmult_comm (guidance_cooldown_seconds s) (inject_Z f)).
  apply Qmult_le_compat_r; assumption.
Qed.

(** The cooldown is checked before anything else, the emergency flag
    included. *)
Lemma gate_cooldown_first (env : Env) (w : World) :
  (elapsed_seconds env w < effective_cooldown (self w))%Q ->
  fst (_should_provide_guidance env w) = Ok false.
Proof.
  intros H. apply Qltb_lt in H.
  unfold _should_provide_guidance, bind, datetime_now, get_self, ret.
  cbn [fst snd self ticks draws sent].
  fold (elapsed_seconds env w). fold (effective_cooldown (self w)).
  destruct (Qltb (elapsed_seconds env w) (guidance_cooldown_seconds (self w)));
    [reflexivity |].
  now rewrite H.
Qed.

(** Once the effective cooldown has elapsed the emergency flag decides:
    an emergency passes, anything else is left to the random draw. *)
Lemma gate_after_cooldown (env : Env) (w : World) (b : bool) :
  (0 <= guidance_cooldown_seconds (self w))%Q ->
  (effective_cooldown (self w) <= elapsed_seconds env w)%Q ->
  emergency_situation (guidance_context (self w)) = b ->
  fst (_should_provide_guidance env w)
  = Ok (if b then true
        else Qltb (next_random env w) (final_probability (self w))).
Proof.
  intros Hbase H Hb.
  assert (Qltb (elapsed_seconds env w) (effective_cooldown (self w)) = false) as Heff
      by now apply Qltb_ge.
  assert (Qltb (elapsed_seconds env w) (guidance_cooldown_seconds (self w)) = false)
    as Hcool.
  { apply Qltb_ge. eapply Qle_trans; [| exact H].
    now apply base_le_effective_cooldown. }
  unfold _should_provide_guidance, bind, datetime_now, get_self, ret.
  cbn [fst snd self ticks draws sent].
  fold (elapsed_seconds env w). fold (effective_cooldown (self w)).
  rewrite Hcool, Heff, Hb. destruct b; reflexivity.
Qed.

(** C2, as the code has it.  With a base cooldown that is not negative:
    a snapshot that is not an emergency is suppressed while the elapsed time
    is below [effective_cooldown = base_cooldown * max(1, 11 - complexity)];
    once the effective cooldown has elapsed an emergency is never
    suppressed, and any other snapshot is suppressed exactly when the random
    draw is not below [min(0.3 + 0.05 * complexity, 0.8)]. *)
Theorem gate_check (env : Env) (w : World) :
  (0 <= guidance_cooldown_seconds (self w))%Q ->
  let go := fst (_should_provide_guidance env w) in
  let emergency := emergency_situation (guidance_context (self w)) in
  ((elapsed_seconds env w < effective_cooldown (self w))%Q ->
   emergency = false -> go = Ok false)
  /\ ((effective_cooldown (self w) <= elapsed_seconds env w)%Q ->
      emergency = true -> go = Ok true)
  /\ ((effective_cooldown (self w) <= elapsed_seconds env w)%Q ->
      emergency = false ->
      go = Ok (Qltb (next_random env w) (final_probability (self w)))).
Proof.
  intros Hbase go emergency. subst go emergency.
  split; [intros H _; now apply gate_cooldown_first |].
  split; intros H Hb; exact (gate_after_cooldown env w _ Hbase H Hb).
Qed.

(** *** Concrete sessions *)

(** C2, as stated, fails: ten minutes after the last guidance, well past
    the effective cooldown of thirty seconds, a snapshot that is not an
    emergency is suppressed when the random draw is high. *)
Lemma gate_suppresses_after_cooldown :
  let env := env_unlucky in
  let w := __init__ env in
  ~ (fst (_should_provide_guidance env w) = Ok false
     <-> ((elapsed_seconds env w < effective_cooldown (self w))%Q
          /\ emergency_situation (guidance_context (self w)) = false)).
Proof.
  intros env w [H _].
  assert (fst (_should_provide_guidance env w) = Ok false) as Hgo
      by (vm_compute; reflexivity).
  apply H in Hgo as [Hlt _]. vm_compute in Hlt. discriminate Hlt.
Qed.

Lemma gate_check_witness :
  let env := env_unlucky in
  let w := __init__ env in
  fst (_should_provide_guidance env w)
  = Ok (Qltb (next_random env w) (final_probability (self w))).
Proof.
  intros env w.
  apply (gate_check env w).
  - vm_compute. discriminate.
  - vm_compute. discriminate.
  - reflexivity.
Defined.

(** ** Frame lemmas *)

Ltac run :=
  unfold bind, ret, raise, lift, get_self, modify_self, datetime_now, draw,
    call_guidance_callbacks, asyncio_sleep;
  cbn [fst snd self ticks draws sent].

Lemma random_random_run (env : Env) (w : World) :
  random_random env w
  = (Ok (next_random env w),
     {| self := self w; ticks := ticks w; draws := S (draws w); sent := sent w |}).
Proof. reflexivity. Qed.

Lemma random_choice_run {A} (seq : list A) (env : Env) (w : World) :
  (seq = [] /\ random_choice seq env w = (Raise IndexError, w))
  \/ (exists x, In x seq
                /\ random_choice seq env w
                   = (Ok x, {| self := self w; ticks := ticks w;
                               draws := S (draws w); sent := sent w |})).
Proof.
  destruct seq as [| x seq]; [left; split; reflexivity |].
  right. eexists. split; [| reflexivity].
  apply nth_In.
  assert (0 < Z.of_nat (List.length (x :: seq))) as Hlen by (cbn [List.length]; lia).
  pose proof (Z.mod_pos_bound (entropy env (draws w)) _ Hlen). lia.
Qed.

Lemma only_draws_refl (w : World) : only_draws w w.
Proof. repeat split. Qed.

Lemma only_draws_trans (w1 w2 w3 : World) :
  only_draws w1 w2 -> only_draws w2 w3 -> only_draws w1 w3.
Proof.
  intros (A1 & B1 & C1) (A2 & B2 & C2). repeat split; congruence.
Qed.

Lemma random_choice_only_draws {A} (seq : list A) (env : Env) (w : World) :
  only_draws w (snd (random_choice seq env w)).
Proof.
  destruct (random_choice_run seq env w) as [[_ ->] | (x & _ & ->)];
    repeat split.
Qed.

Lemma template_guidance_only_draws (character : GuidanceCharacter)
    (situation_analysis : SituationAnalysis) (flight_data : FlightData)
    (env : Env) (w : World) :
  only_draws w (snd (_generate_template_guidance character situation_analysis
                       flight_data env w)).
Proof.
  unfold _generate_template_guidance. run.
  set (ts := templates _ _).
  destruct (random_choice_run ts env w) as [[_ ->] | (g & _ & ->)];
    [apply only_draws_refl |].
  destruct (personality character); try (repeat split; fail).
  rewrite random_random_run.
  destruct (Qltb _ _); [| repeat split].
  run.
  match goal with
  | |- context [random_choice ?l env ?w'] =>
      destruct (random_choice_run l env w') as [[_ ->] | (x & _ & ->)]
  end; repeat split.
Qed.

Lemma character_guidance_only_draws (character_name : string)
    (situation_analysis : SituationAnalysis) (flight_data : FlightData)
    (env : Env) (w : World) :
  only_draws w (snd (_generate_character_guidance character_name situation_analysis
                       flight_data env w)).
Proof.
  unfold _generate_character_guidance. run.
  destruct (getitem (characters (self w)) character_name) as [ch | e];
    [apply template_guidance_only_draws | apply only_draws_refl].
Qed.

(** A character that speaks is a key of the registry. *)
Lemma character_guidance_known (character_name : string)
    (situation_analysis : SituationAnalysis) (flight_data : FlightData)
    (env : Env) (w : World) (guidance : string) :
  fst (_generate_character_guidance character_name situation_analysis
         flight_data env w) = Ok guidance ->
  exists ch, dict_get (characters (self w)) character_name = Some ch.
Proof.
  unfold _generate_character_guidance, getitem. run.
  destruct (dict_get (characters (self w)) character_name) as [ch |];
    [eauto | discriminate].
Qed.

Lemma emergency_guidance_only_draws (character_name : string)
    (env : Env) (w : World) :
  only_draws w (snd (_generate_emergency_guidance character_name env w)).
Proof.
  unfold _generate_emergency_guidance. run.
  destruct (getitem (characters (self w)) character_name) as [ch | e];
    [| apply only_draws_refl].
  cbn [getitem dict_get emergency_templates String.eqb Ascii.eqb Bool.eqb].
  apply random_choice_only_draws.
Qed.

Lemma output_guidance_run (character_name guidance : string) (env : Env) (w : World) :
  _output_guidance character_name guidance env w
  = (Ok tt,
     {| self := set_last_guidance_time (clock env (ticks w)) (self w);
        ticks := S (ticks w);
        draws := draws w;
        sent := (sent w ++ [{| em_character := character_name;
                               em_message := guidance;
                               em_time := clock env (ticks w) |}])%list |}).
Proof. reflexivity. Qed.

(** ** C10: the emergency and force-speak entry points *)

Lemma handle_emergency_characters (env : Env) (w : World) :
  characters (self (snd (handle_emergency_situation env w))) = characters (self w).
Proof.
  unfold handle_emergency_situation. run.
  destruct (map fst _) as [| selected_char others]; [reflexivity |].
  match goal with
  | |- context [_generate_emergency_guidance selected_char env ?w0] =>
      pose proof (emergency_guidance_only_draws selected_char env w0) as (Hs & _ & _);
      destruct (_generate_emergency_guidance selected_char env w0) as [[g | e] w1]
  end; cbn [snd self] in *.
  - destruct (truthy g); [rewrite output_guidance_run |]; cbn [snd self];
      unfold set_last_guidance_time; cbn [characters]; now rewrite Hs.
  - now rewrite Hs.
Qed.

Lemma force_guidance_characters (character_name : string)
    (situation_override : option string) (env : Env) (w : World) :
  characters (self (snd (force_character_guidance character_name situation_override
                           env w))) = characters (self w).
Proof.
  unfold force_character_guidance. run.
  destruct (dict_get (characters (self w)) character_name) as [ch |]; [| reflexivity].
  match goal with
  | |- context [_generate_character_guidance ?c ?a ?f env w] =>
      pose proof (character_guidance_only_draws c a f env w) as (Hs & _ & _);
      destruct (_generate_character_guidance c a f env w) as [[g | e] w1]
  end; cbn [snd self] in *.
  - destruct (truthy g); [rewrite output_guidance_run |]; cbn [snd self];
      unfold set_last_guidance_time; cbn [characters]; now rewrite Hs.
  - now rewrite Hs.
Qed.

(** C10.  An emission through [handle_emergency_situation] or through
    [force_character_guidance] leaves every character as it was, [last_spoke]
    and [spoke_count_session] included: the dispatch in [_output_guidance]
    only stores [last_guidance_time].  The filter of the selector, which
    reads [last_spoke], therefore runs on the same registry before and after
    such a call. *)
Theorem side_entries_keep_character_state (character_name : string)
    (situation_override : option string) (env : Env) (w : World) :
  let w1 := snd (handle_emergency_situation env w) in
  let w2 := snd (force_character_guidance character_name situation_override env w) in
  characters (self w1) = characters (self w)
  /\ characters (self w2) = characters (self w)
  /\ (forall c g env' w',
         self (snd (_output_guidance c g env' w'))
         = set_last_guidance_time (clock env' (ticks w')) (self w'))
  /\ (forall now,
         available_characters now (characters (self w1))
         = available_characters now (characters (self w))
         /\ available_characters now (characters (self w2))
            = available_characters now (characters (self w))).
Proof.
  intros w1 w2. subst w1 w2.
  rewrite handle_emergency_characters, force_guidance_characters.
  repeat split.
Qed.

(** The emergency entry point speaks although nobody is rested, and the
    speaker's state does not record it. *)
Example emergency_entry_example :
  let env := {| clock := fun _ => 0; entropy := fun _ => 0 |} in
  let w := snd (handle_emergency_situation env (__init__ env)) in
  sent w = [{| em_character := "dublin_control";
               em_message := "unknown, understand emergency. State intentions, assistance available.";
               em_time := 0 |}]
  /\ option_map last_spoke (dict_get (characters (self w)) "dublin_control") = Some None
  /\ option_map spoke_count_session (dict_get (characters (self w)) "dublin_control")
     = Some 0.
Proof. repeat split; reflexivity. Qed.

Example force_speak_example :
  let env := {| clock := fun _ => 0; entropy := fun _ => 0 |} in
  let r := force_character_guidance "sarah_spotter" (Some "aircraft_spotting") env
             (__init__ env) in
  fst r = Ok (Some "Oh wow unknown, great view of that traffic!")
  /\ map em_character (sent (snd r)) = ["sarah_spotter"]
  /\ option_map last_spoke (dict_get (characters (self (snd r))) "sarah_spotter")
     = Some None.
Proof. repeat split; reflexivity. Qed.

Example force_speak_unknown :
  let env := {| clock := fun _ => 0; entropy := fun _ => 0 |} in
  force_character_guidance "nobody" None env (__init__ env) = (Ok None, __init__ env).
Proof. reflexivity. Qed.

(** ** The selector *)

Lemma available_characters_spec (now : Z) (items : list (string * GuidanceCharacter))
    (env : Env) :
  forall w, exists available w',
    available_characters now items env w = (Ok available, w')
    /\ only_draws w w'
    /\ (forall c, In c available -> exists ch, In (c, ch) items /\ rested now ch)
    /\ (NoDup (map fst items) -> NoDup available).
Proof.
  induction items as [| [char_name character] items IH]; intros w;
    cbn [available_characters].
  - exists [], w. repeat split; [intros c [] | constructor].
  - assert (forall w0, only_draws w w0 ->
              exists available w',
                available_characters now items env w0 = (Ok available, w')
                /\ only_draws w w'
                /\ (forall c, In c available ->
                              exists ch, In (c, ch) ((char_name, character) :: items)
                                         /\ rested now ch)
                /\ (NoDup (map fst ((char_name, character) :: items)) ->
                    NoDup available)) as Hskip.
    { intros w0 H0. destruct (IH w0) as (l & w' & E & Hd & Hin & Hnd).
      exists l, w'.
      split; [exact E |]. split; [exact (only_draws_trans _ _ _ H0 Hd) |]. split.
      - intros c Hc. destruct (Hin c Hc) as (ch & Hch & Hr).
        exists ch. split; [now right | assumption].
      - intros Hn. apply Hnd. now inversion Hn. }
    destruct (match last_spoke character with
              | Some t => Qltb (total_seconds (now - t) / 60) 5
              | None => false
              end) eqn:Hrest.
    { apply Hskip, only_draws_refl. }
    unfold bind, ret. rewrite random_random_run.
    destruct (Qltb (response_likelihood character) _).
    { apply Hskip. repeat split. }
    match goal with
    | |- context [available_characters now items env ?w0] =>
        destruct (IH w0) as (l & w' & -> & Hd & Hin & Hnd)
    end.
    exists (char_name :: l), w'. split; [reflexivity |].
    split; [| split].
    + destruct Hd as (A & B & C). repeat split; assumption.
    + intros c [<- | Hc].
      * exists character. split; [now left |].
        intros t Ht. rewrite Ht in Hrest. now apply rested_iff.
      * destruct (Hin c Hc) as (ch & Hch & Hr).
        exists ch. split; [now right | assumption].
    + intros Hn. cbn [map fst] in Hn. inversion Hn as [| k ks Hk Hks]; subst.
      constructor; [| now apply Hnd].
      intros Hc. apply Hk. destruct (Hin _ Hc) as (ch & Hch & _).
      change char_name with (fst (char_name, ch)). now apply in_map.
Qed.

Lemma prefer_incl (available preferences : list string) (c : string) :
  In c (prefer available preferences) -> In c available.
Proof.
  unfold prefer.
  destruct (filter _ preferences) as [| p ps] eqn:E; [auto |].
  intros Hc. rewrite <- E in Hc. apply filter_In in Hc as [_ Hc].
  unfold mem in Hc. apply existsb_exists in Hc as (x & Hx & Heq).
  apply String.eqb_eq in Heq. now subst.
Qed.

Lemma comprehension_if_incl {A} (p : A -> result bool) (xs ys : list A) :
  comprehension_if p xs = Ok ys ->
  forall y, In y ys -> In y xs /\ p y = Ok true.
Proof.
  revert ys. induction xs as [| x xs IH]; intros ys H y Hy;
    cbn [comprehension_if] in H.
  - inversion H; subst. destruct Hy.
  - apply rbind_ok in H as (keep & Hkeep & H).
    apply rbind_ok in H as (zs & Hzs & H). inversion H; subst; clear H.
    destruct keep.
    + destruct Hy as [<- | Hy]; [split; [now left | assumption] |].
      destruct (IH _ Hzs _ Hy). split; [now right | assumption].
    + destruct (IH _ Hzs _ Hy). split; [now right | assumption].
Qed.

(** What [normal_selection] returns when it returns. *)
Lemma normal_selection_spec (situation_analysis : SituationAnalysis)
    (preferred : list string) (env : Env) (w : World) :
  only_draws w (snd (normal_selection situation_analysis preferred env w))
  /\ forall l, fst (normal_selection situation_analysis preferred env w) = Ok l ->
               (forall c, In c l -> In c preferred)
               /\ NoDup l
               /\ (List.length l <= 2)%nat
               /\ (List.length l = 2%nat ->
                   situation_type situation_analysis = "routine"
                   /\ Qltb (next_random env (snd (random_choice preferred env w))) 0.2
                      = true).
Proof.
  unfold normal_selection, bind, ret.
  destruct (random_choice_run preferred env w) as [[_ ->] | (first & Hfirst & ->)].
  { cbn [fst snd]. split; [apply only_draws_refl | intros l H; discriminate H]. }
  cbn [fst snd].
  set (w1 := {| self := self w; ticks := ticks w; draws := S (draws w);
                sent := sent w |}).
  assert (forall w', only_draws w w' ->
            only_draws w (snd (Ok [first], w'))
            /\ forall l, fst (Ok [first], w') = Ok l ->
                 (forall c, In c l -> In c preferred) /\ NoDup l
                 /\ (List.length l <= 2)%nat
                 /\ (List.length l = 2%nat ->
                     situation_type situation_analysis = "routine"
                     /\ Qltb (next_random env w1) 0.2 = true))
    as Hone.
  { intros w' Hw'. split; [exact Hw' |].
    intros l H. inversion H; subst.
    repeat split.
    - intros c [<- | []]; assumption.
    - repeat constructor. intros [].
    - cbn; lia.
    - discriminate.
    - discriminate. }
  destruct (String.eqb (situation_type situation_analysis) "routine") eqn:Hroutine;
    cbn [andb]; [| apply Hone; repeat split].
  destruct (1 <? Z.of_nat (List.length preferred)); [| apply Hone; repeat split].
  rewrite random_random_run.
  destruct (Qltb (next_random env w1) 0.2) eqn:Hdraw; [| apply Hone; repeat split].
  match goal with
  | |- context [random_choice ?l env ?w0] =>
      destruct (random_choice_run l env w0) as [[_ ->] | (second & Hsecond & ->)]
  end.
  { cbn [fst snd]. split; [repeat split | intros l H; discriminate H]. }
  cbn [fst snd]. split; [repeat split |].
  intros l H. inversion H; subst; clear H.
  apply filter_In in Hsecond as [Hin Hne].
  apply negb_true_iff, String.eqb_neq in Hne.
  repeat split.
  - intros c [<- | [<- | []]]; assumption.
  - constructor; [intros [He | []]; congruence |].
    constructor; [intros [] | constructor].
  - cbn; lia.
  - now apply String.eqb_eq.
Qed.

(** What the selector returns when it returns: characters that passed the
    filter, hence rested ones, at most two and never the same twice. *)
Lemma select_spec (situation_analysis : SituationAnalysis) (env : Env) (w : World) :
  let r := _select_responding_characters situation_analysis env w in
  only_draws (after_tick w) (snd r)
  /\ forall l, fst r = Ok l ->
       (forall c, In c l ->
                  In c (prefer (eligible env w)
                          (character_preferences situation_analysis)))
       /\ (forall c, In c l ->
                     exists ch, In (c, ch) (characters (self w))
                                /\ rested (clock env (ticks w)) ch)
       /\ NoDup l
       /\ (List.length l <= 2)%nat
       /\ (List.length l = 2%nat -> situation_type situation_analysis = "routine").
Proof.
  cbv zeta. unfold _select_responding_characters, eligible.
  unfold bind, datetime_now, get_self, lift, ret. cbn [fst snd self ticks].
  fold (after_tick w).
  destruct (available_characters_spec (clock env (ticks w)) (characters (self w)) env
              (after_tick w)) as (available & w1 & -> & Hd & Hin & _).
  cbn [fst snd].
  set (preferred := prefer available (character_preferences situation_analysis)).
  assert (forall c, In c preferred ->
                    exists ch, In (c, ch) (characters (self w))
                               /\ rested (clock env (ticks w)) ch) as Hpref.
  { intros c Hc. apply Hin. eapply prefer_incl; exact Hc. }
  assert (only_draws (after_tick w)
            (snd (normal_selection situation_analysis preferred env w1))
          /\ forall l,
              fst (normal_selection situation_analysis preferred env w1) = Ok l ->
              (forall c, In c l -> In c preferred)
              /\ (forall c, In c l ->
                            exists ch, In (c, ch) (characters (self w))
                                       /\ rested (clock env (ticks w)) ch)
              /\ NoDup l /\ (List.length l <= 2)%nat
              /\ (List.length l = 2%nat ->
                  situation_type situation_analysis = "routine")) as Hnormal.
  { destruct (normal_selection_spec situation_analysis preferred env w1) as [Hd' Hl].
    split; [exact (only_draws_trans _ _ _ Hd Hd') |].
    intros l H. destruct (Hl l H) as (Hsub & Hnd & Hlen & Htwo).
    repeat split; auto. now apply Htwo. }
  destruct available as [| a available'] eqn:Havail.
  { cbn [fst snd]. split; [exact Hd |].
    intros l H. inversion H; subst.
    split; [intros c [] |]. split; [intros c [] |]. split; [constructor |].
    split; [cbn; lia | intros Hlen; discriminate Hlen]. }
  rewrite <- Havail in *. clear Havail.
  destruct (7 <=? urgency_level situation_analysis); [| exact Hnormal].
  destruct (comprehension_if _ preferred) as [professional_chars | e] eqn:Hprof;
    [| cbn [fst snd]; split; [exact Hd | intros l H; discriminate H]].
  destruct professional_chars as [| p ps] eqn:Hps; [exact Hnormal |].
  rewrite <- Hps in *. clear Hps.
  destruct (random_choice_run professional_chars env w1)
    as [[_ ->] | (c & Hc & ->)]; cbn [fst snd].
  { split; [exact Hd | intros l H; discriminate H]. }
  split.
  { destruct Hd as (A & B & C). repeat split; assumption. }
  intros l H. inversion H; subst; clear H.
  destruct (comprehension_if_incl _ _ _ Hprof c Hc) as [Hcp _].
  repeat split.
  - intros c' [<- | []]. exact Hcp.
  - intros c' [<- | []]. now apply Hpref.
  - repeat constructor. intros [].
  - cbn; lia.
  - discriminate.
Qed.

Lemma in_dict_get {V} (d : list (string * V)) (k : string) (v : V) :
  In (k, v) d -> exists v', dict_get d k = Some v'.
Proof.
  induction d as [| [k' v'] d IH]; intros H; [destruct H |].
  cbn [dict_get]. destruct (String.eqb_spec k k') as [_ | Hne]; [eauto |].
  destruct H as [H | H]; [| now apply IH].
  inversion H; subst. now contradiction Hne.
Qed.

Lemma comprehension_if_total {A} (p : A -> result bool) (xs : list A) :
  (forall x, In x xs -> exists b, p x = Ok b) ->
  exists ys, comprehension_if p xs = Ok ys
             /\ forall x, In x xs -> p x = Ok true -> In x ys.
Proof.
  induction xs as [| x xs IH]; intros H; cbn [comprehension_if].
  - exists []. split; [reflexivity | intros x []].
  - destruct (H x (or_introl eq_refl)) as [b Hb].
    destruct IH as (ys & Hys & Hin); [intros y Hy; apply H; now right |].
    rewrite Hb, Hys. cbn [rbind].
    eexists. split; [reflexivity |].
    intros y [<- | Hy] Hp.
    + rewrite Hb in Hp. inversion Hp; subst. now left.
    + destruct b; [right |]; now apply Hin.
Qed.

(** ** C6: high urgency *)

(** C6.  When [urgency_level >= 7] and the preference-filtered eligible set
    holds a character with [professional_level >= 8], the selector returns
    exactly one character, whose [professional_level] is at least 8,
    whatever the random draws. *)
Theorem high_urgency_selects_one_professional
    (situation_analysis : SituationAnalysis) (env : Env) (w : World) :
  7 <= urgency_level situation_analysis ->
  (exists c ch,
      In c (prefer (eligible env w) (character_preferences situation_analysis))
      /\ dict_get (characters (self w)) c = Some ch
      /\ 8 <= professional_level ch) ->
  exists c ch,
    fst (_select_responding_characters situation_analysis env w) = Ok [c]
    /\ dict_get (characters (self w)) c = Some ch
    /\ 8 <= professional_level ch.
Proof.
  intros Hurgent (c0 & ch0 & Hc0 & Hch0 & Hlevel0).
  revert Hc0.
  unfold _select_responding_characters, eligible.
  unfold bind, datetime_now, get_self, lift, ret. cbn [fst snd self ticks].
  fold (after_tick w).
  destruct (available_characters_spec (clock env (ticks w)) (characters (self w)) env
              (after_tick w)) as (available & w1 & -> & _ & Hin & _).
  cbn [fst snd].
  intros Hc0.
  destruct available as [| a available'];
    [apply prefer_incl in Hc0; destruct Hc0 |].
  cbv iota.
  remember (a :: available') as available eqn:Havail. clear Havail.
  set (preferred := prefer available (character_preferences situation_analysis)) in *.
  destruct (Z.leb_spec 7 (urgency_level situation_analysis)) as [_ | Hlt]; [| lia].
  set (professional := fun c : string =>
         let? ch := getitem (characters (self w)) c in
         Ok (8 <=? professional_level ch)).
  destruct (comprehension_if_total professional preferred)
    as (professional_chars & Hprof & Hkeep).
  { intros c Hc. apply prefer_incl, Hin in Hc as (ch & Hch & _).
    apply in_dict_get in Hch as [ch' Hch'].
    unfold professional, getitem. rewrite Hch'. cbn [rbind]. eauto. }
  rewrite Hprof.
  assert (In c0 professional_chars) as Hc0'.
  { apply Hkeep; [exact Hc0 |].
    unfold professional, getitem. rewrite Hch0. cbn [rbind].
    f_equal. now apply Z.leb_le. }
  destruct professional_chars as [| p ps] eqn:Hps; [destruct Hc0' |].
  rewrite <- Hps in *. clear Hps.
  destruct (random_choice_run professional_chars env w1)
    as [[-> _] | (c & Hc & ->)]; [destruct Hc0' |].
  cbn [fst snd].
  destruct (comprehension_if_incl _ _ _ Hprof c Hc) as [_ Hpc].
  unfold professional, getitem in Hpc.
  destruct (dict_get (characters (self w)) c) as [ch |] eqn:Hch;
    cbn [rbind] in Hpc; [| discriminate Hpc].
  exists c, ch.
  split; [reflexivity | split; [exact Hch |]].
  inversion Hpc. now apply Z.leb_le.
Qed.

Lemma high_urgency_witness :
  exists c ch,
    fst (_select_responding_characters urgent_analysis env_lucky (__init__ env_lucky))
    = Ok [c]
    /\ dict_get (characters (self (__init__ env_lucky))) c = Some ch
    /\ 8 <= professional_level ch.
Proof.
  apply (high_urgency_selects_one_professional urgent_analysis env_lucky
           (__init__ env_lucky)).
  - vm_compute. discriminate.
  - exists "approach_control". eexists.
    split; [vm_compute; tauto |].
    split; [reflexivity | vm_compute; discriminate].
Defined.

Example high_urgency_example :
  fst (_select_responding_characters urgent_analysis env_lucky (__init__ env_lucky))
  = Ok ["approach_control"].
Proof. reflexivity. Qed.

(** ** One turn of the loop of [process_flight_situation] *)

Lemma speak_in_turn_step (total : nat) (situation_analysis : SituationAnalysis)
    (flight_data : FlightData) (character_name : string) (others : list string)
    (env : Env) (w : World) :
  exists r w1,
    _generate_character_guidance character_name situation_analysis flight_data env w
    = (r, w1)
    /\ only_draws w w1
    /\ match r with
       | Raise e =>
           speak_in_turn total situation_analysis flight_data
             (character_name :: others) env w = (Raise e, w1)
       | Ok guidance =>
           (exists ch, dict_get (characters (self w)) character_name = Some ch)
           /\ speak_in_turn total situation_analysis flight_data
                (character_name :: others) env w
              = speak_in_turn total situation_analysis flight_data others env
                  (if truthy guidance
                   then spoken env character_name guidance
                          (situation_type situation_analysis) w1
                   else w1)
       end.
Proof.
  pose proof (character_guidance_only_draws character_name situation_analysis
                flight_data env w) as Hd.
  pose proof (character_guidance_known character_name situation_analysis
                flight_data env w) as Hk.
  destruct (_generate_character_guidance character_name situation_analysis
              flight_data env w) as [[guidance | e] w1] eqn:Hgen.
  2: { exists (Raise e), w1. split; [reflexivity |]. split; [exact Hd |].
       cbn [speak_in_turn]. unfold bind at 1. now rewrite Hgen. }
  cbn [fst snd] in Hd, Hk.
  exists (Ok guidance), w1. split; [reflexivity |]. split; [exact Hd |].
  destruct (Hk guidance eq_refl) as [ch Hch]. split; [eauto |].
  destruct Hd as (Hself & _ & _).
  pose proof Hch as Hch1. rewrite <- Hself in Hch1.
  cbn [speak_in_turn]. unfold bind at 1. rewrite Hgen.
  unfold bind at 1.
  destruct (truthy guidance); [| reflexivity].
  unfold bind at 1. rewrite output_guidance_run.
  unfold bind at 1. unfold get_self. cbn [fst snd self].
  unfold bind at 1. unfold lift, getitem.
  unfold set_last_guidance_time at 1. cbn [characters].
  rewrite Hch1.
  unfold bind, datetime_now, modify_self, asyncio_sleep, ret.
  cbn [fst snd self ticks draws sent].
  destruct (1 <? total)%nat; reflexivity.
Qed.

Lemma speak_in_turn_turns (total : nat) (situation_analysis : SituationAnalysis)
    (flight_data : FlightData) (responding : list string) (env : Env) :
  forall w,
    turns env (situation_type situation_analysis) responding w
      (snd (speak_in_turn total situation_analysis flight_data responding env w)).
Proof.
  induction responding as [| character_name others IH]; intros w.
  - apply turns_stop, only_draws_refl.
  - destruct (speak_in_turn_step total situation_analysis flight_data character_name
                others env w) as (r & w1 & _ & Hd & Hr).
    destruct r as [guidance | e].
    + destruct Hr as [[ch Hch] ->].
      destruct (truthy guidance).
      * eapply turns_speak; [exact Hd | exact Hch | apply IH].
      * eapply turns_silent; [exact Hd | apply IH].
    + rewrite Hr. apply turns_stop. exact Hd.
Qed.

(** ** Subsequences *)

Lemma subseq_In {A} (l1 l2 : list A) :
  subseq l1 l2 -> forall x, In x l1 -> In x l2.
Proof.
  induction 1 as [l | x l1 l2 _ IH | x l1 l2 _ IH]; intros y Hy.
  - destruct Hy.
  - right. now apply IH.
  - destruct Hy as [<- | Hy]; [now left | right; now apply IH].
Qed.

Lemma subseq_length {A} (l1 l2 : list A) :
  subseq l1 l2 -> (List.length l1 <= List.length l2)%nat.
Proof. induction 1; cbn [List.length]; lia. Qed.

Lemma subseq_NoDup {A} (l1 l2 : list A) :
  subseq l1 l2 -> NoDup l2 -> NoDup l1.
Proof.
  induction 1 as [l | x l1 l2 _ IH | x l1 l2 Hs IH]; intros Hn.
  - constructor.
  - apply IH. now inversion Hn.
  - inversion Hn as [| y ys Hy Hys]; subst.
    constructor; [| now apply IH].
    intros Hx. apply Hy. eapply subseq_In; eassumption.
Qed.

(** ** What a cycle adds *)

Lemma adds_nothing (responding : list string) (w w' : World) :
  self w' = self w -> sent w' = sent w -> adds responding w w'.
Proof.
  intros Hs Hn. exists [], []. unfold history. rewrite Hs, Hn, !app_nil_r.
  repeat split. constructor.
Qed.

Lemma turns_adds (env : Env) (situation_name : string) (responding : list string)
    (w w' : World) :
  turns env situation_name responding w w' -> adds responding w w'.
Proof.
  induction 1 as [responding w w' (Hs & _ & Hn)
                 | c others w w1 w' (Hs & _ & Hn) _ IH
                 | c g ch others w w1 w' (Hs & _ & Hn) _ _ IH].
  - now apply adds_nothing.
  - destruct IH as (new & entries & Hsent & Hhist & Hmap & Hsub).
    exists new, entries. unfold history in *. rewrite Hs in Hhist. rewrite Hn in Hsent.
    repeat split; try assumption. now constructor.
  - destruct IH as (new & entries & Hsent & Hhist & Hmap & Hsub).
    unfold history in *. cbn [spoken self sent set_guidance_context guidance_context
                               append_flow conversation_flow] in Hsent, Hhist.
    rewrite Hs in Hhist. rewrite Hn in Hsent.
    rewrite <- app_assoc in Hsent, Hhist.
    eexists. eexists. split; [exact Hsent |]. split; [exact Hhist |].
    split; [cbn [map List.app heard recorded em_character em_message character message];
            now rewrite Hmap |].
    cbn [List.app map em_character]. now constructor.
Qed.

Lemma gate_frame (env : Env) (w : World) :
  exists go w',
    _should_provide_guidance env w = (Ok go, w')
    /\ self w' = self w /\ sent w' = sent w /\ ticks w' = S (ticks w).
Proof.
  unfold _should_provide_guidance, bind, datetime_now, get_self, ret.
  cbn [fst snd self ticks draws sent].
  repeat match goal with
         | |- context [if ?b then _ else _] => destruct b
         end;
    try rewrite random_random_run; eexists; eexists; repeat split.
Qed.

(** One cycle: the characters chosen to respond are different from one
    another and at most two, and the cycle adds emissions and history
    entries for some of them, in order. *)
Lemma cycle_adds (flight_data : FlightData) (env : Env) (w : World) :
  exists responding,
    NoDup responding /\ (List.length responding <= 2)%nat
    /\ adds responding w (snd (process_flight_situation flight_data env w)).
Proof.
  unfold process_flight_situation, _update_guidance_context.
  unfold bind at 1. unfold modify_self at 1. cbn [fst snd].
  set (w0 := {| self := _; ticks := ticks w; draws := draws w; sent := sent w |}).
  assert (history w0 = history w /\ sent w0 = sent w) as [Hh0 Hs0] by (split; reflexivity).
  unfold bind at 1.
  destruct (gate_frame env w0) as (go & w1 & -> & Hself1 & Hsent1 & _).
  assert (forall l w', adds l w1 w' -> adds l w w') as Hlift.
  { intros l w' (new & entries & A & B & C & D).
    exists new, entries. unfold history in *.
    rewrite Hself1 in B. rewrite Hsent1 in A.
    rewrite Hh0 in B. rewrite Hs0 in A.
    repeat split; assumption. }
  destruct go; cbn [negb].
  2: { exists []. split; [constructor |]. split; [cbn; lia |].
       apply Hlift, adds_nothing; reflexivity. }
  unfold bind at 1. unfold get_self at 1. cbn [fst snd].
  set (situation_analysis := _analyze_situation (guidance_context (self w1)) flight_data).
  unfold bind at 1.
  destruct (select_spec situation_analysis env w1) as [(Hs2 & _ & Hn2) Hl].
  destruct (_select_responding_characters situation_analysis env w1)
    as [[responding | e] w2]; cbn [fst snd] in *.
  2: { exists []. split; [constructor |]. split; [cbn; lia |].
       apply Hlift, adds_nothing; assumption. }
  destruct (Hl responding eq_refl) as (_ & _ & Hnd & Hlen & _).
  exists responding. split; [exact Hnd |]. split; [exact Hlen |].
  apply Hlift.
  pose proof (turns_adds _ _ _ _ _
                (speak_in_turn_turns (List.length responding) situation_analysis
                   flight_data responding env w2)) as (new & entries & A & B & C & D).
  exists new, entries. unfold history in *.
  cbn [after_tick self sent] in Hs2, Hn2.
  rewrite Hs2 in B. rewrite Hn2 in A.
  repeat split; assumption.
Qed.

(** ** C7: the conversation history *)

(** C7, as the code has it.  The conversation history is a plain list that
    is only ever appended to: over any session the history at the end is
    the history at the start followed by one entry per emission of the
    session, in the order of the emissions, with the same speaker and the
    same text.  No entry is evicted and there is no bound on the length. *)
Theorem history_is_append_only (snapshots : list FlightData) (env : Env) :
  forall w,
  exists new entries,
    sent (run_cycles snapshots env w) = (sent w ++ new)%list
    /\ history (run_cycles snapshots env w) = (history w ++ entries)%list
    /\ map recorded entries = map heard new
    /\ List.length (history (run_cycles snapshots env w))
       = (List.length (history w) + List.length new)%nat.
Proof.
  induction snapshots as [| flight_data later IH]; intros w; cbn [run_cycles].
  - exists [], []. rewrite !app_nil_r. repeat split. cbn; lia.
  - destruct (cycle_adds flight_data env w)
      as (responding & _ & _ & new1 & entries1 & A1 & B1 & C1 & _).
    destruct (IH (snd (process_flight_situation flight_data env w)))
      as (new2 & entries2 & A2 & B2 & C2 & _).
    exists (new1 ++ new2)%list, (entries1 ++ entries2)%list.
    rewrite A2, B2, A1, B1, <- !app_assoc, !map_app, C1, C2.
    repeat split.
    rewrite !length_app.
    apply (f_equal (@List.length _)) in C1, C2. rewrite !length_map in C1, C2.
    lia.
Qed.

(** C7, as stated, fails: sixty snapshots ten minutes apart leave 120
    entries in the history, more than the capacity of 100, and the oldest
    entry is still the first one. *)
Lemma history_exceeds_capacity :
  let w := run_cycles (repeat emergency_cruise 60) env_lucky (__init__ env_lucky) in
  List.length (history w) = 120%nat
  /\ option_map timestamp (hd_error (history w)) = Some 3000000000.
Proof. vm_compute. split; reflexivity. Qed.

(** ** C1: an emergency snapshot in a cycle *)

(** C1, as the code has it.  For a snapshot whose emergency flag is set,
    a call of [process_flight_situation] made once the effective cooldown
    has elapsed since [last_guidance_time] passes the gate whatever the
    random source says, and the cycle then sends at most two emissions, by
    different characters; the professional level of a speaker is not
    constrained. *)
Theorem emergency_snapshot_cycle (flight_data : FlightData) (env : Env) (w : World) :
  fd_emergency flight_data = Some true ->
  (0 <= guidance_cooldown_seconds (self w))%Q ->
  let w0 := snd (_update_guidance_context flight_data env w) in
  (effective_cooldown (self w0) <= elapsed_seconds env w0)%Q ->
  fst (_should_provide_guidance env w0) = Ok true
  /\ exists new,
       sent (snd (process_flight_situation flight_data env w)) = (sent w ++ new)%list
       /\ (List.length new <= 2)%nat
       /\ NoDup (map em_character new).
Proof.
  intros Hflag Hbase w0 Helapsed. split.
  - apply (gate_after_cooldown env w0 true); [exact Hbase | exact Helapsed |].
    subst w0. cbn. now rewrite Hflag.
  - destruct (cycle_adds flight_data env w)
      as (responding & Hnd & Hlen & new & entries & A & _ & _ & Hsub).
    exists new. split; [exact A |]. split.
    + apply subseq_length in Hsub. rewrite length_map in Hsub. lia.
    + eapply subseq_NoDup; eassumption.
Qed.

Lemma emergency_snapshot_cycle_witness :
  fst (_should_provide_guidance env_lucky
         (snd (_update_guidance_context emergency_cruise env_lucky
                 (__init__ env_lucky)))) = Ok true
  /\ exists new,
       sent (snd (process_flight_situation emergency_cruise env_lucky
                    (__init__ env_lucky)))
       = (sent (__init__ env_lucky) ++ new)%list
       /\ (List.length new <= 2)%nat
       /\ NoDup (map em_character new).
Proof.
  apply (emergency_snapshot_cycle emergency_cruise env_lucky (__init__ env_lucky)).
  - reflexivity.
  - vm_compute. discriminate.
  - vm_compute. discriminate.
Defined.

(** C1, as stated, fails: ten minutes after start-up an emergency snapshot
    in cruise makes two characters speak, Captain Murphy and then Sarah,
    whose professional level is 6. *)
Lemma emergency_snapshot_two_speakers :
  let w := __init__ env_lucky in
  let w' := snd (process_flight_situation emergency_cruise env_lucky w) in
  fd_emergency emergency_cruise = Some true
  /\ map em_character (sent w') = ["captain_murphy"; "sarah_spotter"]
  /\ option_map professional_level (dict_get (characters (self w)) "sarah_spotter")
     = Some 6
  /\ ~ (exists e ch,
           sent w' = (sent w ++ [e])%list
           /\ dict_get (characters (self w)) (em_character e) = Some ch
           /\ 8 <= professional_level ch).
Proof.
  cbv zeta. split; [reflexivity |]. split; [vm_compute; reflexivity |].
  split; [reflexivity |].
  intros (e & ch & H & _).
  apply (f_equal (@List.length _)) in H. vm_compute in H. discriminate H.
Qed.

(** The gate holds an emergency back like any other snapshot while the
    cooldown runs: no time has passed since start-up, nobody speaks. *)
Example emergency_snapshot_during_cooldown :
  let env := {| clock := fun _ => 0; entropy := fun _ => 0 |} in
  let r := process_flight_situation emergency_cruise env (__init__ env) in
  fst r = Ok tt /\ sent (snd r) = []
  /\ emergency_situation (guidance_context (self (snd r))) = true.
Proof. vm_compute. repeat split. Qed.

(** When only Sarah passes the filter, she answers the emergency alone. *)
Example emergency_snapshot_amateur_speaker :
  let env := {| clock := fun k => 600000000 * Z.of_nat k;
                entropy := fun k => if (k <? 3)%nat then 2 ^ 53 - 1 else
                                      if (k =? 5)%nat then 2 ^ 53 - 1 else 0 |} in
  map em_character
    (sent (snd (process_flight_situation emergency_cruise env (__init__ env))))
  = ["sarah_spotter"].
Proof. vm_compute. reflexivity. Qed.

(** ** C5: duplicates among the preferences *)

(** C5.  A cruise snapshot of an uncommon aircraft type prefers Captain
    Murphy, Sarah and Sarah again.  When Sarah alone passes the filter the
    preferred list is [sarah_spotter, sarah_spotter]; its length is 2, so
    with a draw below 0.2 the selector looks for a second speaker among the
    candidates other than Sarah, of which there are none, and
    [random.choice] raises [IndexError]: the selector returns no list. *)
Theorem selector_raises_on_duplicate_preference :
  let w := __init__ env_only_sarah in
  let w0 := snd (_update_guidance_context cessna_cruise env_only_sarah w) in
  let situation_analysis := _analyze_situation (guidance_context (self w0)) cessna_cruise in
  let w1 := snd (_should_provide_guidance env_only_sarah w0) in
  character_preferences situation_analysis
  = ["captain_murphy"; "sarah_spotter"; "sarah_spotter"]
  /\ situation_type situation_analysis = "routine"
  /\ eligible env_only_sarah w1 = ["sarah_spotter"]
  /\ fst (_select_responding_characters situation_analysis env_only_sarah w1)
     = Raise IndexError
  /\ process_flight_situation cessna_cruise env_only_sarah w
     = (Raise IndexError,
        snd (_select_responding_characters situation_analysis env_only_sarah w1)).
Proof. vm_compute. repeat split. Qed.

(** ** C4: five minutes between two emissions of a character *)

Lemma spaced_snoc (l : list Emission) (e : Emission) :
  spaced l ->
  (forall e1, In e1 l -> em_character e1 = em_character e ->
              em_time e1 + five_minutes <= em_time e) ->
  spaced (l ++ [e]).
Proof.
  intros Hl He l1 e1 l2 e2 l3 Heq Hsame.
  destruct (exists_last (l := e2 :: l3) ltac:(discriminate)) as (front & x & Hfront).
  assert (l ++ [e] = (l1 ++ e1 :: l2 ++ front) ++ [x])%list as Hsplit.
  { rewrite Heq, <- app_assoc. cbn [List.app]. rewrite <- app_assoc.
    now rewrite Hfront. }
  apply app_inj_tail in Hsplit as [Hl' <-].
  destruct front as [| y front].
  - cbn [List.app] in Hfront. inversion Hfront; subst.
    apply He; [| assumption].
    rewrite app_nil_r. apply in_or_app. right. now left.
  - cbn [List.app] in Hfront. inversion Hfront; subst.
    eapply Hl; [reflexivity | assumption].
Qed.

(** *** The registry under [mutate] *)

Lemma mutate_keys (key : string) (f : GuidanceCharacter -> GuidanceCharacter)
    (d : list (string * GuidanceCharacter)) :
  map fst (mutate key f d) = map fst d.
Proof.
  induction d as [| [k c] d IH]; [reflexivity |].
  cbn [mutate]. destruct (String.eqb key k); cbn [map fst]; [reflexivity |].
  now rewrite IH.
Qed.

Lemma in_keys {V} (d : list (string * V)) (k : string) (v : V) :
  In (k, v) d -> In k (map fst d).
Proof. intros H. change k with (fst (k, v)). now apply in_map. Qed.

Lemma mutate_In (key : string) (f : GuidanceCharacter -> GuidanceCharacter)
    (d : list (string * GuidanceCharacter)) (k : string) (c : GuidanceCharacter) :
  In (k, c) (mutate key f d) ->
  In (k, c) d \/ (k = key /\ exists c0, In (key, c0) d /\ c = f c0).
Proof.
  induction d as [| [k' c'] d IH]; [intros [] |].
  cbn [mutate]. destruct (String.eqb_spec key k') as [<- | Hne].
  - intros [H | H]; [| left; now right].
    inversion H; subst. right. split; [reflexivity |].
    exists c'. split; [now left | reflexivity].
  - intros [H | H]; [left; now left |].
    destruct (IH H) as [Hin | (-> & c0 & Hc0 & ->)]; [left; now right |].
    right. split; [reflexivity |]. exists c0. split; [now right | reflexivity].
Qed.

Lemma mutate_other (key : string) (f : GuidanceCharacter -> GuidanceCharacter)
    (d : list (string * GuidanceCharacter)) (k : string) (c : GuidanceCharacter) :
  k <> key -> In (k, c) d -> In (k, c) (mutate key f d).
Proof.
  intros Hne. induction d as [| [k' c'] d IH]; [intros [] |].
  cbn [mutate]. destruct (String.eqb_spec key k') as [<- | Hne'].
  - intros [H | H]; [inversion H; congruence | now right].
  - intros [H | H]; [now left | right; now apply IH].
Qed.

Lemma mutate_same (key : string) (f : GuidanceCharacter -> GuidanceCharacter)
    (d : list (string * GuidanceCharacter)) (c : GuidanceCharacter) :
  NoDup (map fst d) -> In (key, c) d -> In (key, f c) (mutate key f d).
Proof.
  induction d as [| [k' c'] d IH]; [intros _ [] |].
  intros Hn Hin. cbn [map fst] in Hn. inversion Hn as [| x xs Hx Hxs]; subst.
  cbn [mutate]. destruct (String.eqb_spec key k') as [<- | Hne'].
  - destruct Hin as [H | H]; [inversion H; subst; now left |].
    exfalso. apply Hx. eapply in_keys; eassumption.
  - destruct Hin as [H | H]; [inversion H; congruence |].
    right. now apply IH.
Qed.

Lemma NoDup_keys_unique {V} (d : list (string * V)) (k : string) (v v' : V) :
  NoDup (map fst d) -> In (k, v) d -> In (k, v') d -> v = v'.
Proof.
  induction d as [| [k0 v0] d IH]; [intros _ [] |].
  intros Hn H H'. cbn [map fst] in Hn. inversion Hn as [| x xs Hx Hxs]; subst.
  destruct H as [H | H], H' as [H' | H'].
  - congruence.
  - inversion H; subst. exfalso. apply Hx. eapply in_keys; eassumption.
  - inversion H'; subst. exfalso. apply Hx. eapply in_keys; eassumption.
  - now apply IH.
Qed.

Lemma dict_get_In {V} (d : list (string * V)) (k : string) (v : V) :
  dict_get d k = Some v -> In (k, v) d.
Proof.
  induction d as [| [k' v'] d IH]; [discriminate |].
  cbn [dict_get]. destruct (String.eqb_spec k k') as [-> | Hne].
  - intros H. inversion H; subst. now left.
  - intros H. right. now apply IH.
Qed.

(** *** The invariant of a session *)

Lemma invariant_init (env : Env) : session_invariant env (__init__ env).
Proof.
  split.
  - cbn. repeat constructor; cbn; intuition discriminate.
  - intros c ch t Hin Ht. cbn in Hin.
    repeat (destruct Hin as [Hin | Hin]; [inversion Hin; subst; discriminate Ht |]).
    destruct Hin.
  - intros e [].
  - intros l1 e1 l2 e2 l3 H. cbn in H. destruct l1; discriminate H.
Qed.

Lemma invariant_later (env : Env) (w w' : World) :
  monotone (clock env) ->
  session_invariant env w ->
  characters (self w') = characters (self w) ->
  sent w' = sent w ->
  (ticks w <= ticks w')%nat ->
  session_invariant env w'.
Proof.
  intros Hmono [Hk Hp Hh Hs] Hc Hn Ht.
  split; rewrite ?Hc, ?Hn; try assumption.
  intros c ch t Hin Hl. specialize (Hp c ch t Hin Hl).
  specialize (Hmono _ _ Ht). lia.
Qed.

Lemma invariant_spoken (env : Env) (c g situation_name : string) (w : World) :
  monotone (clock env) ->
  session_invariant env w ->
  (exists ch, In (c, ch) (characters (self w))) ->
  (forall ch, In (c, ch) (characters (self w)) -> rested (clock env (ticks w)) ch) ->
  session_invariant env (spoken env c g situation_name w).
Proof.
  intros Hmono [Hk Hp Hh Hs] [ch0 Hch0] Hrested.
  pose proof (Hmono (ticks w) (S (ticks w)) ltac:(lia)) as H01.
  pose proof (Hmono (S (ticks w)) (S (S (S (ticks w)))) ltac:(lia)) as H13.
  split; cbn [spoken self ticks sent set_guidance_context set_characters characters].
  - now rewrite mutate_keys.
  - intros k ch t Hin Ht.
    apply mutate_In in Hin as [Hin | (-> & c0 & _ & ->)].
    + specialize (Hp k ch t Hin Ht). lia.
    + cbn [has_spoken last_spoke] in Ht. inversion Ht; subst. lia.
  - assert (In (c, has_spoken (clock env (S (ticks w))) ch0)
              (mutate c (has_spoken (clock env (S (ticks w)))) (characters (self w))))
      as Hnew by now apply mutate_same.
    intros e He. apply in_app_or in He as [He | [<- | []]].
    + destruct (Hh e He) as (ch & t & Hin & Ht & Hle).
      destruct (String.eqb_spec (em_character e) c) as [Heq | Hne].
      * rewrite Heq in *.
        rewrite (NoDup_keys_unique _ _ _ _ Hk Hin Hch0) in Ht.
        exists (has_spoken (clock env (S (ticks w))) ch0), (clock env (S (ticks w))).
        split; [exact Hnew |]. split; [reflexivity |].
        specialize (Hp c ch0 t Hch0 Ht). lia.
      * exists ch, t. split; [now apply mutate_other |]. split; assumption.
    + cbn [em_character em_time].
      exists (has_spoken (clock env (S (ticks w))) ch0), (clock env (S (ticks w))).
      split; [exact Hnew |]. split; [reflexivity | exact H01].
  - apply spaced_snoc; [exact Hs |].
    intros e1 He1 Hsame. cbn [em_character em_time] in *.
    destruct (Hh e1 He1) as (ch & t & Hin & Ht & Hle).
    rewrite Hsame in Hin.
    specialize (Hrested ch Hin t Ht). lia.
Qed.

Lemma turns_invariant (env : Env) (situation_name : string) (responding : list string)
    (w w' : World) :
  monotone (clock env) ->
  turns env situation_name responding w w' ->
  forall now,
    session_invariant env w ->
    now <= clock env (ticks w) ->
    NoDup responding ->
    (forall c ch, In c responding -> In (c, ch) (characters (self w)) ->
                  rested now ch) ->
    session_invariant env w'.
Proof.
  intros Hmono.
  induction 1 as [responding w w' (Hs & Ht & Hn)
                 | c others w w1 w' (Hs & Ht & Hn) _ IH
                 | c g ch0 others w w1 w' (Hs & Ht & Hn) Hget _ IH];
    intros now Hinv Hnow Hnd Hrest.
  - eapply invariant_later; eauto; [now rewrite Hs | lia].
  - apply (IH now).
    + eapply invariant_later; eauto; [now rewrite Hs | lia].
    + now rewrite Ht.
    + now inversion Hnd.
    + intros c' ch Hc' Hin. rewrite Hs in Hin. apply (Hrest c'); [now right | exact Hin].
  - assert (session_invariant env w1) as Hinv1
        by (eapply invariant_later; eauto; [now rewrite Hs | lia]).
    inversion Hnd as [| x xs Hc Hothers]; subst.
    apply (IH now).
    + apply invariant_spoken; [exact Hmono | exact Hinv1 | |].
      * exists ch0. rewrite Hs. now apply dict_get_In.
      * intros ch Hin t Hl. rewrite Hs in Hin.
        specialize (Hrest c ch (or_introl eq_refl) Hin t Hl).
        rewrite Ht. lia.
    + cbn [spoken ticks]. rewrite Ht.
      pose proof (Hmono (ticks w) (S (S (S (ticks w)))) ltac:(lia)). lia.
    + exact Hothers.
    + intros c' ch Hc' Hin.
      cbn [spoken self set_guidance_context set_characters characters] in Hin.
      apply mutate_In in Hin as [Hin | (-> & _)]; [| contradiction].
      rewrite Hs in Hin. apply (Hrest c'); [now right | exact Hin].
Qed.

Lemma cycle_invariant (flight_data : FlightData) (env : Env) (w : World) :
  monotone (clock env) ->
  session_invariant env w ->
  session_invariant env (snd (process_flight_situation flight_data env w)).
Proof.
  intros Hmono Hinv.
  unfold process_flight_situation, _update_guidance_context.
  unfold bind at 1. unfold modify_self at 1. cbn [fst snd].
  set (w0 := {| self := _; ticks := ticks w; draws := draws w; sent := sent w |}).
  assert (session_invariant env w0) as Hinv0
      by (eapply invariant_later; eauto; reflexivity).
  unfold bind at 1.
  destruct (gate_frame env w0) as (go & w1 & -> & Hself1 & Hsent1 & Hticks1).
  assert (session_invariant env w1) as Hinv1
      by (eapply invariant_later; eauto; [now rewrite Hself1 | lia]).
  destruct go; cbn [negb fst snd]; [| exact Hinv1].
  unfold bind at 1. unfold get_self at 1. cbn [fst snd].
  set (situation_analysis := _analyze_situation (guidance_context (self w1)) flight_data).
  unfold bind at 1.
  destruct (select_spec situation_analysis env w1) as [(Hs2 & Ht2 & Hn2) Hl].
  cbn [after_tick self ticks sent] in Hs2, Ht2, Hn2.
  destruct (_select_responding_characters situation_analysis env w1)
    as [[responding | e] w2]; cbn [fst snd] in *.
  2: { eapply invariant_later; eauto; [now rewrite Hs2 | lia]. }
  assert (session_invariant env w2) as Hinv2
      by (eapply invariant_later; eauto; [now rewrite Hs2 | lia]).
  destruct (Hl responding eq_refl) as (_ & Hrested & Hnd & _).
  eapply (turns_invariant env _ responding w2 _ Hmono
            (speak_in_turn_turns _ situation_analysis flight_data responding env w2)
            (clock env (ticks w1))); [exact Hinv2 | | exact Hnd |].
  - rewrite Ht2. apply Hmono. lia.
  - intros c ch Hc Hin. rewrite Hs2 in Hin.
    destruct (Hrested c Hc) as (ch' & Hin' & Hr).
    now rewrite (NoDup_keys_unique _ _ _ _ (inv_keys _ _ Hinv1) Hin Hin').
Qed.

Lemma session_invariant_holds (snapshots : list FlightData) (env : Env) :
  monotone (clock env) ->
  forall w, session_invariant env w ->
            session_invariant env (run_cycles snapshots env w).
Proof.
  intros Hmono. induction snapshots as [| flight_data later IH]; intros w Hinv;
    cbn [run_cycles]; [exact Hinv |].
  apply IH. now apply cycle_invariant.
Qed.

(** C4.  With a clock that never goes back, in every state reached from
    start-up by calls of [process_flight_situation], two emissions of the
    same character lie at least five minutes (300 000 000 microseconds)
    apart: the later one is sent no earlier than five minutes after the
    time stored for the earlier one. *)
Theorem no_character_twice_within_five_minutes
    (snapshots : list FlightData) (env : Env) :
  monotone (clock env) ->
  forall l1 e1 l2 e2 l3,
    sent (run_cycles snapshots env (__init__ env))
    = (l1 ++ e1 :: l2 ++ e2 :: l3)%list ->
    em_character e1 = em_character e2 ->
    em_time e1 + 300000000 <= em_time e2.
Proof.
  intros Hmono.
  exact (inv_spaced _ _ (session_invariant_holds snapshots env Hmono _
                           (invariant_init env))).
Qed.

Lemma env_lucky_monotone : monotone (clock env_lucky).
Proof. intros i j Hij. cbn [clock env_lucky]. lia. Qed.

Lemma no_character_twice_witness :
  let s := sent (run_cycles [emergency_cruise; emergency_cruise] env_lucky
                   (__init__ env_lucky)) in
  exists e1 e2,
    nth_error s 0 = Some e1 /\ nth_error s 2 = Some e2
    /\ em_character e1 = em_character e2
    /\ em_time e1 + 300000000 <= em_time e2.
Proof.
  cbv zeta. eexists. eexists.
  split; [vm_compute; reflexivity |].
  split; [vm_compute; reflexivity |].
  split; [reflexivity |].
  eapply (no_character_twice_within_five_minutes
            [emergency_cruise; emergency_cruise] env_lucky env_lucky_monotone
            [] _ [_] _ [_]).
  - vm_compute. reflexivity.
  - reflexivity.
Defined.

(** Forty seconds per reading of the clock: in the second cycle Captain
    Murphy and Sarah are still resting, so the two controllers answer. *)
Example resting_characters_are_skipped :
  let env := {| clock := fun k => 40000000 * Z.of_nat k; entropy := fun _ => 0 |} in
  map (fun e => (em_character e, em_time e))
    (sent (run_cycles [emergency_cruise; emergency_cruise] env (__init__ env)))
  = [("captain_murphy", 120000000); ("sarah_spotter", 240000000);
     ("dublin_control", 440000000); ("approach_control", 560000000)].
Proof. vm_compute. reflexivity. Qed.

(** * Further properties of the pronunciation engine *)

(** ** Small numbers and negative numbers as keys *)

Lemma str_digit (n : Z) :
  0 <= n < 10 -> Py.str n = String (Py.digit_char n) "".
Proof.
  intros H. unfold Py.str, Py.str_nat.
  destruct (Z.ltb_spec n 0) as [Hneg | _]; [lia |].
  destruct (Z.to_nat (Z.log2 n)) as [| fuel]; cbn [Py.digits_of].
  - now rewrite Z.mod_small by lia.
  - destruct (Z.ltb_spec n 10) as [_ | Hge]; [| lia].
    now rewrite Z.mod_small by lia.
Qed.

Lemma str_two_digits (n : Z) :
  10 <= n < 100 ->
  Py.str n = String (Py.digit_char (n / 10)) (String (Py.digit_char (n mod 10)) "").
Proof.
  intros H. unfold Py.str, Py.str_nat.
  destruct (Z.ltb_spec n 0) as [Hneg | _]; [lia |].
  assert (3 <= Z.log2 n) as Hlog
      by (change 3 with (Z.log2 10); apply Z.log2_le_mono; lia).
  destruct (Z.to_nat (Z.log2 n)) as [| fuel] eqn:Hfuel; [lia |].
  cbn [Py.digits_of].
  destruct (Z.ltb_spec n 10) as [Hlt | _]; [lia |].
  assert (0 <= n / 10 < 10) as Hq
      by (split; [apply Z.div_pos; lia | apply Z.div_lt_upper_bound; lia]).
  destruct fuel as [| fuel]; cbn [Py.digits_of].
  - now rewrite (Z.mod_small (n / 10)) by lia.
  - destruct (Z.ltb_spec (n / 10) 10) as [_ | Hge]; [| lia].
    now rewrite (Z.mod_small (n / 10)) by lia.
Qed.

Lemma getitem_digit (n : Z) :
  0 <= n < 10 -> exists w, getitem AVIATION_NUMBERS (Py.str n) = Ok w.
Proof.
  intros H. rewrite str_digit by exact H.
  apply decimal_char_word, digit_char_decimal, H.
Qed.

Lemma getitem_negative (n : Z) :
  n < 0 -> getitem AVIATION_NUMBERS (Py.str n) = Raise (KeyError (Py.str n)).
Proof.
  intros H. unfold Py.str.
  destruct (Z.ltb_spec n 0) as [_ | Hge]; [reflexivity | lia].
Qed.

Lemma digit_words_str (n : Z) :
  0 <= n -> exists ws, digit_words (Py.str n) = Ok ws.
Proof. intros H. now apply digit_words_of_decimal, str_decimal. Qed.

Lemma remainder_part_ok (remainder : Z) :
  0 <= remainder < 100 -> exists parts, remainder_part remainder = Ok parts.
Proof.
  intros H. unfold remainder_part.
  destruct (0 <? remainder); [| eauto].
  destruct (Z.ltb_spec remainder 10) as [Hlt | Hge].
  - destruct (getitem_digit remainder) as [w ->]; [lia |]. cbn [rbind]. eauto.
  - destruct (digit_words_str remainder) as [ws ->]; [lia |]. cbn [rbind]. eauto.
Qed.

(** ** Altitudes *)

(** X1.  [pronounce_altitude] on an integer returns a phrase exactly when
    the altitude is not negative; a negative altitude raises [KeyError]
    with [str(altitude)] as the key. *)
Theorem pronounce_altitude_returns_iff_nonnegative (a : Z) :
  (0 <= a -> exists s, pronounce_altitude (PyInt a) = Ok s)
  /\ (a < 0 -> pronounce_altitude (PyInt a) = Raise (KeyError (Py.str a))).
Proof.
  cbn [pronounce_altitude]. unfold pronounce_altitude_int. split.
  - intros Ha.
    destruct (Z.leb_spec 18000 a) as [Hfl | Hlow]; cbn [andb].
    + destruct (a mod 100 =? 0).
      * assert (180 <= a / 100) by (apply Z.div_le_lower_bound; lia).
        destruct (Z.ltb_spec (a / 100) 100) as [Hs | _]; [lia |].
        destruct (digit_words_str (a / 100)) as [ws ->]; [lia |].
        cbn [rbind]. eauto.
      * unfold _pronounce_altitude_feet.
        destruct (Z.eqb_spec a 0) as [-> | _]; [lia |].
        destruct (Z.leb_spec 1000 a) as [_ | Hlt]; [| lia].
        assert (18 <= a / 1000) by (apply Z.div_le_lower_bound; lia).
        destruct (Z.eqb_spec (a / 1000) 1) as [H1 | _]; [lia |].
        destruct (digit_words_str (a / 1000)) as [ws ->]; [lia |].
        cbn [rbind].
        pose proof (Z.mod_pos_bound a 1000 ltac:(lia)) as Hm.
        assert (0 <= a mod 1000 / 100 < 10) as Hh
            by (split; [apply Z.div_pos; lia | apply Z.div_lt_upper_bound; lia]).
        destruct (0 <? a mod 1000 / 100);
          [destruct (getitem_digit _ Hh) as [h ->] |]; cbn [rbind];
          (destruct (remainder_part_ok (a mod 100)) as [parts ->];
           [apply Z.mod_pos_bound; lia | cbn [rbind]; eauto]).
    + unfold _pronounce_altitude_feet.
      destruct (Z.eqb_spec a 0) as [-> | Hnz]; [eauto |].
      destruct (Z.leb_spec 1000 a) as [Hk | Hlt].
      * assert (1 <= a / 1000) by (apply Z.div_le_lower_bound; lia).
        assert (exists p, (if a / 1000 =? 1 then Ok ["One Thousand"]
                           else let? thousands_digits := digit_words (Py.str (a / 1000))
                                in Ok [Py.join " " thousands_digits ++ " Thousand"])
                          = Ok p) as [p ->].
        { destruct (a / 1000 =? 1); [eauto |].
          destruct (digit_words_str (a / 1000)) as [ws ->]; [lia |].
          cbn [rbind]. eauto. }
        cbn [rbind].
        pose proof (Z.mod_pos_bound a 1000 ltac:(lia)) as Hm.
        assert (0 <= a mod 1000 / 100 < 10) as Hh
            by (split; [apply Z.div_pos; lia | apply Z.div_lt_upper_bound; lia]).
        destruct (0 <? a mod 1000 / 100);
          [destruct (getitem_digit _ Hh) as [h ->] |]; cbn [rbind];
          (destruct (remainder_part_ok (a mod 100)) as [parts ->];
           [apply Z.mod_pos_bound; lia | cbn [rbind]; eauto]).
      * destruct (Z.leb_spec 100 a) as [Hh | Hlt'].
        -- assert (0 <= a / 100 < 10) as Hq
               by (split; [apply Z.div_pos; lia | apply Z.div_lt_upper_bound; lia]).
           destruct (getitem_digit _ Hq) as [h ->]. cbn [rbind].
           destruct (remainder_part_ok (a mod 100)) as [parts ->];
             [apply Z.mod_pos_bound; lia | cbn [rbind]; eauto].
        -- destruct (Z.ltb_spec a 10) as [Hs | Hb].
           ++ destruct (getitem_digit a) as [w ->]; [lia |]. cbn [rbind]. eauto.
           ++ destruct (digit_words_str a) as [ws ->]; [lia |]. cbn [rbind]. eauto.
  - intros Ha.
    destruct (Z.leb_spec 18000 a) as [Hfl | _]; [lia |]. cbn [andb].
    unfold _pronounce_altitude_feet.
    destruct (Z.eqb_spec a 0) as [-> | _]; [lia |].
    destruct (Z.leb_spec 1000 a) as [Hk | _]; [lia |].
    destruct (Z.leb_spec 100 a) as [Hh | _]; [lia |].
    destruct (Z.ltb_spec a 10) as [_ | Hb]; [| lia].
    rewrite getitem_negative by exact Ha. reflexivity.
Qed.

(** X2.  A flight-level altitude is spoken as "Flight Level" followed by
    the decimal digits of [altitude // 100], one digit word per digit: the
    flight level is at least 180, so [_pronounce_flight_level_number], which
    is called below 100 only, is never reached. *)
Theorem flight_level_reads_digits (a : Z) :
  18000 <= a -> a mod 100 = 0 ->
  exists ws,
    digit_words (Py.str (a / 100)) = Ok ws
    /\ pronounce_altitude (PyInt a) = Ok ("Flight Level " ++ Py.join " " ws)
    /\ List.length ws = String.length (Py.str (a / 100))
    /\ Forall (fun w => In w number_words) ws.
Proof.
  intros Hge Hmod.
  assert (180 <= a / 100) by (apply Z.div_le_lower_bound; lia).
  destruct (digit_words_str (a / 100)) as [ws Hws]; [lia |].
  exists ws. split; [exact Hws |].
  destruct (digit_words_are_words _ _ Hws) as [Hall Hlen].
  split; [| split; assumption].
  cbn [pronounce_altitude]. unfold pronounce_altitude_int.
  destruct (Z.leb_spec 18000 a) as [_ | Hlt]; [| lia].
  destruct (Z.eqb_spec (a mod 100) 0) as [_ | Hne]; [| contradiction].
  cbn [andb].
  destruct (Z.ltb_spec (a / 100) 100) as [Hs | _]; [lia |].
  now rewrite Hws.
Qed.

Lemma flight_level_reads_digits_witness :
  exists ws,
    digit_words (Py.str (41000 / 100)) = Ok ws
    /\ pronounce_altitude (PyInt 41000) = Ok ("Flight Level " ++ Py.join " " ws)
    /\ List.length ws = String.length (Py.str (41000 / 100))
    /\ Forall (fun w => In w number_words) ws.
Proof.
  apply (flight_level_reads_digits 41000).
  - lia.
  - reflexivity.
Defined.

(** ** Speeds *)

(** X3.  [pronounce_speed] on an integer that is not negative reads the
    decimal digits of the speed one by one and appends the unit, whichever
    of its three branches is taken; a negative speed raises [KeyError] with
    [str(speed)] as the key. *)
Theorem pronounce_speed_reads_digits (speed : Z) (unit : string) :
  (0 <= speed ->
   exists ws, digit_words (Py.str speed) = Ok ws
              /\ pronounce_speed (PyInt speed) unit
                 = Ok (Py.join " " ws ++ " " ++ unit))
  /\ (speed < 0 ->
      pronounce_speed (PyInt speed) unit = Raise (KeyError (Py.str speed))).
Proof.
  cbn [pronounce_speed]. unfold pronounce_speed_int. split.
  - intros H.
    destruct (digit_words_str speed H) as [ws Hws]. exists ws.
    split; [exact Hws |].
    destruct (Z.eqb_spec speed 0) as [-> | Hnz].
    { inversion Hws; subst. reflexivity. }
    destruct (Z.ltb_spec speed 100) as [H100 | _]; [| now rewrite Hws].
    destruct (Z.ltb_spec speed 10) as [H10 | _]; [| now rewrite Hws].
    rewrite str_digit in * by lia.
    unfold digit_words in Hws. cbn [Py.chars comprehension] in Hws.
    destruct (getitem AVIATION_NUMBERS (String (Py.digit_char speed) "")) as [w | e];
      cbn [rbind] in *; [| discriminate Hws].
    inversion Hws; subst. reflexivity.
  - intros H.
    destruct (Z.eqb_spec speed 0) as [-> | _]; [lia |].
    destruct (Z.ltb_spec speed 100) as [_ | Hge]; [| lia].
    destruct (Z.ltb_spec speed 10) as [_ | Hge]; [| lia].
    now rewrite getitem_negative.
Qed.

(** ** Simple numbers *)

(** X4.  [_pronounce_number_simple] returns a phrase exactly when the
    number is not negative; a negative number raises [KeyError] with
    [str(number)] as the key. *)
Theorem pronounce_number_simple_returns_iff_nonnegative (number : Z) :
  (0 <= number -> exists s, _pronounce_number_simple number = Ok s)
  /\ (number < 0 ->
      _pronounce_number_simple number = Raise (KeyError (Py.str number))).
Proof.
  unfold _pronounce_number_simple. split.
  - intros H.
    destruct (Z.ltb_spec number 10) as [H10 | H10].
    { apply getitem_digit. lia. }
    destruct (Z.ltb_spec number 100) as [H100 | _].
    + assert (0 <= number / 10 < 10) as Ht
          by (split; [apply Z.div_pos; lia | apply Z.div_lt_upper_bound; lia]).
      destruct (getitem_digit _ Ht) as [t ->]. cbn [rbind].
      destruct (number mod 10 =? 0); [eauto |].
      destruct (getitem_digit (number mod 10)) as [o ->];
        [apply Z.mod_pos_bound; lia |].
      cbn [rbind]. eauto.
    + destruct (digit_words_str number H) as [ws ->]. cbn [rbind]. eauto.
  - intros H.
    destruct (Z.ltb_spec number 10) as [_ | Hge]; [| lia].
    now apply getitem_negative.
Qed.

(** ** Headings *)

Lemma headings_have_three_digits :
  forallb (fun k => match digit_words (format_03d (Z.of_nat k)) with
                    | Ok [_; _; _] => true
                    | _ => false
                    end) (seq 0 360) = true.
Proof. vm_compute. reflexivity. Qed.

Lemma heading_int_three_words (heading : Z) :
  exists a b c,
    In a number_words /\ In b number_words /\ In c number_words
    /\ pronounce_heading_int heading = Ok (a ++ " " ++ b ++ " " ++ c).
Proof.
  unfold pronounce_heading_int.
  pose proof (Z.mod_pos_bound heading 360 ltac:(lia)) as Hm.
  pose proof headings_have_three_digits as Hall.
  rewrite forallb_forall in Hall.
  specialize (Hall (Z.to_nat (heading mod 360))).
  rewrite Z2Nat.id in Hall by lia.
  assert (In (Z.to_nat (heading mod 360)) (seq 0 360)) as Hin
      by (apply in_seq; lia).
  specialize (Hall Hin).
  destruct (digit_words (format_03d (heading mod 360))) as [ws | e] eqn:Hws;
    [| discriminate Hall].
  destruct ws as [| a [| b [| c [| d ws]]]]; try discriminate Hall.
  apply digit_words_are_words in Hws as [Hw _].
  inversion Hw as [| ? ? Ha Hw1]; subst.
  inversion Hw1 as [| ? ? Hb Hw2]; subst.
  inversion Hw2 as [| ? ? Hc _]; subst.
  exists a, b, c. repeat split; assumption.
Qed.

(** X5.  [pronounce_heading] on an integer never raises: the heading is
    reduced modulo 360 and spoken as exactly three digit words, so headings
    that differ by a multiple of 360 are spoken alike. *)
Theorem pronounce_heading_three_words (heading k : Z) :
  (exists a b c,
      In a number_words /\ In b number_words /\ In c number_words
      /\ pronounce_heading (PyInt heading) = Ok (a ++ " " ++ b ++ " " ++ c))
  /\ pronounce_heading (PyInt (heading + 360 * k)) = pronounce_heading (PyInt heading).
Proof.
  cbn [pronounce_heading]. split; [apply heading_int_three_words |].
  unfold pronounce_heading_int.
  replace ((heading + 360 * k) mod 360) with (heading mod 360); [reflexivity |].
  rewrite Z.mul_comm, Z.mod_add by lia. reflexivity.
Qed.

Lemma int_raises_ValueError (s : string) (e : exn) :
  Py.int s = Raise e -> e = ValueError.
Proof.
  unfold Py.int.
  destruct (Py.strip s) as [| c t]; [intros H; inversion H; reflexivity |].
  destruct (Ascii.eqb c "-"); [| destruct (Ascii.eqb c "+")];
    destruct (Py.parse_digits _ _ _); intros H; inversion H; reflexivity.
Qed.

(** X6.  [pronounce_heading] on a string never raises either: when [int]
    accepts the string without its degree signs the heading is spoken as
    that integer, and when [int] rejects it the string comes back
    unchanged. *)
Theorem pronounce_heading_string_total (s : string) :
  (exists r, pronounce_heading (PyStr s) = Ok r)
  /\ (forall n, Py.int (Py.strip (Py.replace degree_sign "" s)) = Ok n ->
                pronounce_heading (PyStr s) = pronounce_heading (PyInt n))
  /\ (forall e, Py.int (Py.strip (Py.replace degree_sign "" s)) = Raise e ->
                pronounce_heading (PyStr s) = Ok s).
Proof.
  cbn [pronounce_heading].
  destruct (Py.int (Py.strip (Py.replace degree_sign "" s))) as [n | e] eqn:Hint.
  - split; [| split; [intros m Hm; now inversion Hm | intros e He; discriminate He]].
    destruct (heading_int_three_words n) as (a & b & c & _ & _ & _ & H). eauto.
  - apply int_raises_ValueError in Hint. subst.
    split; [eauto |]. split; [intros n Hn; discriminate Hn | reflexivity].
Qed.

Example heading_examples :
  pronounce_heading (PyInt 5) = Ok "Zero Zero Five"
  /\ pronounce_heading (PyInt (-10)) = Ok "Three Five Zero"
  /\ pronounce_heading (PyInt 360) = Ok "Zero Zero Zero"
  /\ pronounce_heading (PyStr "090") = Ok "Zero Niner Zero"
  /\ pronounce_heading (PyStr "north") = Ok "north".
Proof. repeat split; reflexivity. Qed.

(** ** ICAO codes *)

Lemma airport_table_spells (code pronunciation : string) :
  dict_get airport_pronunciations code = Some pronunciation ->
  (let? parts := comprehension spell_character (Py.chars code) in
   Ok (Py.join " " parts)) = Ok pronunciation.
Proof.
  intros H. apply dict_get_In in H. unfold airport_pronunciations in H.
  cbn [In] in H.
  repeat (destruct H as [H | H]; [inversion H; subst; reflexivity |]).
  destruct H.
Qed.

Lemma spell_ascii_character (c : ascii) :
  Py.is_ascii c = true -> exists part, spell_character (String c "") = Ok part.
Proof.
  intros H. destruct c as [b0 b1 b2 b3 b4 b5 b6 b7].
  destruct b0, b1, b2, b3, b4, b5, b6, b7; try discriminate H;
    eexists; reflexivity.
Qed.

Lemma upper_char_ascii (c : ascii) :
  Py.is_ascii c = true -> Py.is_ascii (Py.upper_char c) = true.
Proof.
  intros H. destruct c as [b0 b1 b2 b3 b4 b5 b6 b7].
  destruct b0, b1, b2, b3, b4, b5, b6, b7; try discriminate H; reflexivity.
Qed.

Lemma spell_ascii_string (s : string) :
  Py.all_chars Py.is_ascii s = true ->
  exists parts, comprehension spell_character (Py.chars (Py.upper s)) = Ok parts
                /\ List.length parts = String.length s.
Proof.
  induction s as [| c s IH]; intros H; cbn [Py.upper Py.chars comprehension].
  - exists []. split; reflexivity.
  - cbn [Py.all_chars] in H. apply andb_prop in H as [Hc Hs].
    destruct (spell_ascii_character _ (upper_char_ascii c Hc)) as [part ->].
    destruct (IH Hs) as (parts & -> & Hlen).
    cbn [rbind]. exists (part :: parts). split; [reflexivity |].
    cbn [List.length String.length]. now rewrite Hlen.
Qed.

(** X7.  On an ASCII string [pronounce_icao_code] never raises and its
    result is the spelling of the upper-cased code, one part per character
    joined by spaces: the curated airport table holds exactly the phrases
    that spelling gives, so the lookup never changes the result, and the
    empty code gives the empty string. *)
Theorem pronounce_icao_code_spells (icao_code : string) :
  Py.all_chars Py.is_ascii icao_code = true ->
  exists parts,
    comprehension spell_character (Py.chars (Py.upper icao_code)) = Ok parts
    /\ List.length parts = String.length icao_code
    /\ pronounce_icao_code icao_code = Ok (Py.join " " parts).
Proof.
  intros H. destruct (spell_ascii_string icao_code H) as (parts & Hparts & Hlen).
  exists parts. split; [exact Hparts |]. split; [exact Hlen |].
  unfold pronounce_icao_code.
  destruct (String.eqb_spec icao_code "") as [-> | Hne].
  { inversion Hparts; subst. reflexivity. }
  destruct (dict_get airport_pronunciations (Py.upper icao_code))
    as [pronunciation |] eqn:Htable.
  - apply airport_table_spells in Htable. rewrite Hparts in Htable.
    cbn [rbind] in Htable. now inversion Htable.
  - now rewrite Hparts.
Qed.

Lemma pronounce_icao_code_spells_witness :
  exists parts,
    comprehension spell_character (Py.chars (Py.upper "eidw")) = Ok parts
    /\ List.length parts = String.length "eidw"
    /\ pronounce_icao_code "eidw" = Ok (Py.join " " parts).
Proof.
  apply (pronounce_icao_code_spells "eidw"). reflexivity.
Defined.

Example icao_examples :
  pronounce_icao_code "EIDW" = Ok "Echo India Delta Whiskey"
  /\ pronounce_icao_code "abc123" = Ok "Alpha Bravo Charlie One Two Three"
  /\ pronounce_icao_code "EI-9" = Ok "Echo India - Niner"
  /\ pronounce_icao_code "" = Ok "".
Proof. repeat split; reflexivity. Qed.

(** ** Times *)

Lemma replace_absent (c0 : ascii) (old_tail new s : string) :
  Py.contains c0 s = false -> Py.replace (String c0 old_tail) new s = s.
Proof.
  unfold Py.replace.
  induction s as [| c s IH]; intros H; [reflexivity |].
  cbn [Py.contains] in H. apply orb_false_elim in H as [Hc Hs].
  cbn [Py.replace_from String.prefix].
  destruct (ascii_dec c0 c) as [-> | _];
    [rewrite Ascii.eqb_refl in Hc; discriminate Hc |].
  now rewrite IH.
Qed.

Lemma replace_suffix_char (c0 : ascii) (s : string) :
  Py.contains c0 s = false ->
  Py.replace (String c0 "") "" (s ++ String c0 "") = s.
Proof.
  unfold Py.replace.
  induction s as [| c s IH]; intros H.
  - cbn [String.append Py.replace_from String.prefix].
    destruct (ascii_dec c0 c0) as [_ | Hne]; [reflexivity | contradiction].
  - cbn [Py.contains] in H. apply orb_false_elim in H as [Hc Hs].
    cbn [String.append Py.replace_from String.prefix].
    destruct (ascii_dec c0 c) as [-> | _];
      [rewrite Ascii.eqb_refl in Hc; discriminate Hc |].
    now rewrite IH.
Qed.

Lemma decimal_digit_facts (c : ascii) :
  Py.is_decimal_digit c = true ->
  Ascii.eqb "Z" c = false /\ Ascii.eqb "U" c = false /\ Ascii.eqb "G" c = false
  /\ Ascii.eqb ":" c = false /\ Py.isspace c = false /\ Py.isdigit_char c = true.
Proof.
  intros H. destruct c as [b0 b1 b2 b3 b4 b5 b6 b7].
  destruct b0, b1, b2, b3, b4, b5, b6, b7; try discriminate H;
    repeat split; reflexivity.
Qed.

Lemma decimal_string_facts (s : string) :
  Py.all_chars Py.is_decimal_digit s = true ->
  Py.contains "Z" s = false /\ Py.contains "U" s = false
  /\ Py.contains "G" s = false /\ Py.contains ":" s = false
  /\ Py.strip s = s /\ Py.all_chars Py.isdigit_char s = true.
Proof.
  unfold Py.strip.
  induction s as [| c s IH]; intros H; [repeat split; reflexivity |].
  cbn [Py.all_chars] in H. apply andb_prop in H as [Hc Hs].
  destruct (decimal_digit_facts c Hc) as (HZ & HU & HG & Hcolon & Hsp & Hd).
  destruct (IH Hs) as (IZ & IU & IG & Icolon & Istrip & Id).
  cbn [Py.contains Py.all_chars Py.lstrip]. rewrite HZ, HU, HG, Hcolon, Hsp, Hd.
  repeat split; try assumption.
  assert (Py.rstrip s = s) as Hr.
  { destruct s as [| c' s']; [reflexivity |].
    cbn [Py.all_chars] in Hs. apply andb_prop in Hs as [Hc' _].
    destruct (decimal_digit_facts c' Hc') as (_ & _ & _ & _ & Hsp' & _).
    cbn [Py.lstrip] in Istrip. now rewrite Hsp' in Istrip. }
  cbn [Py.rstrip]. rewrite Hr.
  destruct s; [now rewrite Hsp | reflexivity].
Qed.

Lemma clean_decimal (s : string) :
  Py.all_chars Py.is_decimal_digit s = true ->
  Py.strip (Py.replace "GMT" "" (Py.replace "UTC" "" (Py.replace "Z" "" s))) = s.
Proof.
  intros H. destruct (decimal_string_facts s H) as (HZ & HU & HG & _ & Hstrip & _).
  rewrite (replace_absent "Z" "" "" s HZ), (replace_absent "U" "TC" "" s HU),
    (replace_absent "G" "MT" "" s HG).
  exact Hstrip.
Qed.

Lemma digit_words_four (s : string) :
  Py.all_chars Py.is_decimal_digit s = true -> String.length s = 4%nat ->
  exists a b c d,
    digit_words s = Ok [a; b; c; d]
    /\ Forall (fun w => In w number_words) [a; b; c; d].
Proof.
  intros H Hlen. destruct (digit_words_of_decimal s H) as [ws Hws].
  destruct (digit_words_are_words s ws Hws) as [Hall Hl]. rewrite Hlen in Hl.
  destruct ws as [| a [| b [| c [| d [| e ws]]]]]; try discriminate Hl.
  exists a, b, c, d. split; assumption.
Qed.

Lemma pronounce_time_four_digits (time_str s : string) :
  Py.strip (Py.replace "GMT" "" (Py.replace "UTC" "" (Py.replace "Z" "" time_str))) = s ->
  Py.all_chars Py.is_decimal_digit s = true -> String.length s = 4%nat ->
  exists a b c d,
    digit_words s = Ok [a; b; c; d]
    /\ Forall (fun w => In w number_words) [a; b; c; d]
    /\ pronounce_time time_str
       = Ok (a ++ " " ++ b ++ " " ++ c ++ " " ++ d ++ " hours").
Proof.
  intros Hclean H Hlen.
  destruct (digit_words_four s H Hlen) as (a & b & c & d & Hws & Hall).
  exists a, b, c, d. split; [exact Hws |]. split; [exact Hall |].
  unfold pronounce_time. rewrite Hclean.
  destruct (decimal_string_facts s H) as (_ & _ & _ & Hcolon & _ & Hdigit).
  rewrite Hcolon. unfold Py.len. rewrite Hlen.
  assert (Py.isdigit s = true) as ->
      by (destruct s; [discriminate Hlen | exact Hdigit]).
  cbn [Z.of_nat Z.eqb Pos.eqb andb Pos.of_succ_nat Pos.succ].
  now rewrite Hws.
Qed.

(** X8.  For a time written as four decimal digits, [pronounce_time]
    speaks the four digits and appends "hours", and the same time with the
    suffix [Z] is spoken alike. *)
Theorem pronounce_time_ignores_Z (s : string) :
  Py.all_chars Py.is_decimal_digit s = true -> String.length s = 4%nat ->
  exists a b c d,
    digit_words s = Ok [a; b; c; d]
    /\ pronounce_time s = Ok (a ++ " " ++ b ++ " " ++ c ++ " " ++ d ++ " hours")
    /\ pronounce_time (s ++ "Z") = pronounce_time s.
Proof.
  intros H Hlen.
  destruct (pronounce_time_four_digits s s (clean_decimal s H) H Hlen)
    as (a & b & c & d & Hws & _ & Ht).
  exists a, b, c, d. split; [exact Hws |]. split; [exact Ht |].
  destruct (decimal_string_facts s H) as (HZ & HU & HG & _ & Hstrip & _).
  destruct (pronounce_time_four_digits (s ++ "Z") s)
    as (a' & b' & c' & d' & Hws' & _ & Ht'); [| exact H | exact Hlen |].
  - rewrite (replace_suffix_char "Z" s HZ), (replace_absent "U" "TC" "" s HU),
      (replace_absent "G" "MT" "" s HG).
    exact Hstrip.
  - rewrite Hws in Hws'. inversion Hws'; subst. now rewrite Ht, Ht'.
Qed.

Lemma pronounce_time_ignores_Z_witness :
  exists a b c d,
    digit_words "0930" = Ok [a; b; c; d]
    /\ pronounce_time "0930"
       = Ok (a ++ " " ++ b ++ " " ++ c ++ " " ++ d ++ " hours")
    /\ pronounce_time ("0930" ++ "Z") = pronounce_time "0930".
Proof.
  apply (pronounce_time_ignores_Z "0930"); reflexivity.
Defined.

(** X9.  A time written as three decimal digits is spoken as the same
    digits after a leading zero. *)
Theorem pronounce_time_three_digits (s : string) :
  Py.all_chars Py.is_decimal_digit s = true -> String.length s = 3%nat ->
  pronounce_time s = pronounce_time ("0" ++ s)
  /\ exists r, pronounce_time s = Ok r.
Proof.
  intros H Hlen.
  assert (Py.all_chars Py.is_decimal_digit ("0" ++ s) = true) as H0 by exact H.
  assert (String.length ("0" ++ s) = 4%nat) as Hlen0
      by (cbn [String.append String.length]; now rewrite Hlen).
  destruct (pronounce_time_four_digits _ _ (clean_decimal _ H0) H0 Hlen0)
    as (a & b & c & d & Hws & _ & Ht).
  assert (pronounce_time s = pronounce_time ("0" ++ s)) as Hsame.
  { rewrite Ht. unfold pronounce_time. rewrite (clean_decimal s H).
    destruct (decimal_string_facts s H) as (_ & _ & _ & Hcolon & _ & Hdigit).
    rewrite Hcolon. unfold Py.len. rewrite Hlen.
    assert (Py.isdigit s = true) as ->
        by (destruct s; [discriminate Hlen | exact Hdigit]).
    cbn [Z.of_nat Z.eqb Pos.eqb andb Pos.of_succ_nat Pos.succ].
    now rewrite Hws. }
  split; [exact Hsame |]. rewrite Hsame, Ht. eauto.
Qed.

Lemma pronounce_time_three_digits_witness :
  pronounce_time "430" = pronounce_time ("0" ++ "430")
  /\ exists r, pronounce_time "430" = Ok r.
Proof.
  apply (pronounce_time_three_digits "430"); reflexivity.
Defined.

(** * Further properties of the guidance characters *)

(** ** Every template gives a message that is not empty *)

Lemma contains_app (c : ascii) (a b : string) :
  Py.contains c (a ++ b) = Py.contains c a || Py.contains c b.
Proof.
  induction a as [| d a IH]; cbn [String.append Py.contains]; [reflexivity |].
  now rewrite IH, orb_assoc.
Qed.

Lemma contains_truthy (c : ascii) (s : string) :
  Py.contains c s = true -> truthy s = true.
Proof. destruct s; [discriminate | reflexivity]. Qed.

Lemma prefix_jumps_no (c : ascii) (old s : string) :
  String.prefix old s = true -> Py.contains c old = false ->
  jumps_no c (String.length old) s.
Proof.
  revert s. induction old as [| o old IH]; intros s Hp Hc; [exact I |].
  destruct s as [| d s]; [exact I |].
  cbn [String.prefix] in Hp. destruct (ascii_dec o d) as [<- | _]; [| discriminate Hp].
  cbn [Py.contains] in Hc. apply orb_false_elim in Hc as [Ho Hold].
  cbn [String.length jumps_no]. split; [exact Ho | now apply IH].
Qed.

Lemma replace_from_keeps (c o : ascii) (old : string) (s : string) :
  Py.contains c (String o old) = false ->
  forall skip, jumps_no c skip s ->
    Py.contains c (Py.replace_from (String o old) "" skip s) = Py.contains c s.
Proof.
  intros Hc. induction s as [| d s IH]; intros skip Hj; [reflexivity |].
  cbn [Py.replace_from]. destruct skip as [| k].
  - destruct (String.prefix (String o old) (String d s)) eqn:Hp.
    + pose proof (prefix_jumps_no c _ _ Hp Hc) as Hj'.
      cbn [String.length jumps_no] in Hj'. destruct Hj' as [Hd Hj'].
      cbn [String.append String.length Nat.sub]. rewrite Nat.sub_0_r.
      cbn [Py.contains]. rewrite Hd. now apply IH.
    + cbn [Py.contains]. f_equal. now apply IH.
  - cbn [jumps_no] in Hj. destruct Hj as [Hd Hj].
    cbn [Py.contains]. rewrite Hd. now apply IH.
Qed.

(** Removing the occurrences of a word keeps every character that the word
    does not hold. *)
Lemma replace_keeps (c o : ascii) (old s : string) :
  Py.contains c (String o old) = false ->
  Py.contains c (Py.replace (String o old) "" s) = Py.contains c s.
Proof. intros Hc. apply replace_from_keeps; [exact Hc | destruct s; exact I]. Qed.

Lemma template_has_full_stop (callsign : string) (p : GuidancePersonality)
    (t : string) :
  In t (templates callsign p) ->
  match p with
  | ENTHUSIAST_SPOTTER => Py.contains "!" t = true
  | _ => Py.contains "." t = true
  end.
Proof.
  destruct p; cbn [templates In]; intros H;
    repeat (destruct H as [<- | H];
            [rewrite ?contains_app; cbn; now rewrite ?orb_true_r |]);
    destruct H.
Qed.

Lemma template_guidance_spec (character : GuidanceCharacter)
    (situation_analysis : SituationAnalysis) (flight_data : FlightData)
    (env : Env) (w : World) :
  exists guidance,
    fst (_generate_template_guidance character situation_analysis flight_data env w)
    = Ok guidance
    /\ truthy guidance = true.
Proof.
  unfold _generate_template_guidance. run.
  set (callsign := aircraft_callsign (guidance_context (self w))).
  pose proof (template_has_full_stop callsign (personality character)) as Hmark.
  destruct (random_choice_run (templates callsign (personality character)) env w)
    as [[Hnil _] | (g & Hg & ->)].
  { destruct (personality character); discriminate Hnil. }
  specialize (Hmark g Hg). cbn [fst snd].
  destruct (personality character).
  - rewrite random_random_run. destruct (Qltb _ _); cbn [fst snd].
    + match goal with
      | |- context [random_choice ?l env ?w'] =>
          destruct (random_choice_run l env w') as [[Hnil _] | (x & _ & ->)];
            [discriminate Hnil |]
      end.
      cbn [fst]. eexists. split; [reflexivity |].
      apply (contains_truthy "."). rewrite !contains_app, Hmark.
      now rewrite !orb_true_r.
    + eexists. split; [reflexivity |]. now apply (contains_truthy ".").
  - cbn [fst]. eexists. split; [reflexivity |].
    apply (contains_truthy ".").
    rewrite !replace_keeps by reflexivity. exact Hmark.
  - eexists. split; [reflexivity |]. now apply (contains_truthy ".").
  - eexists. split; [reflexivity |]. now apply (contains_truthy ".").
  - eexists. split; [reflexivity |]. now apply (contains_truthy "!").
  - eexists. split; [reflexivity |]. now apply (contains_truthy ".").
Qed.

Lemma character_guidance_spec (character_name : string)
    (situation_analysis : SituationAnalysis) (flight_data : FlightData)
    (env : Env) (w : World) (ch : GuidanceCharacter) :
  dict_get (characters (self w)) character_name = Some ch ->
  exists guidance,
    fst (_generate_character_guidance character_name situation_analysis
           flight_data env w) = Ok guidance
    /\ truthy guidance = true.
Proof.
  intros Hch. unfold _generate_character_guidance, getitem. run.
  rewrite Hch. apply template_guidance_spec.
Qed.

(** ** The status query and mixed sessions *)

Lemma same_state_refl (w : World) : same_state w w.
Proof. repeat split. Qed.

Lemma same_state_trans (w1 w2 w3 : World) :
  same_state w1 w2 -> same_state w2 w3 -> same_state w1 w3.
Proof.
  intros (A1 & B1 & C1 & D1) (A2 & B2 & C2 & D2). repeat split; congruence.
Qed.

Lemma only_draws_same_state (w w' : World) : only_draws w w' -> same_state w w'.
Proof. intros (Hs & _ & Hn). unfold same_state, history. now rewrite Hs, Hn. Qed.

(** The anatomy of a cycle: the context is updated, the gate is asked, and
    when it opens the selector is asked and the chosen characters speak in
    turn. *)
Lemma cycle_unfold (flight_data : FlightData) (env : Env) (w : World) :
  process_flight_situation flight_data env w
  = match _should_provide_guidance env
            (snd (_update_guidance_context flight_data env w)) with
    | (Ok true, w1) =>
        let situation_analysis :=
          _analyze_situation (guidance_context (self w1)) flight_data in
        match _select_responding_characters situation_analysis env w1 with
        | (Ok responding, w2) =>
            speak_in_turn (List.length responding) situation_analysis flight_data
              responding env w2
        | (Raise e, w2) => (Raise e, w2)
        end
    | (Ok false, w1) => (Ok tt, w1)
    | (Raise e, w1) => (Raise e, w1)
    end.
Proof.
  unfold process_flight_situation, _update_guidance_context.
  unfold bind, modify_self, get_self, ret. cbn [fst snd].
  destruct (_should_provide_guidance env _) as [[[|] | e] w1]; cbn [negb fst snd];
    reflexivity.
Qed.

Lemma cycle_cases (flight_data : FlightData) (env : Env) (w : World) :
  let w0 := snd (_update_guidance_context flight_data env w) in
  exists go w1,
    _should_provide_guidance env w0 = (Ok go, w1)
    /\ self w1 = self w0 /\ sent w1 = sent w /\ ticks w1 = S (ticks w)
    /\ same_state w w1
    /\ (if go then
          let situation_analysis :=
            _analyze_situation (guidance_context (self w1)) flight_data in
          exists r w2,
            _select_responding_characters situation_analysis env w1 = (r, w2)
            /\ only_draws (after_tick w1) w2
            /\ match r with
               | Raise e =>
                   process_flight_situation flight_data env w = (Raise e, w2)
               | Ok responding =>
                   process_flight_situation flight_data env w
                   = speak_in_turn (List.length responding) situation_analysis
                       flight_data responding env w2
               end
        else process_flight_situation flight_data env w = (Ok tt, w1)).
Proof.
  intros w0. rewrite cycle_unfold. fold w0.
  destruct (gate_frame env w0) as (go & w1 & Hgate & Hself1 & Hsent1 & Hticks1).
  rewrite Hgate. exists go, w1.
  split; [reflexivity |]. split; [exact Hself1 |]. split; [exact Hsent1 |].
  split; [exact Hticks1 |].
  split.
  { unfold same_state, history. rewrite Hself1, Hsent1. repeat split. }
  destruct go; [| reflexivity].
  cbv zeta.
  set (situation_analysis := _analyze_situation (guidance_context (self w1)) flight_data).
  destruct (select_spec situation_analysis env w1) as [Hd _].
  destruct (_select_responding_characters situation_analysis env w1)
    as [[responding | e] w2]; cbn [fst snd] in *;
    eexists; eexists; (split; [reflexivity |]); (split; [exact Hd |]); reflexivity.
Qed.

Section Preservation.

Variable env : Env.
Variable P : World -> Prop.

Hypothesis P_same : forall w w', same_state w w' -> P w -> P w'.
Hypothesis P_spoken : forall c g situation_name w ch,
    dict_get (characters (self w)) c = Some ch ->
    P w -> P (spoken env c g situation_name w).

Lemma turns_preserve (situation_name : string) (responding : list string)
    (w w' : World) :
  turns env situation_name responding w w' -> P w -> P w'.
Proof.
  induction 1 as [responding w w' Hd
                 | c others w w1 w' Hd _ IH
                 | c g ch others w w1 w' Hd Hget _ IH]; intros HP.
  - eapply P_same; [apply only_draws_same_state; exact Hd | exact HP].
  - apply IH. eapply P_same; [apply only_draws_same_state; exact Hd | exact HP].
  - apply IH. eapply P_spoken.
    + destruct Hd as (Hs & _). rewrite Hs. exact Hget.
    + eapply P_same; [apply only_draws_same_state; exact Hd | exact HP].
Qed.

Lemma cycle_preserves (flight_data : FlightData) (w : World) :
  P w -> P (snd (process_flight_situation flight_data env w)).
Proof.
  intros HP.
  destruct (cycle_cases flight_data env w)
    as (go & w1 & _ & _ & _ & _ & Hsame & Hgo).
  assert (P w1) as HP1 by (eapply P_same; eassumption).
  destruct go; [| now rewrite Hgo].
  destruct Hgo as (r & w2 & _ & Hd & Hr).
  assert (P w2) as HP2.
  { eapply P_same; [| exact HP1].
    destruct Hd as (Hs & _ & Hn). cbn [after_tick self sent] in Hs, Hn.
    unfold same_state, history. rewrite Hs, Hn. repeat split. }
  destruct r as [responding | e]; rewrite Hr; [| exact HP2].
  eapply turns_preserve; [apply speak_in_turn_turns | exact HP2].
Qed.

Hypothesis P_output : forall w w', output_step w w' -> P w -> P w'.

Lemma emergency_preserves (w : World) :
  P w -> P (snd (handle_emergency_situation env w)).
Proof.
  intros HP. unfold handle_emergency_situation. run.
  set (w0 := {| self := _; ticks := ticks w; draws := draws w; sent := sent w |}).
  assert (same_state w w0) as H0 by (repeat split).
  destruct (map fst _) as [| selected_char others];
    [eapply P_same; eassumption |].
  pose proof (emergency_guidance_only_draws selected_char env w0) as Hd.
  destruct (_generate_emergency_guidance selected_char env w0) as [[g | e] w1];
    cbn [snd] in *.
  2: { eapply P_same; [| exact HP].
       eapply same_state_trans; [exact H0 | exact (only_draws_same_state _ _ Hd)]. }
  assert (P w1) as HP1.
  { eapply P_same; [| exact HP].
    eapply same_state_trans; [exact H0 | exact (only_draws_same_state _ _ Hd)]. }
  destruct (truthy g); [| exact HP1].
  rewrite output_guidance_run. cbn [snd].
  eapply P_output; [| exact HP1].
  eexists. repeat split.
Qed.

Lemma force_preserves (character_name : string) (situation_override : option string)
    (w : World) :
  P w -> P (snd (force_character_guidance character_name situation_override env w)).
Proof.
  intros HP. unfold force_character_guidance. run.
  destruct (dict_get (characters (self w)) character_name) as [ch |]; [| exact HP].
  match goal with
  | |- context [_generate_character_guidance ?c ?a ?f env w] =>
      pose proof (character_guidance_only_draws c a f env w) as Hd;
      destruct (_generate_character_guidance c a f env w) as [[g | e] w1]
  end; cbn [snd] in *.
  2: { eapply P_same; [exact (only_draws_same_state _ _ Hd) | exact HP]. }
  assert (P w1) as HP1
      by (eapply P_same; [exact (only_draws_same_state _ _ Hd) | exact HP]).
  destruct (truthy g); [| exact HP1].
  rewrite output_guidance_run. cbn [snd].
  eapply P_output; [| exact HP1].
  eexists. repeat split.
Qed.

Lemma session_preserves (requests : list request) :
  forall w, P w -> P (run_session requests env w).
Proof.
  induction requests as [| r later IH]; intros w HP; cbn [run_session];
    [exact HP |].
  apply IH. destruct r; cbn [serve].
  - now apply cycle_preserves.
  - now apply emergency_preserves.
  - now apply force_preserves.
  - eapply P_same; [| exact HP]. repeat split.
Qed.

End Preservation.

(** ** The time of the last guidance *)

Lemma latest_same (env : Env) (w w' : World) :
  same_state w w' -> latest env w -> latest env w'.
Proof. intros (_ & Hl & Hn & _). unfold latest. now rewrite Hl, Hn. Qed.

Lemma latest_output (env : Env) (w w' : World) :
  output_step w w' -> latest env w -> latest env w'.
Proof.
  intros (e & Hn & Hl & _) _. unfold latest. now rewrite Hl, Hn, rev_unit.
Qed.

Lemma latest_spoken (env : Env) (c g situation_name : string) (w : World) :
  latest env (spoken env c g situation_name w).
Proof. unfold latest. cbn [spoken self sent]. now rewrite rev_unit. Qed.

(** X10.  Whatever entry points are called after construction, and in
    whatever order, [last_guidance_time] is the time of the most recent
    emission, and the time of construction as long as nothing was sent. *)
Theorem last_guidance_time_is_latest_emission (requests : list request) (env : Env) :
  let w := run_session requests env (__init__ env) in
  (sent w = [] -> last_guidance_time (self w) = clock env O)
  /\ (forall earlier e, sent w = (earlier ++ [e])%list ->
                        last_guidance_time (self w) = em_time e).
Proof.
  intros w.
  assert (latest env w) as H.
  { apply (session_preserves env (latest env)).
    - apply latest_same.
    - intros c g situation_name w0 ch _ _. apply latest_spoken.
    - apply latest_output.
    - reflexivity. }
  unfold latest in H. split.
  - intros Hn. now rewrite Hn in H.
  - intros earlier e Hn. now rewrite Hn, rev_unit in H.
Qed.

(** ** What never changes in the registry *)

Lemma definitions_mutate (key : string) (t : Z)
    (d : list (string * GuidanceCharacter)) :
  map (fun item => (fst item, definition_of (snd item))) (mutate key (has_spoken t) d)
  = map (fun item => (fst item, definition_of (snd item))) d.
Proof.
  induction d as [| [k c] d IH]; [reflexivity |].
  cbn [mutate]. destruct (String.eqb key k); cbn [map fst snd]; [reflexivity |].
  now rewrite IH.
Qed.

(** X11.  Whatever entry points are called, the registry keeps its keys in
    their order and every character keeps its name, personality,
    background, speech patterns, expertise areas, response likelihood,
    professional level, mood and tiredness: only [last_spoke] and
    [spoke_count_session] ever change. *)
Theorem character_definitions_never_change (requests : list request) (env : Env)
    (w : World) :
  definitions (run_session requests env w) = definitions w.
Proof.
  apply (session_preserves env (fun w' => definitions w' = definitions w)).
  - intros w1 w2 (Hc & _) H. unfold definitions in *. now rewrite Hc.
  - intros c g situation_name w1 ch _ H. unfold definitions in *.
    cbn [spoken self set_guidance_context set_characters characters].
    now rewrite definitions_mutate.
  - intros w1 w2 (e & _ & _ & Hc & _) H. unfold definitions in *. now rewrite Hc.
  - reflexivity.
Qed.

(** ** Counters, history and the status report *)

Lemma entries_of_snoc (k : string) (h : list FlowEntry) (f : FlowEntry) :
  entries_of k (h ++ [f])
  = (entries_of k h + if String.eqb (character f) k then 1 else 0)%nat.
Proof.
  unfold entries_of. rewrite filter_app, length_app. cbn [filter].
  destruct (String.eqb (character f) k); reflexivity.
Qed.

Lemma mutate_In_NoDup (key : string) (f : GuidanceCharacter -> GuidanceCharacter)
    (d : list (string * GuidanceCharacter)) (k : string) (c : GuidanceCharacter) :
  NoDup (map fst d) ->
  In (k, c) (mutate key f d) ->
  (k <> key /\ In (k, c) d) \/ (k = key /\ exists c0, In (key, c0) d /\ c = f c0).
Proof.
  intros Hn Hin.
  destruct (String.eqb_spec k key) as [-> | Hne].
  - right. split; [reflexivity |].
    destruct (mutate_In _ _ _ _ _ Hin) as [Hold | (_ & c0 & Hc0 & ->)]; [| eauto].
    exists c. split; [exact Hold |].
    pose proof (mutate_same key f d c Hn Hold) as Hnew.
    assert (NoDup (map fst (mutate key f d))) as Hn' by now rewrite mutate_keys.
    exact (NoDup_keys_unique _ _ _ _ Hn' Hin Hnew).
  - left. split; [exact Hne |].
    destruct (mutate_In _ _ _ _ _ Hin) as [Hold | (Heq & _)];
      [exact Hold | contradiction].
Qed.

Lemma tally_same (w w' : World) : same_state w w' -> tally w -> tally w'.
Proof.
  intros (Hc & _ & _ & Hh) [Hk Hcount Hknown].
  split; rewrite ?Hc, ?Hh; assumption.
Qed.

Lemma tally_output (w w' : World) : output_step w w' -> tally w -> tally w'.
Proof.
  intros (e & _ & _ & Hc & Hh) [Hk Hcount Hknown].
  split; rewrite ?Hc, ?Hh; assumption.
Qed.

Lemma tally_spoken (env : Env) (c g situation_name : string) (w : World)
    (ch0 : GuidanceCharacter) :
  dict_get (characters (self w)) c = Some ch0 ->
  tally w -> tally (spoken env c g situation_name w).
Proof.
  intros Hget [Hk Hcount Hknown].
  assert (history (spoken env c g situation_name w)
          = (history w ++ [{| timestamp := clock env (S (S (ticks w)));
                              character := c; message := g;
                              situation := situation_name |}])%list) as Hh
      by reflexivity.
  split; rewrite ?Hh;
    cbn [spoken self set_guidance_context set_characters characters].
  - now rewrite mutate_keys.
  - intros k ch Hin. rewrite entries_of_snoc. cbn [character].
    apply mutate_In_NoDup in Hin as [[Hne Hin] | (-> & c0 & Hc0 & ->)];
      [| | exact Hk].
    + destruct (String.eqb_spec c k) as [Heq | _]; [congruence |].
      rewrite Nat.add_0_r. now apply Hcount.
    + rewrite String.eqb_refl. destruct (Hcount c c0 Hc0) as [Hn _].
      cbn [has_spoken spoke_count_session last_spoke]. split; [lia |].
      split; [discriminate | lia].
  - intros f Hf. rewrite mutate_keys.
    apply in_app_or in Hf as [Hf | [<- | []]]; [now apply Hknown |].
    cbn [character]. eapply in_keys, dict_get_In, Hget.
Qed.

Lemma tally_init (env : Env) : tally (__init__ env).
Proof.
  split.
  - cbn. repeat constructor; cbn; intuition discriminate.
  - intros c ch Hin. cbn in Hin.
    repeat (destruct Hin as [Hin | Hin];
            [inversion Hin; subst; repeat split; reflexivity |]).
    destruct Hin.
  - intros f [].
Qed.

Lemma tally_session (requests : list request) (env : Env) :
  tally (run_session requests env (__init__ env)).
Proof.
  apply (session_preserves env tally).
  - apply tally_same.
  - intros c g situation_name w ch. apply tally_spoken.
  - apply tally_output.
  - apply tally_init.
Qed.

(** *** Sums over the registry *)

Lemma total_indicator (x : string) (keys : list string) :
  NoDup keys -> In x keys ->
  total (map (fun k => if String.eqb x k then 1 else 0)%nat keys) = 1%nat.
Proof.
  induction keys as [| k keys IH]; intros Hn Hin; [destruct Hin |].
  inversion Hn as [| ? ? Hk Hks]; subst. cbn [map total fold_right].
  fold (total (map (fun k0 => if String.eqb x k0 then 1 else 0)%nat keys)).
  destruct (String.eqb_spec x k) as [-> | Hne].
  - assert (total (map (fun k0 => if String.eqb k k0 then 1 else 0)%nat keys) = O)
      as ->; [| reflexivity].
    clear IH Hin Hn Hks. induction keys as [| k' keys IH]; [reflexivity |].
    cbn [map total fold_right].
    destruct (String.eqb_spec k k') as [-> | _]; [exfalso; apply Hk; now left |].
    apply IH. intros H. apply Hk. now right.
  - destruct Hin as [-> | Hin]; [contradiction |]. now rewrite IH.
Qed.

Lemma total_entries (keys : list string) (h : list FlowEntry) :
  NoDup keys ->
  (forall f, In f h -> In (character f) keys) ->
  total (map (fun k => entries_of k h) keys) = List.length h.
Proof.
  intros Hn. induction h as [| f h IH]; intros Hknown.
  - clear Hn Hknown. induction keys as [| k keys IHk]; [reflexivity |].
    cbn [map total fold_right]. unfold total in IHk. now rewrite IHk.
  - assert (total (map (fun k => entries_of k (f :: h)) keys)
            = (total (map (fun k => if String.eqb (character f) k then 1 else 0)%nat
                        keys)
               + total (map (fun k => entries_of k h) keys))%nat) as ->.
    { clear. induction keys as [| k keys IHk]; [reflexivity |].
      cbn [map total fold_right]. unfold total in IHk. rewrite IHk.
      unfold entries_of. cbn [filter].
      destruct (String.eqb (character f) k); cbn [List.length]; lia. }
    rewrite (total_indicator (character f) keys Hn) by (apply Hknown; now left).
    rewrite IH by (intros f' Hf'; apply Hknown; now right).
    reflexivity.
Qed.

Lemma sum_session_messages (d : list (string * GuidanceCharacter))
    (h : list FlowEntry) :
  (forall c ch, In (c, ch) d -> spoke_count_session ch = Z.of_nat (entries_of c h)) ->
  fold_right Z.add 0 (map (fun item => spoke_count_session (snd item)) d)
  = Z.of_nat (total (map (fun k => entries_of k h) (map fst d))).
Proof.
  induction d as [| [k ch] d IH]; intros Hcount; [reflexivity |].
  cbn [map fst snd total fold_right].
  rewrite Nat2Z.inj_add, (Hcount k ch (or_introl eq_refl)).
  unfold total in IH. rewrite IH by (intros c ch' H; apply Hcount; now right).
  reflexivity.
Qed.

(** X12.  Whatever entry points are called after construction, the status
    report is consistent with the history: the [session_messages] of a
    character is the number of history entries that name it, the
    [recent_activity] is the sum of the [session_messages] of all
    characters, and a character listed as active has spoken at least
    once. *)
Theorem status_report_is_consistent (requests : list request) (env : Env) :
  let w := run_session requests env (__init__ env) in
  exists status,
    fst (get_character_status env w) = Ok status
    /\ (forall c d, In (c, d) (character_details status) ->
                    detail_session_messages d = Z.of_nat (entries_of c (history w)))
    /\ recent_activity status
       = fold_right Z.add 0
           (map (fun item => detail_session_messages (snd item))
              (character_details status))
    /\ (forall c, In c (status_active_characters status) ->
                  exists d, In (c, d) (character_details status)
                            /\ 1 <= detail_session_messages d).
Proof.
  intros w. destruct (tally_session requests env) as [Hk Hcount Hknown].
  fold w in Hk, Hcount, Hknown.
  eexists. split; [reflexivity |].
  cbn [character_details recent_activity status_active_characters].
  split; [| split].
  - intros c d Hin. apply in_map_iff in Hin as ([k ch] & Heq & Hin).
    cbn [fst snd] in Heq. inversion Heq; subst.
    cbn [detail_of detail_session_messages]. now apply Hcount.
  - fold (history w).
    transitivity (fold_right Z.add 0
                    (map (fun item => spoke_count_session (snd item))
                       (characters (self w)))).
    + rewrite (sum_session_messages _ (history w))
        by (intros c ch Hin; now apply Hcount).
      now rewrite (total_entries _ _ Hk Hknown).
    + now rewrite map_map.
  - intros c Hc. apply in_map_iff in Hc as ([k ch] & Heq & Hin).
    cbn [fst] in Heq. subst k. apply filter_In in Hin as [Hin Hact].
    exists (detail_of ch). split.
    + apply in_map_iff. exists (c, ch). split; [reflexivity | exact Hin].
    + cbn [detail_of detail_session_messages snd] in *.
      destruct (Hcount c ch Hin) as [Hn [_ Hzero]]. rewrite Hn.
      unfold is_active in Hact.
      destruct (entries_of c (history w)) as [| n]; [| lia].
      rewrite (Hzero eq_refl) in Hact. discriminate Hact.
Qed.

(** ** The emergency and force-speak entry points always get through *)

Lemma emergency_templates_marked (callsign character_name : string)
    (l : list string) :
  In (character_name, l) (emergency_templates callsign) ->
  l <> [] /\ forall t, In t l -> Py.contains "." t = true.
Proof.
  unfold emergency_templates. cbn [In].
  intros [H | [H | [H | []]]]; inversion H; subst; (split; [discriminate |]);
    intros t Ht; cbn [In] in Ht;
    repeat (destruct Ht as [<- | Ht];
            [rewrite ?contains_app; cbn; now rewrite ?orb_true_r |]);
    destruct Ht.
Qed.

Lemma emergency_guidance_spec (character_name : string) (env : Env) (w : World)
    (ch : GuidanceCharacter) :
  dict_get (characters (self w)) character_name = Some ch ->
  exists guidance w1,
    _generate_emergency_guidance character_name env w = (Ok guidance, w1)
    /\ only_draws w w1
    /\ truthy guidance = true.
Proof.
  intros Hch.
  unfold _generate_emergency_guidance. run. unfold getitem at 1. rewrite Hch.
  set (callsign := aircraft_callsign (guidance_context (self w))).
  destruct (getitem (emergency_templates callsign) "dublin_control")
    as [fallback | e] eqn:Hfallback; [| discriminate Hfallback].
  assert (In ("dublin_control", fallback) (emergency_templates callsign)) as Hin.
  { unfold getitem in Hfallback.
    destruct (dict_get (emergency_templates callsign) "dublin_control") eqn:E;
      [| discriminate Hfallback].
    inversion Hfallback; subst. now apply dict_get_In. }
  assert (exists name, In (name, get (dict_get (emergency_templates callsign)
                                        character_name) fallback)
                         (emergency_templates callsign)) as [name Hlist].
  { destruct (dict_get (emergency_templates callsign) character_name) as [l |] eqn:E.
    - exists character_name. now apply dict_get_In.
    - exists "dublin_control". exact Hin. }
  destruct (emergency_templates_marked _ _ _ Hlist) as [Hne Hmark].
  cbn [fst snd] in *.
  destruct (random_choice_run
              (get (dict_get (emergency_templates callsign) character_name) fallback)
              env w) as [[Hnil _] | (g & Hg & Hrun)]; [contradiction |].
  rewrite Hrun.
  exists g. eexists. split; [reflexivity |]. split; [repeat split |].
  apply (contains_truthy "."), Hmark, Hg.
Qed.

(** X13.  When the registry holds a character of professional level 8 or
    more, [handle_emergency_situation] always sends exactly one message
    that is not empty, spoken by the first such character in registry
    order, whatever [last_guidance_time] and the random draws are; it
    leaves the context in emergency with complexity 10. *)
Theorem emergency_entry_emits_once (env : Env) (w : World) :
  (exists c ch, In (c, ch) (characters (self w)) /\ 8 <= professional_level ch) ->
  exists c ch others guidance w',
    filter (fun item => 8 <=? professional_level (snd item)) (characters (self w))
    = (c, ch) :: others
    /\ 8 <= professional_level ch
    /\ handle_emergency_situation env w = (Ok tt, w')
    /\ truthy guidance = true
    /\ sent w' = (sent w ++ [{| em_character := c; em_message := guidance;
                                em_time := clock env (ticks w) |}])%list
    /\ last_guidance_time (self w') = clock env (ticks w)
    /\ emergency_situation (guidance_context (self w')) = true
    /\ complexity_level (guidance_context (self w')) = 10.
Proof.
  intros (c0 & ch0 & Hin0 & Hlevel0).
  destruct (filter (fun item => 8 <=? professional_level (snd item))
              (characters (self w))) as [| [c ch] others] eqn:Hfilter.
  { assert (In (c0, ch0) (filter (fun item => 8 <=? professional_level (snd item))
                            (characters (self w)))) as H.
    { apply filter_In. split; [exact Hin0 | now apply Z.leb_le]. }
    rewrite Hfilter in H. destruct H. }
  assert (In (c, ch) (characters (self w)) /\ 8 <= professional_level ch) as [Hin Hlevel].
  { assert (In (c, ch) ((c, ch) :: others)) as H by now left.
    rewrite <- Hfilter in H. apply filter_In in H as [H1 H2].
    split; [exact H1 | now apply Z.leb_le]. }
  destruct (in_dict_get _ _ _ Hin) as [ch' Hget].
  exists c, ch, others.
  unfold handle_emergency_situation. run.
  set (w0 := {| self := _; ticks := ticks w; draws := draws w; sent := sent w |}).
  change (characters (set_guidance_context (declare_emergency (guidance_context (self w)))
                        (self w))) with (characters (self w)).
  rewrite Hfilter. cbn [map fst].
  destruct (emergency_guidance_spec c env w0 ch' Hget)
    as (guidance & w1 & -> & (Hs & Ht & Hn) & Htruthy).
  rewrite Htruthy, output_guidance_run.
  exists guidance. eexists.
  split; [reflexivity |]. split; [exact Hlevel |]. split; [reflexivity |].
  split; [exact Htruthy |].
  cbn [sent self set_last_guidance_time last_guidance_time guidance_context].
  rewrite Hs, Ht, Hn. repeat split.
Qed.

Lemma emergency_entry_emits_once_witness :
  exists c ch others guidance w',
    filter (fun item => 8 <=? professional_level (snd item))
      (characters (self (__init__ env_unlucky)))
    = (c, ch) :: others
    /\ 8 <= professional_level ch
    /\ handle_emergency_situation env_unlucky (__init__ env_unlucky) = (Ok tt, w')
    /\ truthy guidance = true
    /\ sent w' = (sent (__init__ env_unlucky)
                  ++ [{| em_character := c; em_message := guidance;
                         em_time := clock env_unlucky (ticks (__init__ env_unlucky)) |}])%list
    /\ last_guidance_time (self w') = clock env_unlucky (ticks (__init__ env_unlucky))
    /\ emergency_situation (guidance_context (self w')) = true
    /\ complexity_level (guidance_context (self w')) = 10.
Proof.
  apply (emergency_entry_emits_once env_unlucky (__init__ env_unlucky)).
  exists "dublin_control". eexists. split; [left; reflexivity |].
  vm_compute. discriminate.
Defined.

(** X14.  [force_character_guidance] on a name that is not in the registry
    returns [None] and changes nothing; on a registered name it always
    sends exactly one message that is not empty, attributed to that
    character, and returns that message, whatever the cooldowns are. *)
Theorem force_speak_result (character_name : string)
    (situation_override : option string) (env : Env) (w : World) :
  (dict_get (characters (self w)) character_name = None ->
   force_character_guidance character_name situation_override env w = (Ok None, w))
  /\ (forall ch,
         dict_get (characters (self w)) character_name = Some ch ->
         exists guidance w',
           force_character_guidance character_name situation_override env w
           = (Ok (Some guidance), w')
           /\ truthy guidance = true
           /\ sent w' = (sent w ++ [{| em_character := character_name;
                                       em_message := guidance;
                                       em_time := clock env (ticks w) |}])%list
           /\ last_guidance_time (self w') = clock env (ticks w)).
Proof.
  unfold force_character_guidance. run. split.
  - intros ->. reflexivity.
  - intros ch Hch. rewrite Hch.
    match goal with
    | |- context [_generate_character_guidance ?c ?a ?f env w] =>
        destruct (character_guidance_spec c a f env w ch Hch) as (g & Hg & Htruthy);
        pose proof (character_guidance_only_draws c a f env w) as (Hs & Ht & Hn);
        destruct (_generate_character_guidance c a f env w) as [r w1]
    end.
    cbn [fst snd] in *. subst r. rewrite Htruthy, output_guidance_run.
    exists g. eexists. split; [reflexivity |]. split; [exact Htruthy |].
    cbn [sent self set_last_guidance_time last_guidance_time].
    rewrite Ht, Hn. split; reflexivity.
Qed.

(** ** Every chosen character speaks *)

Lemma dict_get_mutate (key : string) (f : GuidanceCharacter -> GuidanceCharacter)
    (d : list (string * GuidanceCharacter)) (k : string) (c : GuidanceCharacter) :
  dict_get d k = Some c -> exists c', dict_get (mutate key f d) k = Some c'.
Proof.
  induction d as [| [k' c'] d IH]; [discriminate |].
  cbn [dict_get mutate].
  destruct (String.eqb_spec key k') as [-> | Hne]; cbn [dict_get];
    destruct (String.eqb k k'); eauto.
Qed.

Lemma speak_in_turn_exact (total : nat) (situation_analysis : SituationAnalysis)
    (flight_data : FlightData) (responding : list string) (env : Env) :
  forall w,
    (forall c, In c responding ->
               exists ch, dict_get (characters (self w)) c = Some ch) ->
    exists new w',
      speak_in_turn total situation_analysis flight_data responding env w
      = (Ok tt, w')
      /\ sent w' = (sent w ++ new)%list
      /\ map em_character new = responding
      /\ (forall e, In e new ->
                    truthy (em_message e) = true
                    /\ exists k, (ticks w <= k)%nat /\ em_time e = clock env k).
Proof.
  induction responding as [| c others IH]; intros w Hknown.
  - exists [], w. rewrite app_nil_r.
    split; [reflexivity |]. split; [reflexivity |]. split; [reflexivity |].
    intros e [].
  - destruct (Hknown c (or_introl eq_refl)) as [ch Hch].
    destruct (character_guidance_spec c situation_analysis flight_data env w ch Hch)
      as (g & Hg & Htruthy).
    destruct (speak_in_turn_step total situation_analysis flight_data c others env w)
      as (r & w1 & Hgen & (Hs & Ht & Hn) & Hr).
    rewrite Hgen in Hg. cbn [fst] in Hg. subst r.
    destruct Hr as [_ ->]. rewrite Htruthy.
    destruct (IH (spoken env c g (situation_type situation_analysis) w1))
      as (new & w' & Hrun & Hsent & Hmap & Hnew).
    { intros c' Hc'. destruct (Hknown c' (or_intror Hc')) as [ch' Hch'].
      cbn [spoken self set_guidance_context set_characters characters].
      rewrite Hs. eapply dict_get_mutate, Hch'. }
    cbn [spoken sent ticks] in Hsent, Hnew.
    exists ({| em_character := c; em_message := g; em_time := clock env (ticks w1) |}
            :: new), w'.
    split; [exact Hrun |].
    split; [rewrite Hsent, Hn, <- app_assoc; reflexivity |].
    split; [cbn [map em_character]; now rewrite Hmap |].
    intros e0 [<- | He].
    + cbn [em_message em_time]. split; [exact Htruthy |].
      exists (ticks w1). split; [lia | reflexivity].
    + destruct (Hnew e0 He) as [Htr (k & Hk & Htime)]. split; [exact Htr |].
      exists k. split; [lia | exact Htime].
Qed.

(** What a cycle does, case by case. *)
Lemma cycle_outcome (flight_data : FlightData) (env : Env) (w : World) :
  let w0 := snd (_update_guidance_context flight_data env w) in
  exists go w1,
    _should_provide_guidance env w0 = (Ok go, w1)
    /\ if go then
         exists r w2,
           _select_responding_characters
             (_analyze_situation (guidance_context (self w1)) flight_data) env w1
           = (r, w2)
           /\ match r with
              | Raise e =>
                  process_flight_situation flight_data env w = (Raise e, w2)
                  /\ sent w2 = sent w
              | Ok responding =>
                  exists new w',
                    process_flight_situation flight_data env w = (Ok tt, w')
                    /\ sent w' = (sent w ++ new)%list
                    /\ map em_character new = responding
                    /\ forall e, In e new ->
                         truthy (em_message e) = true
                         /\ exists k, (ticks w <= k)%nat /\ em_time e = clock env k
              end
       else process_flight_situation flight_data env w = (Ok tt, w1)
            /\ sent w1 = sent w.
Proof.
  intros w0.
  destruct (cycle_cases flight_data env w)
    as (go & w1 & Hgate & Hself1 & Hsent1 & Hticks1 & _ & Hgo).
  fold w0 in Hgate, Hself1.
  exists go, w1. split; [exact Hgate |].
  destruct go; [| split; assumption].
  cbv zeta in Hgo. destruct Hgo as (r & w2 & Hsel & (Hs2 & Ht2 & Hn2) & Hr).
  cbn [after_tick self ticks sent] in Hs2, Ht2, Hn2.
  exists r, w2. split; [exact Hsel |].
  destruct r as [responding | e]; [| split; [exact Hr | congruence]].
  pose proof (select_spec
                (_analyze_situation (guidance_context (self w1)) flight_data) env w1)
    as [_ Hl].
  rewrite Hsel in Hl. cbn [fst] in Hl.
  destruct (Hl responding eq_refl) as (_ & Hin & _).
  destruct (speak_in_turn_exact (List.length responding)
              (_analyze_situation (guidance_context (self w1)) flight_data)
              flight_data responding env w2)
    as (new & w' & Hrun & Hsent & Hmap & Hnew).
  { intros c Hc. destruct (Hin c Hc) as (ch & Hch & _).
    rewrite Hs2. eapply in_dict_get, Hch. }
  exists new, w'. rewrite Hr.
  split; [exact Hrun |]. split; [congruence |]. split; [exact Hmap |].
  intros e He. destruct (Hnew e He) as [Htr (k & Hk & Htime)].
  split; [exact Htr |]. exists k. split; [lia | exact Htime].
Qed.

(** X15.  In a cycle in which the gate opens and the selector returns a
    list, the cycle ends without an exception and every character of the
    list speaks exactly once, in the order of the list, with a message that
    is not empty. *)
Theorem every_selected_character_speaks (flight_data : FlightData) (env : Env)
    (w w1 w2 : World) (responding : list string) :
  _should_provide_guidance env (snd (_update_guidance_context flight_data env w))
  = (Ok true, w1) ->
  _select_responding_characters
    (_analyze_situation (guidance_context (self w1)) flight_data) env w1
  = (Ok responding, w2) ->
  exists new w',
    process_flight_situation flight_data env w = (Ok tt, w')
    /\ sent w' = (sent w ++ new)%list
    /\ map em_character new = responding
    /\ forall e, In e new -> truthy (em_message e) = true.
Proof.
  intros Hgate Hsel.
  destruct (cycle_outcome flight_data env w) as (go & w1' & Hgate' & Hgo).
  rewrite Hgate in Hgate'. inversion Hgate'; subst go w1'.
  destruct Hgo as (r & w2' & Hsel' & Hr).
  rewrite Hsel in Hsel'. inversion Hsel'; subst r w2'.
  destruct Hr as (new & w' & Hrun & Hsent & Hmap & Hnew).
  exists new, w'. repeat split; try assumption.
  intros e He. now destruct (Hnew e He).
Qed.

Lemma every_selected_character_speaks_witness :
  exists new w',
    process_flight_situation emergency_cruise env_lucky (__init__ env_lucky)
    = (Ok tt, w')
    /\ sent w' = (sent (__init__ env_lucky) ++ new)%list
    /\ map em_character new = ["captain_murphy"; "sarah_spotter"]
    /\ forall e, In e new -> truthy (em_message e) = true.
Proof.
  eapply (every_selected_character_speaks emergency_cruise env_lucky
            (__init__ env_lucky)).
  - vm_compute. reflexivity.
  - vm_compute. reflexivity.
Defined.

(** ** When a cycle cannot raise *)

Lemma other_candidate (l : list string) (x : string) :
  NoDup l -> (2 <= List.length l)%nat ->
  filter (fun c => negb (String.eqb c x)) l <> [].
Proof.
  intros Hn Hlen.
  destruct l as [| a [| b rest]]; cbn [List.length] in Hlen; try lia.
  inversion Hn as [| ? ? Hab _]; subst.
  cbn [filter].
  destruct (String.eqb_spec a x) as [-> | _]; cbn [negb]; [| discriminate].
  destruct (String.eqb_spec b x) as [-> | _]; cbn [negb]; [| discriminate].
  exfalso. apply Hab. now left.
Qed.

Lemma normal_selection_total (situation_analysis : SituationAnalysis)
    (preferred : list string) (env : Env) (w : World) :
  preferred <> [] ->
  situation_type situation_analysis <> "routine" \/ NoDup preferred ->
  exists l, fst (normal_selection situation_analysis preferred env w) = Ok l.
Proof.
  intros Hne Hsafe. unfold normal_selection, bind, ret.
  destruct (random_choice_run preferred env w) as [[Hnil _] | (first & _ & ->)];
    [contradiction |].
  destruct (String.eqb_spec (situation_type situation_analysis) "routine")
    as [Hroutine | _]; cbn [andb]; [| eexists; reflexivity].
  destruct (Z.ltb_spec 1 (Z.of_nat (List.length preferred))) as [Hlen | _];
    [| eexists; reflexivity].
  rewrite random_random_run. destruct (Qltb _ 0.2); [| eexists; reflexivity].
  destruct Hsafe as [Hnot | Hnd]; [contradiction |].
  match goal with
  | |- context [random_choice ?l env ?w0] =>
      destruct (random_choice_run l env w0) as [[Hnil _] | (second & _ & ->)]
  end; [| eexists; reflexivity].
  exfalso. revert Hnil. apply other_candidate; [exact Hnd | lia].
Qed.

Lemma prefer_NoDup (available preferences : list string) :
  NoDup available -> NoDup preferences -> NoDup (prefer available preferences).
Proof.
  intros Ha Hp. unfold prefer.
  destruct (filter _ preferences) as [| p ps] eqn:E; [exact Ha |].
  rewrite <- E. now apply NoDup_filter.
Qed.

Lemma prefer_nonempty (available preferences : list string) :
  available <> [] -> prefer available preferences <> [].
Proof.
  intros Ha. unfold prefer.
  destruct (filter _ preferences); [exact Ha | discriminate].
Qed.

Lemma select_total (situation_analysis : SituationAnalysis) (env : Env) (w : World) :
  NoDup (map fst (characters (self w))) ->
  urgency_level situation_analysis < 7 ->
  situation_type situation_analysis <> "routine"
  \/ NoDup (character_preferences situation_analysis) ->
  exists l, fst (_select_responding_characters situation_analysis env w) = Ok l.
Proof.
  intros Hkeys Hcalm Hsafe.
  unfold _select_responding_characters.
  unfold bind, datetime_now, get_self, lift, ret. cbn [fst snd self ticks].
  fold (after_tick w).
  destruct (available_characters_spec (clock env (ticks w)) (characters (self w)) env
              (after_tick w)) as (available & w1 & -> & _ & _ & Hnd).
  specialize (Hnd Hkeys).
  destruct available as [| a available']; [eexists; reflexivity |].
  cbv iota.
  destruct (Z.leb_spec 7 (urgency_level situation_analysis)) as [Hge | _]; [lia |].
  apply normal_selection_total.
  - apply prefer_nonempty. discriminate.
  - destruct Hsafe as [Hnot | Hp]; [now left | right].
    now apply prefer_NoDup.
Qed.

Lemma analysis_is_safe (flight_data : FlightData) (ctx : GuidanceContext) :
  no_duplicate_preference flight_data ->
  let situation_analysis :=
    _analyze_situation (update_context flight_data ctx) flight_data in
  urgency_level situation_analysis < 7
  /\ (situation_type situation_analysis <> "routine"
      \/ NoDup (character_preferences situation_analysis)).
Proof.
  intros Hsafe. cbv zeta.
  unfold _analyze_situation.
  cbn [urgency_level situation_type character_preferences update_context
         traffic_density].
  split; [destruct (3 <? _); cbn; lia |].
  destruct (Z.ltb_spec 3 (get (fd_traffic_count flight_data) 0)) as [Hbusy | Hquiet];
    [left; discriminate | right].
  cbn [List.app].
  assert (forall l : list string,
             NoDup l -> ~ In "sarah_spotter" l ->
             NoDup (l ++ (if negb (String.eqb (get (fd_aircraft_type flight_data) "") "")
                             && negb (mem (get (fd_aircraft_type flight_data) "")
                                        ["B737"; "A320"; "B777"])
                          then ["sarah_spotter"] else []))) as Hrare.
  { intros l Hl Hnot. destruct (_ && _).
    - apply NoDup_app; [exact Hl | repeat constructor; intros [] |].
      intros x Hx [<- | []]. contradiction.
    - now rewrite app_nil_r. }
  destruct (mem (get (fd_phase flight_data) "") ["takeoff"; "landing"]).
  { apply Hrare; [repeat constructor; cbn; intuition discriminate |].
    cbn; intuition discriminate. }
  destruct (String.eqb_spec (get (fd_phase flight_data) "") "cruise") as [Hcruise | _].
  2: { apply Hrare; [constructor | intros []]. }
  destruct Hsafe as [Hbusy | [Hphase | Htype]]; [lia | contradiction |].
  assert (negb (String.eqb (get (fd_aircraft_type flight_data) "") "")
          && negb (mem (get (fd_aircraft_type flight_data) "") ["B737"; "A320"; "B777"])
          = false) as ->.
  { cbn [In] in Htype.
    destruct Htype as [<- | [<- | [<- | [<- | []]]]]; reflexivity. }
  rewrite app_nil_r. repeat constructor; cbn; intuition discriminate.
Qed.

(** A cycle whose selector has a second candidate whenever it looks for
    one ends without an exception. *)
Lemma cycle_total (flight_data : FlightData) (env : Env) (w : World) :
  NoDup (map fst (characters (self w))) ->
  no_duplicate_preference flight_data ->
  fst (process_flight_situation flight_data env w) = Ok tt.
Proof.
  intros Hkeys Hsafe.
  destruct (cycle_outcome flight_data env w) as (go & w1 & Hgate & Hgo).
  destruct (gate_frame env (snd (_update_guidance_context flight_data env w)))
    as (go' & w1' & Hgate' & Hself1 & _).
  rewrite Hgate in Hgate'. inversion Hgate'; subst go' w1'.
  destruct go; [| destruct Hgo as [-> _]; reflexivity].
  destruct Hgo as (r & w2 & Hsel & Hr).
  destruct (analysis_is_safe flight_data (guidance_context (self w)) Hsafe)
    as [Hcalm Hdup].
  destruct (select_total
              (_analyze_situation (guidance_context (self w1)) flight_data) env w1)
    as [l Hl].
  - now rewrite Hself1.
  - rewrite Hself1. exact Hcalm.
  - rewrite Hself1. exact Hdup.
  - rewrite Hsel in Hl. cbn [fst] in Hl. subst r.
    destruct Hr as (new & w' & -> & _). reflexivity.
Qed.

(** X16.  A cycle on a registry without duplicate keys ends without an
    exception whenever the snapshot is busy (traffic count above 3), or is
    not in cruise, or has an absent or common aircraft type: the only
    snapshots on which [process_flight_situation] can raise are quiet
    cruise snapshots of an uncommon aircraft type. *)
Theorem cycle_returns_without_duplicate_preference
    (flight_data : FlightData) (env : Env) (w : World) :
  NoDup (map fst (characters (self w))) ->
  no_duplicate_preference flight_data ->
  fst (process_flight_situation flight_data env w) = Ok tt.
Proof. apply cycle_total. Qed.

Lemma cycle_returns_without_duplicate_preference_witness :
  fst (process_flight_situation emergency_cruise env_lucky (__init__ env_lucky))
  = Ok tt.
Proof.
  apply (cycle_returns_without_duplicate_preference emergency_cruise env_lucky
           (__init__ env_lucky)).
  - cbn. repeat constructor; cbn; intuition discriminate.
  - right. right. cbn. tauto.
Defined.

(** ** Rate limiting *)

Lemma total_seconds_le (a b : Z) : a <= b -> (total_seconds a <= total_seconds b)%Q.
Proof. intros H. unfold total_seconds, Qle. cbn [Qnum Qden]. lia. Qed.

(** X17.  With a clock that never goes back, a cycle that speaks does so
    no sooner than the effective cooldown (computed from the complexity of
    its own snapshot) after [last_guidance_time]: the first emission of the
    cycle is at least that many seconds later. *)
Theorem cycle_waits_for_cooldown (flight_data : FlightData) (env : Env) (w : World)
    (e : Emission) (later : list Emission) :
  monotone (clock env) ->
  sent (snd (process_flight_situation flight_data env w)) = (sent w ++ e :: later)%list ->
  (effective_cooldown (self (snd (_update_guidance_context flight_data env w)))
   <= total_seconds (em_time e - last_guidance_time (self w)))%Q.
Proof.
  intros Hmono Hsent.
  destruct (cycle_outcome flight_data env w) as (go & w1 & Hgate & Hgo).
  set (w0 := snd (_update_guidance_context flight_data env w)) in *.
  assert (forall w', sent w' = sent w ->
                     process_flight_situation flight_data env w <> (Ok tt, w')
                     /\ forall x, process_flight_situation flight_data env w
                                  <> (Raise x, w')) as Hquiet.
  { intros w' Hw'. split; [intros Hrun | intros x Hrun];
      rewrite Hrun in Hsent; cbn [snd] in Hsent; rewrite Hw' in Hsent;
      rewrite <- (app_nil_r (sent w)) in Hsent at 1;
      apply app_inv_head in Hsent; discriminate Hsent. }
  destruct go.
  2: { destruct Hgo as [Hrun Hw1]. now destruct (Hquiet w1 Hw1). }
  assert (effective_cooldown (self w0) <= elapsed_seconds env w0)%Q as Hwait.
  { apply Qnot_lt_le. intros Hlt.
    apply gate_cooldown_first in Hlt. rewrite Hgate in Hlt. discriminate Hlt. }
  destruct Hgo as (r & w2 & _ & Hr).
  destruct r as [responding | x].
  2: { destruct Hr as [Hrun Hw2]. destruct (Hquiet w2 Hw2) as [_ H]. now destruct (H x). }
  destruct Hr as (new & w' & Hrun & Hnew & _ & Htimes).
  rewrite Hrun in Hsent. cbn [snd] in Hsent. rewrite Hnew in Hsent.
  apply app_inv_head in Hsent. subst new.
  destruct (Htimes e (or_introl eq_refl)) as [_ (k & Hk & ->)].
  eapply Qle_trans; [exact Hwait |].
  unfold elapsed_seconds. apply total_seconds_le.
  specialize (Hmono _ _ Hk).
  change (ticks w0) with (ticks w).
  change (last_guidance_time (self w0)) with (last_guidance_time (self w)).
  lia.
Qed.

Lemma cycle_waits_for_cooldown_witness :
  (effective_cooldown
     (self (snd (_update_guidance_context emergency_cruise env_lucky
                   (__init__ env_lucky))))
   <= total_seconds (1800000000 - last_guidance_time (self (__init__ env_lucky))))%Q.
Proof.
  eapply (cycle_waits_for_cooldown emergency_cruise env_lucky (__init__ env_lucky)
            {| em_character := "captain_murphy";
               em_message := "In my experience EI-XYZ, watch that traffic pattern.";
               em_time := 1800000000 |} _ env_lucky_monotone).
  vm_compute. reflexivity.
Defined.

Lemma scale_le (base : Q) (a b : Z) :
  (0 <= base)%Q -> a <= b -> (base * inject_Z a <= base * inject_Z b)%Q.
Proof.
  intros Hbase Hab.
  rewrite (Qmult_comm base (inject_Z a)), (Qmult_comm base (inject_Z b)).
  apply Qmult_le_compat_r; [| exact Hbase].
  now rewrite <- Zle_Qle.
Qed.

(** X18.  For a snapshot whose traffic count is not negative, the context
    update stores a complexity between 1 and 10, so the effective cooldown
    lies between the base cooldown and ten times the base cooldown (3 to 30
    seconds in the reference configuration); with the emergency flag set the
    complexity is at least 5 and the effective cooldown at most six times
    the base cooldown (18 seconds). *)
Theorem effective_cooldown_bounds (flight_data : FlightData) (env : Env) (w : World) :
  (0 <= guidance_cooldown_seconds (self w))%Q ->
  0 <= get (fd_traffic_count flight_data) 0 ->
  let s0 := self (snd (_update_guidance_context flight_data env w)) in
  let base := guidance_cooldown_seconds (self w) in
  1 <= complexity_level (guidance_context s0) <= 10
  /\ (base * inject_Z 1 <= effective_cooldown s0)%Q
  /\ (effective_cooldown s0 <= base * inject_Z 10)%Q
  /\ (get (fd_emergency flight_data) false = true ->
      5 <= complexity_level (guidance_context s0)
      /\ (effective_cooldown s0 <= base * inject_Z 6)%Q).
Proof.
  intros Hbase Htraffic s0 base. subst s0 base.
  unfold effective_cooldown.
  cbn [_update_guidance_context modify_self snd self set_guidance_context
         guidance_context guidance_cooldown_seconds update_context complexity_level].
  set (c := Z.min _ 10).
  assert (1 <= c <= 10
          /\ (get (fd_emergency flight_data) false = true -> 5 <= c)) as [Hc He].
  { subst c.
    pose proof (Z.div_pos (get (fd_traffic_count flight_data) 0) 2 Htraffic ltac:(lia)).
    destruct (get (fd_emergency flight_data) false);
      destruct (5 <? get (fd_weather_severity flight_data) 0);
      (split; [lia | intros; try discriminate; lia]). }
  split; [exact Hc |].
  split; [apply scale_le; [exact Hbase | lia] |].
  split; [apply scale_le; [exact Hbase | lia] |].
  intros Hflag. specialize (He Hflag).
  split; [exact He | apply scale_le; [exact Hbase | lia]].
Qed.

Lemma effective_cooldown_bounds_witness :
  let s0 := self (snd (_update_guidance_context emergency_cruise env_lucky
                         (__init__ env_lucky))) in
  let base := guidance_cooldown_seconds (self (__init__ env_lucky)) in
  1 <= complexity_level (guidance_context s0) <= 10
  /\ (base * inject_Z 1 <= effective_cooldown s0)%Q
  /\ (effective_cooldown s0 <= base * inject_Z 10)%Q
  /\ (get (fd_emergency emergency_cruise) false = true ->
      5 <= complexity_level (guidance_context s0)
      /\ (effective_cooldown s0 <= base * inject_Z 6)%Q).
Proof.
  apply (effective_cooldown_bounds emergency_cruise env_lucky (__init__ env_lucky)).
  - vm_compute. discriminate.
  - vm_compute. discriminate.
Defined.

(** * The simulated flight *)

(** ** The envelope of the simulated flight *)

Lemma phase_idx_cases (i : Z) :
  0 <= i < 8 -> i = 0 \/ i = 1 \/ i = 2 \/ i = 3 \/ i = 4 \/ i = 5 \/ i = 6 \/ i = 7.
Proof. lia. Qed.

Lemma simulate_iteration_envelope (current_time : Z) (f : Flight) :
  in_envelope f ->
  exists flight_data,
    fst (simulate_iteration current_time f) = Some flight_data
    /\ snapshot_of_phase (current_phase_idx f) flight_data
    /\ in_envelope (snd (simulate_iteration current_time f))
    /\ (current_phase_idx (snd (simulate_iteration current_time f)) = current_phase_idx f
        \/ current_phase_idx (snd (simulate_iteration current_time f))
           = next_phase_idx (current_phase_idx f)).
Proof.
  intros (Hidx & Halt & Hspeed).
  destruct f as [idx alt spd start].
  cbn [current_phase_idx altitude speed] in Hidx, Halt, Hspeed.
  unfold simulate_iteration, in_envelope, snapshot_of_phase.
  cbn [current_phase_idx altitude speed phase_start_time].
  destruct (phase_idx_cases idx Hidx) as [-> | [-> | [-> | [-> | [-> | [-> | [-> | ->]]]]]]];
    match goal with
    | |- context [list_getitem flight_phases ?i] =>
        let r := eval vm_compute in (list_getitem flight_phases i) in
        change (list_getitem flight_phases i) with r
    end;
    cbv iota beta;
    match goal with
    | |- context [dict_get phase_durations ?p] =>
        let r := eval vm_compute in (dict_get phase_durations p) in
        change (dict_get phase_durations p) with r
    end;
    match goal with
    | |- context [nth_error flight_phases ?n] =>
        let r := eval vm_compute in (nth_error flight_phases n) in
        change (nth_error flight_phases n) with r
    end;
    match goal with
    | |- context [Z.of_nat (List.length flight_phases)] =>
        change (Z.of_nat (List.length flight_phases)) with 8
    end;
    cbn [update_parameters String.eqb Ascii.eqb Bool.eqb get];
    match goal with
    | |- context [Qle_bool ?a ?b] => destruct (Qle_bool a b)
    end;
    cbn [fst snd current_phase_idx altitude speed phase_start_time
           fd_phase fd_traffic_count fd_emergency fd_aircraft_type fd_altitude
           fd_weather_severity
           Z.ltb Z.compare Pos.compare Pos.compare_cont Z.sub Z.add Z.opp Z.pos_sub
           Pos.pred_double Pos.succ next_phase_idx];
    (eexists; split; [reflexivity |];
     split; [split; [lia |]; repeat (split; [reflexivity |]);
             eexists; split; [reflexivity | lia] |];
     split; [lia |]; first [left; reflexivity | right; reflexivity]).
Qed.

Lemma phase_of_snapshot (i : Z) (flight_data : FlightData) :
  snapshot_of_phase i flight_data -> phase_of (Some flight_data) = phase_name i.
Proof.
  intros (Hi & Hphase & _). unfold phase_of, phase_name. rewrite Hphase.
  destruct (phase_idx_cases i Hi) as [-> | [-> | [-> | [-> | [-> | [-> | [-> | ->]]]]]]];
    reflexivity.
Qed.

Lemma succeeds_next (i j : Z) :
  0 <= i < 8 -> j = i \/ j = next_phase_idx i -> succeeds (phase_name i) (phase_name j).
Proof.
  intros Hi [-> | ->]; [now left |].
  right.
  destruct (phase_idx_cases i Hi) as [-> | [-> | [-> | [-> | [-> | [-> | [-> | ->]]]]]]];
    vm_compute; repeat (first [left; reflexivity | right]).
Qed.

Lemma simulate_cons (current_time : Z) (later : list Z) (f : Flight) :
  simulate (current_time :: later) f
  = (fst (simulate_iteration current_time f)
       :: fst (simulate later (snd (simulate_iteration current_time f))),
     snd (simulate later (snd (simulate_iteration current_time f)))).
Proof.
  cbn [simulate]. destruct (simulate_iteration current_time f) as [snapshot f'].
  cbn [fst snd]. now destruct (simulate later f').
Qed.

Lemma simulate_envelope (times : list Z) (f : Flight) :
  in_envelope f ->
  Forall simulated (fst (simulate times f))
  /\ in_envelope (snd (simulate times f))
  /\ hd (phase_name (current_phase_idx f)) (map phase_of (fst (simulate times f)))
     = phase_name (current_phase_idx f)
  /\ chain succeeds (map phase_of (fst (simulate times f))).
Proof.
  revert f. induction times as [| current_time later IH]; intros f Hf.
  - cbn. repeat split; [constructor | apply Hf ..].
  - rewrite simulate_cons. cbn [fst snd map hd].
    destruct (simulate_iteration_envelope current_time f Hf)
      as (flight_data & Hsnap & Hshape & Hnext & Hstep).
    destruct (IH _ Hnext) as (Hall & Henv & Hhd & Hchain).
    rewrite Hsnap. rewrite (phase_of_snapshot _ _ Hshape).
    split; [constructor; [now exists flight_data, (current_phase_idx f) | exact Hall] |].
    split; [exact Henv |]. split; [reflexivity |].
    cbn [chain].
    destruct (map phase_of (fst (simulate later (snd (simulate_iteration current_time f)))))
      as [| b rest] eqn:E; [exact I |].
    split; [| exact Hchain].
    cbn [hd] in Hhd. rewrite Hhd.
    apply succeeds_next; [apply Hf | exact Hstep].
Qed.

Lemma takeoff_roll_envelope (now : Z) : in_envelope (takeoff_roll now).
Proof. unfold in_envelope, takeoff_roll. cbn. lia. Qed.

(** X19.  Whatever the clock reads, the simulated flight stays within its
    envelope: every iteration of the loop builds a snapshot (the handler of
    the loop is never reached), the snapshot is a routine B737 snapshot of
    one of the eight phases with an altitude from 0 to 35000 feet and a
    traffic count of the phase number modulo 4, and the loop variables end
    with a phase number from 0 to 7, an altitude from 0 to 35000 and a speed
    from 0 to 450. *)
Theorem simulated_flight_envelope (now : Z) (times : list Z) :
  Forall simulated (fst (simulate times (takeoff_roll now)))
  /\ in_envelope (snd (simulate times (takeoff_roll now))).
Proof.
  destruct (simulate_envelope times (takeoff_roll now) (takeoff_roll_envelope now))
    as (Hall & Henv & _).
  now split.
Qed.

(** X20.  The simulated flight begins on the ground and goes through the
    phases in the order of [flight_phases]: the phase of a snapshot is the
    phase of the snapshot before it or the one that follows it in the list,
    and the only phase that follows landing is ground. *)
Theorem simulated_flight_phases_in_order (now : Z) (times : list Z) :
  let phases := map phase_of (fst (simulate times (takeoff_roll now))) in
  hd "ground" phases = "ground" /\ chain succeeds phases.
Proof.
  destruct (simulate_envelope times (takeoff_roll now) (takeoff_roll_envelope now))
    as (_ & _ & Hhd & Hchain).
  split; [exact Hhd | exact Hchain].
Qed.

(** ** The simulated flight and the guidance characters *)

Lemma simulated_is_safe (flight_data : FlightData) (i : Z) :
  snapshot_of_phase i flight_data -> no_duplicate_preference flight_data.
Proof.
  intros (_ & _ & _ & _ & Htype & _). right. right. rewrite Htype. cbn. tauto.
Qed.

(** X21.  Every snapshot of the simulated flight is analysed as a routine
    situation of urgency 1 without traffic or weather concerns, at a
    complexity level of 1 or 2 and without an emergency; so the
    professional-only branch of the selector is never taken in a simulated
    flight and the effective cooldown is nine or ten times the base
    cooldown. *)
Theorem simulated_flight_is_routine (now : Z) (times : list Z) (ctx : GuidanceContext) :
  Forall
    (fun snapshot =>
       exists flight_data,
         snapshot = Some flight_data
         /\ let ctx' := update_context flight_data ctx in
            let situation_analysis := _analyze_situation ctx' flight_data in
            1 <= complexity_level ctx' <= 2
            /\ emergency_situation ctx' = false
            /\ situation_type situation_analysis = "routine"
            /\ urgency_level situation_analysis = 1
            /\ traffic_concerns situation_analysis = []
            /\ weather_concerns situation_analysis = [])
    (fst (simulate times (takeoff_roll now))).
Proof.
  destruct (simulate_envelope times (takeoff_roll now) (takeoff_roll_envelope now))
    as (Hall & _).
  eapply Forall_impl; [| exact Hall].
  intros snapshot
    (flight_data & i & -> & Hi & _ & Htraffic & Hemergency & _ & Hseverity & _).
  exists flight_data. split; [reflexivity |].
  cbv zeta. unfold _analyze_situation, update_context.
  cbn [complexity_level emergency_situation traffic_density situation_type
         urgency_level traffic_concerns weather_concerns].
  rewrite Htraffic, Hemergency, Hseverity. cbn [get].
  assert (0 <= i mod 4 < 4) as Hmod by (apply Z.mod_pos_bound; lia).
  assert (0 <= i mod 4 / 2 < 2) as Hhalf.
  { split; [apply Z.div_pos; lia |]. apply Z.div_lt_upper_bound; lia. }
  destruct (Z.ltb_spec 3 (i mod 4)) as [Hbusy | _]; [lia |].
  change (5 <? 0) with false. cbv iota.
  repeat split; lia.
Qed.

(** X22.  No snapshot of the simulated flight makes the commentary engine
    raise: on a registry without duplicate keys [process_flight_data]
    returns normally for every snapshot of the flight, whatever the state
    of the characters, the clock and the random draws, with guidance
    enabled or not.  The [IndexError] of the selector needs a quiet cruise
    snapshot of an uncommon aircraft type, and the simulator flies a
    B737. *)
Theorem simulated_flight_never_raises (now : Z) (times : list Z)
    (snapshot : option FlightData) (guidance_enabled : bool) (env : Env) (w : World) :
  NoDup (map fst (characters (self w))) ->
  In snapshot (fst (simulate times (takeoff_roll now))) ->
  exists flight_data,
    snapshot = Some flight_data
    /\ fst (process_flight_data guidance_enabled flight_data env w) = Ok tt.
Proof.
  intros Hkeys Hin.
  destruct (simulate_envelope times (takeoff_roll now) (takeoff_roll_envelope now))
    as (Hall & _).
  rewrite Forall_forall in Hall.
  destruct (Hall snapshot Hin) as (flight_data & i & -> & Hshape).
  exists flight_data. split; [reflexivity |].
  unfold process_flight_data.
  destruct guidance_enabled; cbn [negb]; [| reflexivity].
  apply cycle_total; [exact Hkeys |].
  exact (simulated_is_safe _ _ Hshape).
Qed.

Lemma simulated_flight_never_raises_witness :
  exists flight_data,
    nth 1 (fst (simulate [0; 40000000] (takeoff_roll 0))) None = Some flight_data
    /\ fst (process_flight_data true flight_data env_lucky (__init__ env_lucky)) = Ok tt.
Proof.
  apply (simulated_flight_never_raises 0 [0; 40000000] _ true env_lucky
           (__init__ env_lucky)).
  - cbn. repeat constructor; cbn; intuition discriminate.
  - vm_compute. right. left. reflexivity.
Defined.

(** * Wind reports *)

Lemma wind_speed_is_pronounce_speed (speed : int_or_str) :
  wind_speed_pronunciation speed = pronounce_speed speed "knots".
Proof.
  destruct speed as [n | s]; [reflexivity |].
  cbn [wind_speed_pronunciation pronounce_speed].
  destruct (Py.int _) as [n | e]; [reflexivity |].
  now destruct e.
Qed.

Lemma wind_direction_total (s : string) :
  exists r,
    except_ValueError
      (let? n := Py.int (Py.strip (Py.replace degree_sign "" s)) in
       pronounce_heading (PyInt n)) s = Ok r.
Proof.
  destruct (Py.int (Py.strip (Py.replace degree_sign "" s))) as [n | e] eqn:Hint;
    cbn [rbind].
  - cbn [pronounce_heading].
    destruct (heading_int_three_words n) as (a & b & c & _ & _ & _ & ->).
    cbn [except_ValueError]. eauto.
  - apply int_raises_ValueError in Hint. subst. cbn [except_ValueError]. eauto.
Qed.

(** X23.  The direction of a wind report never raises, whatever its type
    and content: it is ["variable"] for the strings [vrb] and [variable] in
    any letter case and what [pronounce_heading] gives otherwise.  The
    speed and the gusts, which [pronounce_wind] parses with lines of its
    own, are spoken exactly as [pronounce_speed] speaks them in knots: the
    report is ["Wind <direction> at <speed>"], followed by
    [", gusting <gusts>"] when gusts are given, and the only exceptions are
    those of [pronounce_speed], the one of the speed first. *)
Theorem pronounce_wind_report (direction : int_or_str) :
  exists direction_pronunciation,
    match direction with
    | PyStr s =>
        if mem (Py.lower s) ["vrb"; "variable"]
        then direction_pronunciation = "variable"
        else pronounce_heading direction = Ok direction_pronunciation
    | PyInt _ => pronounce_heading direction = Ok direction_pronunciation
    end
    /\ forall (speed : int_or_str) (gusts : option int_or_str),
         pronounce_wind direction speed gusts
         = let? speed_pronunciation := pronounce_speed speed "knots" in
           let wind_report :=
             "Wind " ++ direction_pronunciation ++ " at " ++ speed_pronunciation in
           match gusts with
           | Some gusts =>
               let? gusts_pronunciation := pronounce_speed gusts "knots" in
               Ok (wind_report ++ ", gusting " ++ gusts_pronunciation)
           | None => Ok wind_report
           end.
Proof.
  unfold pronounce_wind.
  assert (exists r,
             match direction with
             | PyStr s =>
                 if mem (Py.lower s) ["vrb"; "variable"] then r = "variable"
                 else pronounce_heading direction = Ok r
             | PyInt _ => pronounce_heading direction = Ok r
             end
             /\ match direction with
                | PyStr s =>
                    if mem (Py.lower s) ["vrb"; "variable"] then Ok "variable"
                    else
                      except_ValueError
                        (let? n := Py.int (Py.strip (Py.replace degree_sign "" s)) in
                         pronounce_heading (PyInt n)) s
                | PyInt n => pronounce_heading (PyInt n)
                end = Ok r) as (r & Hr & ->).
  { destruct direction as [n | s].
    - cbn [pronounce_heading].
      destruct (heading_int_three_words n) as (a & b & c & _ & _ & _ & ->). eauto.
    - destruct (mem _ _); [eauto |].
      destruct (wind_direction_total s) as [r Hr]. exists r.
      split; [| exact Hr].
      revert Hr. cbn [pronounce_heading].
      destruct (Py.int (Py.strip (Py.replace degree_sign "" s))) as [n | e] eqn:Hint;
        cbn [rbind].
      + cbn [pronounce_heading].
        destruct (heading_int_three_words n) as (a & b & c & _ & _ & _ & ->).
        cbn [except_ValueError]. tauto.
      + apply int_raises_ValueError in Hint. subst. tauto. }
  exists r. split; [exact Hr |]. intros speed gusts. cbn [rbind].
  rewrite wind_speed_is_pronounce_speed.
  destruct (pronounce_speed speed "knots") as [sp | e]; cbn [rbind]; [| reflexivity].
  destruct gusts as [g |]; [| reflexivity].
  now rewrite wind_speed_is_pronounce_speed.
Qed.

(** * Traffic calls *)

Lemma all_chars_snoc (p : ascii -> bool) (s : string) (c : ascii) :
  Py.all_chars p (s ++ String c "") = Py.all_chars p s && p c.
Proof.
  induction s as [| d s IH]; cbn [String.append Py.all_chars].
  - now rewrite andb_true_r.
  - rewrite IH. now rewrite andb_assoc.
Qed.

Lemma all_chars_impl (p q : ascii -> bool) (s : string) :
  (forall c, p c = true -> q c = true) ->
  Py.all_chars p s = true -> Py.all_chars q s = true.
Proof.
  intros Hpq. induction s as [| c s IH]; cbn [Py.all_chars]; [reflexivity |].
  intros H. apply andb_prop in H as [Hc Hs]. now rewrite (Hpq c Hc), (IH Hs).
Qed.

Lemma decimal_is_ascii (c : ascii) :
  Py.is_decimal_digit c = true -> Py.is_ascii c = true.
Proof.
  destruct c as [b0 b1 b2 b3 b4 b5 b6 b7].
  destruct b0, b1, b2, b3, b4, b5, b6, b7; intros H; try discriminate H; reflexivity.
Qed.

Lemma ascii_digit_is_decimal (c : ascii) :
  Py.is_ascii c = true -> Py.isdigit_char c = true -> Py.is_decimal_digit c = true.
Proof.
  destruct c as [b0 b1 b2 b3 b4 b5 b6 b7].
  destruct b0, b1, b2, b3, b4, b5, b6, b7; intros Ha H;
    try discriminate Ha; try discriminate H; reflexivity.
Qed.

Lemma icao_ascii_returns (icao_code : string) :
  Py.all_chars Py.is_ascii icao_code = true ->
  exists r, pronounce_icao_code icao_code = Ok r.
Proof.
  intros H. unfold pronounce_icao_code.
  destruct (String.eqb icao_code ""); [eauto |].
  destruct (dict_get airport_pronunciations (Py.upper icao_code)); [eauto |].
  destruct (spell_ascii_string icao_code H) as (parts & -> & _).
  cbn [rbind]. eauto.
Qed.

Lemma speak_digits_returns (part : string) :
  Py.all_chars Py.is_decimal_digit part = true ->
  exists r, speak_digits part = Ok r.
Proof.
  intros H. unfold speak_digits.
  destruct (digit_words_of_decimal part H) as [ws ->]. cbn [rbind]. eauto.
Qed.

Lemma speak_part_returns (st : Segmenter) :
  segmenter_ok st -> exists r, speak_part st = Ok r.
Proof.
  unfold segmenter_ok, speak_part.
  destruct (is_letter (current_type st)); intros H.
  - now apply icao_ascii_returns.
  - now apply speak_digits_returns.
Qed.

Lemma segment_char_returns (st : Segmenter) (char : ascii) :
  segmenter_ok st -> Py.is_ascii char = true ->
  exists st', segment_char st char = Ok st' /\ segmenter_ok st'.
Proof.
  intros Hst Hchar. unfold segment_char.
  destruct (Ascii.eqb char "-" || Ascii.eqb char " ").
  { destruct (truthy (current_part st)); [| eauto].
    destruct (speak_part_returns st Hst) as [spoken ->]. cbn [rbind].
    eexists. split; [reflexivity | reflexivity]. }
  destruct st as [parts part type]. unfold segmenter_ok in Hst.
  cbn [current_part current_type callsign_parts] in *.
  destruct (Py.isalpha_char char).
  { destruct type as [[|] |]; cbn [is_digit is_letter andb] in *.
    - cbn [rbind callsign_parts current_part]. eexists. split; [reflexivity |].
      unfold segmenter_ok. cbn [current_type current_part is_letter].
      now rewrite all_chars_snoc, Hst, Hchar.
    - destruct (truthy part).
      + destruct (speak_digits_returns part Hst) as [spoken ->].
        cbn [rbind callsign_parts current_part]. eexists. split; [reflexivity |].
        unfold segmenter_ok. cbn [current_type current_part is_letter String.append
                                    Py.all_chars].
        now rewrite Hchar.
      + cbn [rbind callsign_parts current_part]. eexists. split; [reflexivity |].
        unfold segmenter_ok. cbn [current_type current_part is_letter].
        rewrite all_chars_snoc, Hchar.
        now rewrite (all_chars_impl _ _ part decimal_is_ascii Hst).
    - cbn [rbind callsign_parts current_part]. eexists. split; [reflexivity |].
      unfold segmenter_ok. cbn [current_type current_part is_letter].
      rewrite all_chars_snoc, Hchar.
      now rewrite (all_chars_impl _ _ part decimal_is_ascii Hst). }
  destruct (Py.isdigit_char char) eqn:Hdigit; [| eexists; split; [reflexivity | exact Hst]].
  pose proof (ascii_digit_is_decimal char Hchar Hdigit) as Hdec.
  destruct type as [[|] |]; cbn [is_digit is_letter andb] in *.
  - destruct (truthy part) eqn:Hpart.
    + destruct (icao_ascii_returns part Hst) as [spoken ->].
      cbn [rbind callsign_parts current_part]. eexists. split; [reflexivity |].
      unfold segmenter_ok. cbn [current_type current_part is_letter String.append
                                  Py.all_chars].
      now rewrite Hdec.
    + cbn [rbind callsign_parts current_part]. eexists. split; [reflexivity |].
      unfold segmenter_ok. cbn [current_type current_part is_letter].
      unfold truthy in Hpart. apply negb_false_iff in Hpart.
      apply String.eqb_eq in Hpart. subst part.
      cbn [String.append Py.all_chars]. now rewrite Hdec.
  - cbn [rbind callsign_parts current_part]. eexists. split; [reflexivity |].
    unfold segmenter_ok. cbn [current_type current_part is_letter].
    now rewrite all_chars_snoc, Hst, Hdec.
  - cbn [rbind callsign_parts current_part]. eexists. split; [reflexivity |].
    unfold segmenter_ok. cbn [current_type current_part is_letter].
    now rewrite all_chars_snoc, Hst, Hdec.
Qed.

Lemma segment_returns (s : string) (st : Segmenter) :
  segmenter_ok st -> Py.all_chars Py.is_ascii s = true ->
  exists st', segment st s = Ok st' /\ segmenter_ok st'.
Proof.
  revert st. induction s as [| char s IH]; intros st Hst Hs; cbn [segment].
  - eauto.
  - cbn [Py.all_chars] in Hs. apply andb_prop in Hs as [Hchar Hs].
    destruct (segment_char_returns st char Hst Hchar) as (st1 & -> & Hst1).
    cbn [rbind]. now apply IH.
Qed.

Lemma upper_ascii (s : string) :
  Py.all_chars Py.is_ascii s = true -> Py.all_chars Py.is_ascii (Py.upper s) = true.
Proof.
  induction s as [| c s IH]; cbn [Py.upper Py.all_chars]; [reflexivity |].
  intros H. apply andb_prop in H as [Hc Hs].
  now rewrite (upper_char_ascii c Hc), (IH Hs).
Qed.

Lemma pronounce_mixed_callsign_returns (callsign : string) :
  Py.all_chars Py.is_ascii callsign = true ->
  exists r, pronounce_mixed_callsign callsign = Ok r.
Proof.
  intros H. unfold pronounce_mixed_callsign.
  destruct (segment_returns (Py.upper callsign)
              {| callsign_parts := []; current_part := ""; current_type := None |})
    as (st & -> & Hst); [reflexivity | now apply upper_ascii |].
  cbn [rbind].
  destruct (truthy (current_part st)); [| cbn [rbind]; eauto].
  destruct (speak_part_returns st Hst) as [spoken ->]. cbn [rbind]. eauto.
Qed.

Lemma round_half_even_positive (x : Q) :
  Qle_bool 1 x = true -> 1 <= round_half_even x.
Proof.
  intros H. apply Qle_bool_iff in H. unfold Qle in H. cbn [Qnum Qden] in H.
  unfold round_half_even.
  assert (1 <= Qnum x / Z.pos (Qden x)) as Hbelow.
  { apply Z.div_le_lower_bound; lia. }
  destruct (_ <? _); [exact Hbelow |].
  destruct (_ <? _); [lia |].
  destruct (Z.even _); lia.
Qed.

Lemma number_simple_large (number : Z) :
  100 <= number -> exists r, _pronounce_number_simple number = Ok r.
Proof.
  intros H. unfold _pronounce_number_simple.
  destruct (Z.ltb_spec number 10) as [Hlt | _]; [lia |].
  destruct (Z.ltb_spec number 100) as [Hlt | _]; [lia |].
  destruct (digit_words_str number) as [ws ->]; [lia |]. cbn [rbind]. eauto.
Qed.

(** X24.  [format_traffic_call] never raises on an ASCII callsign, whatever
    the aircraft type, the distance, the bearing and the altitude
    difference: the call has its six parts in the fixed order, the bearing
    as three digit words.  In the loop over a mixed callsign a part of
    digits holds decimal digits only, which is what keeps the lookups in
    [AVIATION_NUMBERS] from failing; the distance is at least one when it
    is rounded, and an altitude difference is only spoken when its size is
    above 500. *)
Theorem format_traffic_call_returns (callsign aircraft_type : string) (distance : Q)
    (bearing altitude_diff : Z) :
  Py.all_chars Py.is_ascii callsign = true ->
  exists callsign_pronunciation distance_pronunciation a b c altitude_phrase,
    In a number_words /\ In b number_words /\ In c number_words
    /\ (Py.isalpha callsign = true ->
        pronounce_icao_code callsign = Ok callsign_pronunciation)
    /\ format_traffic_call callsign aircraft_type distance bearing altitude_diff
       = Ok ("Traffic, " ++ callsign_pronunciation ++ ", " ++ aircraft_type ++ ", "
             ++ distance_pronunciation ++ " nautical miles, "
             ++ (a ++ " " ++ b ++ " " ++ c) ++ " o'clock, " ++ altitude_phrase).
Proof.
  intros Hascii. unfold format_traffic_call.
  assert (exists cp,
             (Py.isalpha callsign = true -> pronounce_icao_code callsign = Ok cp)
             /\ (if Py.isalpha callsign then pronounce_icao_code callsign
                 else if Py.isalnum (Py.replace " " "" (Py.replace "-" "" callsign))
                      then pronounce_mixed_callsign callsign
                      else Ok callsign) = Ok cp) as (cp & Hcp & ->).
  { destruct (Py.isalpha callsign).
    - destruct (icao_ascii_returns callsign Hascii) as [r ->]. eauto.
    - destruct (Py.isalnum _).
      + destruct (pronounce_mixed_callsign_returns callsign Hascii) as [r ->].
        exists r. split; [discriminate | reflexivity].
      + exists callsign. split; [discriminate | reflexivity]. }
  cbn [rbind].
  assert (exists dp,
             (if Qle_bool 1 distance then
                if round_half_even distance <? 10
                then getitem AVIATION_NUMBERS (Py.str (round_half_even distance))
                else
                  let? distance_digits :=
                    digit_words (Py.str (round_half_even distance)) in
                  Ok (Py.join " " distance_digits)
              else Ok "Less than one") = Ok dp) as (dp & ->).
  { destruct (Qle_bool 1 distance) eqn:Hfar; [| eauto].
    pose proof (round_half_even_positive distance Hfar) as Hpos.
    destruct (Z.ltb_spec (round_half_even distance) 10) as [Hlt | Hge].
    - apply getitem_digit. lia.
    - destruct (digit_words_str (round_half_even distance)) as [ws ->]; [lia |].
      cbn [rbind]. eauto. }
  cbn [rbind pronounce_heading].
  destruct (heading_int_three_words bearing) as (a & b & c & Ha & Hb & Hc & ->).
  cbn [rbind].
  assert (exists ap,
             (if 500 <? altitude_diff then
                let? n := _pronounce_number_simple altitude_diff in
                Ok (n ++ " feet above")
              else if altitude_diff <? -500 then
                     let? n := _pronounce_number_simple (Z.abs altitude_diff) in
                     Ok (n ++ " feet below")
                   else Ok "at similar altitude") = Ok ap) as (ap & ->).
  { destruct (Z.ltb_spec 500 altitude_diff) as [Habove | _].
    - destruct (number_simple_large altitude_diff) as [r ->]; [lia |].
      cbn [rbind]. eauto.
    - destruct (Z.ltb_spec altitude_diff (-500)) as [Hbelow | _]; [| eauto].
      destruct (number_simple_large (Z.abs altitude_diff)) as [r ->]; [lia |].
      cbn [rbind]. eauto. }
  cbn [rbind].
  exists cp, dp, a, b, c, ap. repeat (split; [assumption |]). reflexivity.
Qed.

Lemma format_traffic_call_returns_witness :
  exists callsign_pronunciation distance_pronunciation a b c altitude_phrase,
    In a number_words /\ In b number_words /\ In c number_words
    /\ (Py.isalpha "EI-123" = true ->
        pronounce_icao_code "EI-123" = Ok callsign_pronunciation)
    /\ format_traffic_call "EI-123" "B737" 2.5 10 1000
       = Ok ("Traffic, " ++ callsign_pronunciation ++ ", " ++ "B737" ++ ", "
             ++ distance_pronunciation ++ " nautical miles, "
             ++ (a ++ " " ++ b ++ " " ++ c) ++ " o'clock, " ++ altitude_phrase).
Proof.
  apply (format_traffic_call_returns "EI-123" "B737" 2.5 10 1000).
  reflexivity.
Defined.

(** * Numbers given as text *)

Lemma parse_digits_decimal (s : string) :
  forall prev acc,
    Py.all_chars Py.is_decimal_digit s = true ->
    prev = true \/ s <> "" ->
    Py.parse_digits prev acc s = Some (value_of acc s).
Proof.
  induction s as [| c s IH]; intros prev acc Hs Hne; cbn [Py.parse_digits value_of].
  - destruct Hne as [-> | Hne]; [reflexivity | contradiction].
  - cbn [Py.all_chars] in Hs. apply andb_prop in Hs as [Hc Hs].
    rewrite Hc. apply IH; [exact Hs | now left].
Qed.

Lemma str_nat_decimal (n : Z) :
  0 <= n -> Py.all_chars Py.is_decimal_digit (Py.str_nat n) = true.
Proof. intros Hn. apply digits_of_decimal; [exact Hn | reflexivity]. Qed.

Lemma decimal_has_no (c : ascii) (s : string) :
  Py.is_decimal_digit c = false ->
  Py.all_chars Py.is_decimal_digit s = true ->
  Py.contains c s = false.
Proof.
  intros Hc. induction s as [| d s IH]; intros Hs; cbn [Py.contains]; [reflexivity |].
  cbn [Py.all_chars] in Hs. apply andb_prop in Hs as [Hd Hs].
  rewrite (IH Hs), orb_false_r.
  destruct (Ascii.eqb_spec c d) as [-> | _]; [congruence | reflexivity].
Qed.

Lemma str_has_no (c : ascii) (n : Z) :
  Py.is_decimal_digit c = false -> Ascii.eqb c "-" = false ->
  Py.contains c (Py.str n) = false.
Proof.
  intros Hc Hminus. unfold Py.str.
  destruct (Z.ltb_spec n 0) as [Hneg | Hpos].
  - cbn [Py.contains]. rewrite Hminus. cbn [orb].
    apply decimal_has_no; [exact Hc | apply str_nat_decimal; lia].
  - apply decimal_has_no; [exact Hc | now apply str_nat_decimal].
Qed.

Lemma rstrip_decimal (s : string) :
  Py.all_chars Py.is_decimal_digit s = true -> Py.rstrip s = s.
Proof.
  induction s as [| c s IH]; intros Hs; [reflexivity |].
  cbn [Py.all_chars] in Hs. apply andb_prop in Hs as [Hc Hs].
  cbn [Py.rstrip]. rewrite (IH Hs).
  destruct s; [| reflexivity].
  destruct c as [b0 b1 b2 b3 b4 b5 b6 b7].
  destruct b0, b1, b2, b3, b4, b5, b6, b7; try discriminate Hc; reflexivity.
Qed.

Lemma strip_str (n : Z) : Py.strip (Py.str n) = Py.str n.
Proof.
  unfold Py.str.
  destruct (Z.ltb_spec n 0) as [Hneg | Hpos].
  - unfold Py.strip. cbn [Py.lstrip].
    change (Py.isspace "-") with false. cbv iota.
    cbn [Py.rstrip]. rewrite rstrip_decimal by (apply str_nat_decimal; lia).
    unfold Py.str_nat.
    now destruct (digits_of_nonempty (Z.to_nat (Z.log2 (- n))) (- n) "") as (c & s & ->).
  - now destruct (decimal_string_facts _ (str_nat_decimal n Hpos))
      as (_ & _ & _ & _ & H & _).
Qed.

Lemma parse_str_nat (n : Z) :
  0 <= n -> Py.parse_digits false 0 (Py.str_nat n) = Some n.
Proof.
  intros Hn. rewrite parse_digits_decimal.
  - now rewrite str_nat_value.
  - now apply str_nat_decimal.
  - right. unfold Py.str_nat.
    now destruct (digits_of_nonempty (Z.to_nat (Z.log2 n)) n "") as (c & s & ->).
Qed.

Lemma int_str (n : Z) : Py.int (Py.str n) = Ok n.
Proof.
  unfold Py.int. rewrite strip_str. unfold Py.str.
  destruct (Z.ltb_spec n 0) as [Hneg | Hpos].
  - change (Ascii.eqb "-" "-") with true. cbv iota.
    rewrite parse_str_nat by lia. f_equal. lia.
  - pose proof (str_nat_decimal n Hpos) as Hdec.
    pose proof (parse_str_nat n Hpos) as Hparse.
    destruct (Py.str_nat n) as [| c t]; [discriminate Hparse |].
    cbn [Py.all_chars] in Hdec. apply andb_prop in Hdec as [Hc _].
    destruct (Ascii.eqb_spec c "-") as [-> | _]; [discriminate Hc |].
    destruct (Ascii.eqb_spec c "+") as [-> | _]; [discriminate Hc |].
    rewrite Hparse. f_equal. lia.
Qed.

Lemma str_first (n : Z) :
  exists d s, Py.str n = String d s /\ (Py.is_decimal_digit d = true \/ d = "-"%char).
Proof.
  unfold Py.str. destruct (Z.ltb_spec n 0) as [Hneg | Hpos]; [eauto |].
  pose proof (str_nat_decimal n Hpos) as Hdec. unfold Py.str_nat in *.
  destruct (digits_of_nonempty (Z.to_nat (Z.log2 n)) n "") as (c & s & E).
  rewrite E in *. cbn [Py.all_chars] in Hdec. apply andb_prop in Hdec as [Hc _].
  eauto.
Qed.

Lemma lower_char_not_v (d : ascii) :
  Py.is_decimal_digit d = true \/ d = "-"%char ->
  Ascii.eqb (Py.lower_char d) "v" = false.
Proof.
  intros [H | ->]; [| reflexivity].
  destruct d as [b0 b1 b2 b3 b4 b5 b6 b7].
  destruct b0, b1, b2, b3, b4, b5, b6, b7; try discriminate H; reflexivity.
Qed.

Lemma str_is_not_variable (n : Z) :
  mem (Py.lower (Py.str n)) ["vrb"; "variable"] = false.
Proof.
  destruct (str_first n) as (d & s & -> & Hd).
  unfold mem. cbn [existsb Py.lower String.eqb].
  now rewrite (lower_char_not_v d Hd).
Qed.

(** X25.  A number given as its decimal text is spoken as the number
    itself: for every integer [n], negative ones included,
    [pronounce_altitude], [pronounce_speed] and [pronounce_heading] give on
    [str(n)] what they give on [n] (the same phrase, or the same
    [KeyError]), and so does [pronounce_wind] for its direction, speed and
    gusts.  The removal of the unit and of the separators leaves the text
    as it is, and [int] reads back what [str] wrote. *)
Theorem decimal_text_is_spoken_as_the_number (n : Z) (unit : string) :
  pronounce_altitude (PyStr (Py.str n)) = pronounce_altitude (PyInt n)
  /\ pronounce_speed (PyStr (Py.str n)) unit = pronounce_speed (PyInt n) unit
  /\ pronounce_heading (PyStr (Py.str n)) = pronounce_heading (PyInt n)
  /\ forall direction speed gusts : Z,
       pronounce_wind (PyStr (Py.str direction)) (PyStr (Py.str speed))
                      (Some (PyStr (Py.str gusts)))
       = pronounce_wind (PyInt direction) (PyInt speed) (Some (PyInt gusts)).
Proof.
  assert (forall m, Py.strip (Py.replace "ft" "" (Py.replace "," "" (Py.str m)))
                    = Py.str m) as Hfeet.
  { intros m.
    rewrite (replace_absent "," "" "" (Py.str m)) by now apply str_has_no.
    rewrite (replace_absent "f" "t" "" (Py.str m)) by now apply str_has_no.
    apply strip_str. }
  assert (forall m, Py.strip (Py.replace "knots" "" (Py.replace "kts" "" (Py.str m)))
                    = Py.str m) as Hknots.
  { intros m.
    rewrite (replace_absent "k" "ts" "" (Py.str m)) by now apply str_has_no.
    rewrite (replace_absent "k" "nots" "" (Py.str m)) by now apply str_has_no.
    apply strip_str. }
  assert (forall m, Py.strip (Py.replace degree_sign "" (Py.str m)) = Py.str m)
    as Hdegrees.
  { intros m. unfold degree_sign.
    rewrite (replace_absent (ascii_of_nat 176) "" "" (Py.str m))
      by now apply str_has_no.
    apply strip_str. }
  split; [| split; [| split]].
  - cbn [pronounce_altitude]. now rewrite Hfeet, int_str.
  - cbn [pronounce_speed]. now rewrite Hknots, int_str.
  - cbn [pronounce_heading]. now rewrite Hdegrees, int_str.
  - intros direction speed gusts. unfold pronounce_wind.
    cbn [wind_speed_pronunciation].
    rewrite !Hknots, Hdegrees, !int_str.
    rewrite str_is_not_variable. cbn [rbind except_ValueError pronounce_heading].
    destruct (heading_int_three_words direction) as (a & b & c & _ & _ & _ & ->).
    reflexivity.
Qed.
